(** * Quota, compliance and routing engine of the WABA sandbox

    A shallow embedding of the in-memory stores of the sandbox
    (messaging limits, marketing frequency caps, phone lifecycle and
    webhook routing, event log, message templates) together with the
    properties the specification states about them.

    Conventions of the embedding:
    - a module-level [Map<string, T>] is a [gmap string T] passed in and
      returned explicitly; a function that mutates a looked-up object in
      place writes the new value back under the key it was read from;
    - timestamps and durations (milliseconds) are integers in [Z];
    - [Date.now()] and [Math.random()] are read by the caller and handed
      to the function as arguments;
    - an optional field [f?: T] is an [option T]; JavaScript truthiness of
      an optional string is [truthy]. *)

From stdpp Require Import gmap strings list sets pretty sorting.
From Stdlib Require Import ZArith Lia.

Open Scope Z_scope.

(** ** JavaScript idioms shared by the stores *)

(** [if (s)] on a [string | undefined]: defined and not the empty string. *)
Definition truthy (s : option string) : bool :=
  match s with
  | Some x => negb (String.eqb x EmptyString)
  | None => false
  end.

(** [o || undefined] and [if (o)] keep a string only when it is truthy. *)
Definition whenTruthy (o : option string) : option string :=
  if truthy o then o else None.

(** [a ?? b] on optional values. *)
Definition nullish {A : Type} (a b : option A) : option A :=
  match a with
  | Some x => Some x
  | None => b
  end.

(** [a || b] on optional strings: the first that is truthy, else the last. *)
Definition orElse (a b : option string) : option string :=
  if truthy a then a else b.

(** A field of a patch that may be left out, be [null] or carry a value. *)
Inductive Nullable (A : Type) :=
| Undefined
| Null
| Given (a : A).

Arguments Undefined {A}.
Arguments Null {A}.
Arguments Given {A} a.

(** [if (f === null) delete o.f; else if (f given) o.f = f] *)
Definition patchNullable {A : Type} (f : Nullable A) (current : option A) : option A :=
  match f with
  | Undefined => current
  | Null => None
  | Given a => Some a
  end.

(** What [f ?? rest] sees of [f]: [null] and [undefined] both fall through. *)
Definition givenValue {A : Type} (f : Nullable A) : option A :=
  match f with
  | Given a => Some a
  | _ => None
  end.

(** [xs.splice(0, xs.length - cap)] guarded by [xs.length > cap]:
    drop the oldest entries so that at most [cap] remain. *)
Definition capRing {A : Type} (cap : nat) (xs : list A) : list A :=
  if (cap <? length xs)%nat then drop (length xs - cap) xs else xs.

(** [xs.sort((a, b) => key(b) - key(a))] on a copy: the stable sort that
    puts the largest key first.  [Array.prototype.sort] is stable, so
    entries with equal keys keep the order they had. *)
Fixpoint insertDescending {A : Type} (key : A → Z) (x : A) (sorted : list A) : list A :=
  match sorted with
  | [] => [x]
  | y :: rest =>
      if key y <=? key x then x :: y :: rest
      else y :: insertDescending key x rest
  end.

Definition sortDescending {A : Type} (key : A → Z) (xs : list A) : list A :=
  foldr (insertDescending key) [] xs.

(** [TemplateCategory] of state/templates.ts; [ConversationCategory] of
    state/messagingLimits.ts adds ["UNKNOWN"], which is already a member. *)
Inductive TemplateCategory :=
| MARKETING
| UTILITY
| AUTHENTICATION
| UNKNOWN.

(** ** state/messagingLimits.ts *)

Module MessagingLimits.

Inductive MessagingLimitTier :=
| TIER_250
| TIER_1K
| TIER_10K
| TIER_100K
| TIER_UNLIMITED.

Definition ConversationCategory := TemplateCategory.

(** [costUsd] and [totalCostUsd] are JavaScript numbers.  The category
    costs 0.05, 0.03, 0.02 and 0.025 are written here in thousandths of a
    USD; [totalCostUsd += cost] rounds in the source and is exact here, so
    the properties below say where the total changes, not what a sum of
    costs amounts to. *)
Record SendEvent := mkSendEvent {
  to : string;
  category : ConversationCategory;
  timestamp : Z;
  costUsd : Z
}.

Record MessagingLimitState := mkState {
  phoneId : string;
  tier : MessagingLimitTier;
  windowMs : Z;
  sends : list SendEvent;
  totalCostUsd : Z
}.

Definition DEFAULT_WINDOW_MS : Z := 24 * 60 * 60 * 1000.

Definition CATEGORY_COST (c : ConversationCategory) : Z :=
  match c with
  | MARKETING => 50
  | UTILITY => 30
  | AUTHENTICATION => 20
  | UNKNOWN => 25
  end.

(** A tier limit is a number of recipients or [Number.POSITIVE_INFINITY]. *)
Inductive Limit :=
| Finite (n : Z)
| Infinite.

Definition TIER_LIMITS (t : MessagingLimitTier) : Limit :=
  match t with
  | TIER_250 => Finite 250
  | TIER_1K => Finite 1000
  | TIER_10K => Finite 10000
  | TIER_100K => Finite 100000
  | TIER_UNLIMITED => Infinite
  end.

(** [size >= limit] *)
Definition limitReached (size : nat) (l : Limit) : bool :=
  match l with
  | Finite n => n <=? Z.of_nat size
  | Infinite => false
  end.

(** [size < limit] *)
Definition belowLimit (size : nat) (l : Limit) : bool :=
  match l with
  | Finite n => Z.of_nat size <? n
  | Infinite => true
  end.

(** [size <= limit]: the limit is not strictly exceeded. *)
Definition withinLimit (size : nat) (l : Limit) : bool :=
  match l with
  | Finite n => Z.of_nat size <=? n
  | Infinite => true
  end.

Abbreviation States := (gmap string MessagingLimitState).

Definition getOrCreateState (pid : string) (states : States)
  : MessagingLimitState * States :=
  match states !! pid with
  | Some existing => (existing, states)
  | None =>
      let fresh := {| phoneId := pid; tier := TIER_1K;
                      windowMs := DEFAULT_WINDOW_MS; sends := [];
                      totalCostUsd := 0 |} in
      (fresh, <[pid := fresh]> states)
  end.

(** [states.set(state.phoneId, state)] after the object read under [key]
    was mutated in place. *)
Definition writeBack (key : string) (s : MessagingLimitState) (states : States)
  : States :=
  <[phoneId s := s]> (<[key := s]> states).

Record MessagingLimitEvaluation := mkEvaluation {
  allowed : bool;
  reason : option string;
  eval_tier : MessagingLimitTier;
  windowUniqueRecipients : nat;
  limitUniqueRecipients : Limit
}.

(** [(e) => e.timestamp >= windowStart] *)
Definition inWindow (windowStart : Z) (e : SendEvent) : bool :=
  windowStart <=? timestamp e.

(** [new Set(sends.map((e) => e.to))] *)
Definition uniqueRecipients (evs : list SendEvent) : gset string :=
  list_to_set (map to evs).

Definition withSends (s : MessagingLimitState) (evs : list SendEvent)
  : MessagingLimitState :=
  {| phoneId := phoneId s; tier := tier s; windowMs := windowMs s;
     sends := evs; totalCostUsd := totalCostUsd s |}.

Definition evaluateMessagingLimit
  (states : States) (pid recipient : string) (now : Z)
  : MessagingLimitEvaluation * States :=
  let '(state0, states1) := getOrCreateState pid states in
  let windowStart := now - windowMs state0 in
  let state := withSends state0 (List.filter (inWindow windowStart) (sends state0)) in
  let states2 := <[pid := state]> states1 in
  let recipients := uniqueRecipients (sends state) in
  let limit := TIER_LIMITS (tier state) in
  if negb (bool_decide (recipient ∈ recipients))
     && limitReached (size recipients) limit
  then
    ({| allowed := false;
        reason := Some "messaging_limit_reached_for_this_phone_number_in_current_24h_window";
        eval_tier := tier state;
        windowUniqueRecipients := size recipients;
        limitUniqueRecipients := limit |}, states2)
  else
    ({| allowed := true;
        reason := None;
        eval_tier := tier state;
        windowUniqueRecipients := size recipients;
        limitUniqueRecipients := limit |}, states2).

Record RegisterSendResult := mkRegisterSendResult {
  event : SendEvent;
  state : MessagingLimitState
}.

Definition registerSend
  (states : States) (pid recipient : string) (cat : ConversationCategory) (now : Z)
  : RegisterSendResult * States :=
  let '(state0, states1) := getOrCreateState pid states in
  let cost := CATEGORY_COST cat in
  let ev := {| to := recipient; category := cat; timestamp := now; costUsd := cost |} in
  let state1 :=
    {| phoneId := phoneId state0; tier := tier state0; windowMs := windowMs state0;
       sends := sends state0 ++ [ev];
       totalCostUsd := totalCostUsd state0 + cost |} in
  ({| event := ev; state := state1 |}, writeBack pid state1 states1).

Record MessagingLimitSummary := mkSummary {
  sum_phoneId : string;
  sum_tier : MessagingLimitTier;
  sum_windowMs : Z;
  sum_windowUniqueRecipients : nat;
  sum_limitUniqueRecipients : Limit;
  sum_totalCostUsd : Z
}.

Definition getMessagingSummaryForPhone (states : States) (pid : string) (now : Z)
  : MessagingLimitSummary * States :=
  let '(state0, states1) := getOrCreateState pid states in
  let windowStart := now - windowMs state0 in
  let recent := List.filter (inWindow windowStart) (sends state0) in
  let recipients := uniqueRecipients recent in
  ({| sum_phoneId := pid;
      sum_tier := tier state0;
      sum_windowMs := windowMs state0;
      sum_windowUniqueRecipients := size recipients;
      sum_limitUniqueRecipients := TIER_LIMITS (tier state0);
      sum_totalCostUsd := totalCostUsd state0 |}, states1).

Definition setMessagingTier (states : States) (pid : string) (t : MessagingLimitTier)
  : States :=
  let '(state0, states1) := getOrCreateState pid states in
  let state1 :=
    {| phoneId := phoneId state0; tier := t; windowMs := windowMs state0;
       sends := sends state0; totalCostUsd := totalCostUsd state0 |} in
  <[pid := state1]> states1.

(** The stored send events of a number; none before its first reference. *)
Definition storedSends (states : States) (pid : string) : list SendEvent :=
  match states !! pid with
  | Some s => sends s
  | None => []
  end.

(** *** Runs of the tracker

    A run is any sequence of calls.  The specification asks the callers
    to evaluate before registering and to serialize the updates of one
    number: a [registerSend] for a (number, recipient) pair is licensed
    by an evaluation of that pair which returned allowed, with no send
    registered for the number in between. *)
Inductive Op :=
| OpEvaluate (pid recipient : string) (now : Z)
| OpRegister (pid recipient : string) (cat : ConversationCategory) (now : Z)
| OpSummary (pid : string) (now : Z).

(** The pairs whose evaluation returned allowed, no send having been
    registered for their number since. *)
Definition Licences := list (string * string).

Definition licensed (lic : Licences) (pid recipient : string) : bool :=
  existsb (fun l => String.eqb (fst l) pid && String.eqb (snd l) recipient) lic.

Definition revoke (lic : Licences) (pid : string) : Licences :=
  List.filter (fun l => negb (String.eqb (fst l) pid)) lic.

(** One call of the run; [None] when a send is registered without licence. *)
Definition stepOp (run : States * Licences) (op : Op) : option (States * Licences) :=
  let '(states, lic) := run in
  match op with
  | OpEvaluate pid recipient now =>
      let '(ev, states1) := evaluateMessagingLimit states pid recipient now in
      Some (states1, if allowed ev then (pid, recipient) :: lic else lic)
  | OpRegister pid recipient cat now =>
      if licensed lic pid recipient
      then Some (snd (registerSend states pid recipient cat now), revoke lic pid)
      else None
  | OpSummary pid now =>
      Some (snd (getMessagingSummaryForPhone states pid now), lic)
  end.

Fixpoint runOps (ops : list Op) (run : States * Licences) : option (States * Licences) :=
  match ops with
  | [] => Some run
  | op :: rest =>
      match stepOp run op with
      | Some run1 => runOps rest run1
      | None => None
      end
  end.

(** Every state is stored under its own [phoneId], as [getOrCreateState]
    creates it. *)
Definition storeWellKeyed (states : States) : Prop :=
  map_Forall (fun k s => phoneId s = k) states.

#[global] Instance storeWellKeyed_dec (states : States) : Decision (storeWellKeyed states).
Proof. unfold storeWellKeyed. apply _. Defined.

(** Every stored state keeps its distinct recipients within its tier limit. *)
Definition respectsLimit (s : MessagingLimitState) : Prop :=
  withinLimit (size (uniqueRecipients (sends s))) (TIER_LIMITS (tier s)) = true.

#[global] Instance respectsLimit_dec (s : MessagingLimitState) : Decision (respectsLimit s).
Proof. unfold respectsLimit. apply _. Defined.

Definition storeRespectsLimits (states : States) : Prop :=
  map_Forall (fun _ s => respectsLimit s) states.

#[global] Instance storeRespectsLimits_dec (states : States) : Decision (storeRespectsLimits states).
Proof. unfold storeRespectsLimits. apply _. Defined.

(** What a licence stands for: the evaluation of the pair would still allow it. *)
Definition licenceHolds (states : States) (l : string * string) : Prop :=
  ∃ s, states !! fst l = Some s
       ∧ bool_decide (snd l ∈ uniqueRecipients (sends s))
         || belowLimit (size (uniqueRecipients (sends s))) (TIER_LIMITS (tier s)) = true.

(** The invariant of a run. *)
Definition runInvariant (run : States * Licences) : Prop :=
  storeWellKeyed (fst run)
  ∧ storeRespectsLimits (fst run)
  ∧ Forall (licenceHolds (fst run)) (snd run).

(** *** The scenario of the specification: number [A] set to tier
    TIER_250, with sends to 250 distinct recipients registered one per
    millisecond. *)
Definition scenarioRecipient (n : nat) : string := "recipient#" +:+ pretty n.

Definition scenarioStates : States :=
  fold_left
    (fun states n =>
       snd (registerSend states "A" (scenarioRecipient n) MARKETING (Z.of_nat n)))
    (seq 1 250)
    (setMessagingTier ∅ "A" TIER_250).

(** On the scenario store: recipient #251 is evaluated, recipient #17 is
    evaluated and a send to it registered, and the summary is read. *)
Definition scenarioOps : list Op :=
  [ OpEvaluate "A" (scenarioRecipient 251) 251;
    OpEvaluate "A" (scenarioRecipient 17) 252;
    OpRegister "A" (scenarioRecipient 17) UTILITY 253;
    OpSummary "A" 254 ].

(** Number [B] after one send registered at time 0. *)
Definition staleStates : States :=
  snd (registerSend ∅ "B" "recipient#1" MARKETING 0).

(** Number [A] at tier TIER_250 with sends to recipients #0 to #250
    registered at the milliseconds 0 to 250, and a second send to
    recipient #200 at millisecond 251: 252 stored events to 251 distinct
    recipients, of which the one to recipient #0 has left the window of
    24 hours one millisecond after a day has passed. *)
Definition agedStates : States :=
  snd (registerSend
         (fold_left
            (fun states n =>
               snd (registerSend states "A" (scenarioRecipient n) MARKETING (Z.of_nat n)))
            (seq 0 251)
            (setMessagingTier ∅ "A" TIER_250))
         "A" (scenarioRecipient 200) UTILITY 251).

(** *** Runs in which every registration follows an allowed evaluation

    The weaker protocol: a [registerSend] for a (number, recipient) pair
    uses up one evaluation of that pair which returned allowed, whatever
    was registered for the number in between. *)
Fixpoint useLicence (lic : Licences) (pid recipient : string) : Licences :=
  match lic with
  | [] => []
  | l :: rest =>
      if String.eqb (fst l) pid && String.eqb (snd l) recipient then rest
      else l :: useLicence rest pid recipient
  end.

Definition stepEvaluated (run : States * Licences) (op : Op) : option (States * Licences) :=
  let '(states, lic) := run in
  match op with
  | OpEvaluate pid recipient now =>
      let '(ev, states1) := evaluateMessagingLimit states pid recipient now in
      Some (states1, if allowed ev then (pid, recipient) :: lic else lic)
  | OpRegister pid recipient cat now =>
      if licensed lic pid recipient
      then Some (snd (registerSend states pid recipient cat now), useLicence lic pid recipient)
      else None
  | OpSummary pid now =>
      Some (snd (getMessagingSummaryForPhone states pid now), lic)
  end.

Fixpoint runEvaluated (ops : list Op) (run : States * Licences) : option (States * Licences) :=
  match ops with
  | [] => Some run
  | op :: rest =>
      match stepEvaluated run op with
      | Some run1 => runEvaluated rest run1
      | None => None
      end
  end.

(** Number [A] at tier TIER_250 with sends to recipients #1 to #249, one
    short of its limit; and two requests handled side by side: both
    recipients are evaluated before either send is registered. *)
Definition nearlyFullStates : States :=
  fold_left
    (fun states n =>
       snd (registerSend states "A" (scenarioRecipient n) MARKETING (Z.of_nat n)))
    (seq 1 249)
    (setMessagingTier ∅ "A" TIER_250).

Definition interleavedOps : list Op :=
  [ OpEvaluate "A" (scenarioRecipient 250) 250;
    OpEvaluate "A" (scenarioRecipient 251) 251;
    OpRegister "A" (scenarioRecipient 250) MARKETING 252;
    OpRegister "A" (scenarioRecipient 251) MARKETING 253 ].

(** *** Listings and the calls of the tracker *)

(** [Array.from(states.keys()).map((phoneId) =>
    getMessagingSummaryForPhone(phoneId, now))].  The numbers come in the
    enumeration order of the model's map; the [Map] of the source
    enumerates them in insertion order. *)
Definition listMessagingSummaries (states : States) (now : Z)
  : list MessagingLimitSummary * States :=
  foldl (fun acc pid =>
           let '(summary, states1) := getMessagingSummaryForPhone (snd acc) pid now in
           (fst acc ++ [summary], states1))
        ([], states) (map fst (map_to_list states)).

(** [event.timestamp < since || event.timestamp > until], an absent bound
    being minus or plus infinity. *)
Definition outOfRange (since until : option Z) (e : SendEvent) : bool :=
  (match since with Some lo => timestamp e <? lo | None => false end)
  || (match until with Some hi => hi <? timestamp e | None => false end).

(** [optPhone] is [opts?.phoneId]; without it (or with the empty string)
    every number is selected, in the enumeration order of the map. *)
Definition listSendEvents (states : States) (optPhone : option string)
  (since until : option Z) : list SendEvent :=
  let selectedStates :=
    match whenTruthy optPhone with
    | Some pid =>
        match states !! pid with
        | Some s => [s]
        | None => []
        end
    | None => map snd (map_to_list states)
    end in
  let events :=
    flat_map (fun s => List.filter (fun e => negb (outOfRange since until e)) (sends s))
      selectedStates in
  sortDescending timestamp events.

(** Any call of the exported functions that touch the store. *)
Inductive TrackerCall :=
| CallEvaluate (pid recipient : string) (now : Z)
| CallRegister (pid recipient : string) (cat : ConversationCategory) (now : Z)
| CallSummary (pid : string) (now : Z)
| CallListSummaries (now : Z)
| CallSetTier (pid : string) (t : MessagingLimitTier).

Definition applyCall (states : States) (c : TrackerCall) : States :=
  match c with
  | CallEvaluate pid recipient now => snd (evaluateMessagingLimit states pid recipient now)
  | CallRegister pid recipient cat now => snd (registerSend states pid recipient cat now)
  | CallSummary pid now => snd (getMessagingSummaryForPhone states pid now)
  | CallListSummaries now => snd (listMessagingSummaries states now)
  | CallSetTier pid t => setMessagingTier states pid t
  end.

(** Whether the call registers a send for [pid]. *)
Definition registersFor (pid : string) (c : TrackerCall) : bool :=
  match c with
  | CallRegister pid' _ _ _ => String.eqb pid' pid
  | _ => false
  end.

(** [totalCostUsd] of a number; nothing before its first reference. *)
Definition totalCostOf (states : States) (pid : string) : Z :=
  match states !! pid with
  | Some s => totalCostUsd s
  | None => 0
  end.

End MessagingLimits.

(** ** state/marketing.ts *)

Module Marketing.

Inductive MarketingOptInStatus :=
| opted_in
| opted_out
| unknown.

Record MarketingContact := mkContact {
  waId : string;
  status : MarketingOptInStatus;
  source : option string;
  note : option string;
  updatedAt : Z
}.

Record MarketingEligibility := mkEligibility {
  el_waId : string;
  el_status : MarketingOptInStatus;
  el_allowed : bool;
  el_reason : string;
  el_contact : option MarketingContact
}.

Record MarketingSendRecord := mkSendRecord {
  id : string;
  phoneId : string;
  to : string;
  templateName : option string;
  languageCode : option string;
  category : TemplateCategory;
  sendTimestamp : Z;
  scheduledFor : option Z
}.

Record MarketingFrequencyEvaluation := mkFrequencyEvaluation {
  allowed : bool;
  reason : option string;
  windowMs : Z;
  sendsInWindow : nat;
  maxSends : Z
}.

Record MarketingConfigState := mkConfig {
  frequencyWindowMs : Z;
  maxSendsPerWindow : Z;
  requireOptIn : bool
}.

(** The module-level registries of marketing.ts. *)
Record Store := mkStore {
  contacts : gmap string MarketingContact;
  sends : list MarketingSendRecord;
  frequencyBuckets : gmap string (list MarketingSendRecord);
  config : MarketingConfigState
}.

Definition initialConfig : MarketingConfigState :=
  {| frequencyWindowMs := 24 * 60 * 60 * 1000;
     maxSendsPerWindow := 1;
     requireOptIn := true |}.

Definition initialStore : Store :=
  {| contacts := ∅; sends := []; frequencyBuckets := ∅; config := initialConfig |}.

Definition getFrequencyKey (pid recipient : string) : string :=
  pid +:+ "__" +:+ recipient.

Definition clampPositive (value fallback : Z) : Z :=
  if value <=? 0 then fallback else value.

Definition upsertMarketingContact
  (st : Store) (wa : string) (inStatus : option MarketingOptInStatus)
  (inSource inNote : option string) (now : Z) : MarketingContact * Store :=
  let existing := contacts st !! wa in
  let st' :=
    match nullish inStatus (status <$> existing) with
    | Some s => s
    | None => unknown
    end in
  let contact :=
    {| waId := wa; status := st'; updatedAt := now;
       source := nullish inSource (existing ≫= source);
       note := nullish inNote (existing ≫= note) |} in
  (contact,
   {| contacts := <[wa := contact]> (contacts st); sends := sends st;
      frequencyBuckets := frequencyBuckets st; config := config st |}).

Definition evaluateMarketingEligibility (st : Store) (wa : string)
  : MarketingEligibility :=
  match contacts st !! wa with
  | None =>
      {| el_waId := wa; el_status := unknown;
         el_allowed := negb (requireOptIn (config st));
         el_reason := if requireOptIn (config st)
                      then "marketing_opt_in_required"
                      else "no_marketing_opt_status__treated_as_allowed";
         el_contact := None |}
  | Some contact =>
      match status contact with
      | opted_out =>
          {| el_waId := wa; el_status := status contact; el_allowed := false;
             el_reason := "contact_opted_out_of_marketing_messages";
             el_contact := Some contact |}
      | opted_in =>
          {| el_waId := wa; el_status := status contact; el_allowed := true;
             el_reason := "contact_opted_in_for_marketing_messages";
             el_contact := Some contact |}
      | unknown =>
          {| el_waId := wa; el_status := status contact;
             el_allowed := negb (requireOptIn (config st));
             el_reason := if requireOptIn (config st)
                          then "marketing_opt_in_required"
                          else "contact_marketing_status_unknown__treated_as_allowed";
             el_contact := Some contact |}
      end
  end.

(** A patch of the configuration; [Math.floor] is the identity on the
    integers the embedding uses for [maxSendsPerWindow]. *)
Definition updateMarketingConfig (st : Store)
  (patchWindow patchMax : option Z) (patchRequireOptIn : option bool) : Store :=
  let cfg := config st in
  let cfg1 :=
    {| frequencyWindowMs :=
         match patchWindow with
         | Some w => clampPositive w (frequencyWindowMs cfg)
         | None => frequencyWindowMs cfg
         end;
       maxSendsPerWindow :=
         match patchMax with
         | Some m => Z.max 1 m
         | None => maxSendsPerWindow cfg
         end;
       requireOptIn :=
         match patchRequireOptIn with
         | Some b => b
         | None => requireOptIn cfg
         end |} in
  {| contacts := contacts st; sends := sends st;
     frequencyBuckets := frequencyBuckets st; config := cfg1 |}.

(** [s.scheduledFor ?? s.sendTimestamp] *)
Definition effectiveTime (r : MarketingSendRecord) : Z :=
  match scheduledFor r with
  | Some at_ => at_
  | None => sendTimestamp r
  end.

(** [(s) => (s.scheduledFor ?? s.sendTimestamp) >= windowStart] *)
Definition notBefore (windowStart : Z) (r : MarketingSendRecord) : bool :=
  windowStart <=? effectiveTime r.

(** [frequencyBuckets.get(key) ?? []] *)
Definition bucket (st : Store) (key : string) : list MarketingSendRecord :=
  match frequencyBuckets st !! key with
  | Some history => history
  | None => []
  end.

Definition evaluateMarketingFrequency (st : Store) (pid recipient : string) (now : Z)
  : MarketingFrequencyEvaluation :=
  let key := getFrequencyKey pid recipient in
  let windowStart := now - frequencyWindowMs (config st) in
  let history := bucket st key in
  let recent := List.filter (notBefore windowStart) history in
  let ok := Z.of_nat (length recent) <? maxSendsPerWindow (config st) in
  {| allowed := ok;
     reason := Some (if ok then "within_frequency_cap" else "marketing_frequency_cap_hit");
     windowMs := frequencyWindowMs (config st);
     sendsInWindow := length recent;
     maxSends := maxSendsPerWindow (config st) |}.

Record RegisterParams := mkRegisterParams {
  p_phoneId : string;
  p_to : string;
  p_templateName : option string;
  p_languageCode : option string;
  p_category : option TemplateCategory;
  p_sendAt : option Z
}.

(** [now] is [Date.now()] and [rnd] the six characters cut out of
    [Math.random().toString(36)]. *)
Definition registerMarketingSend (st : Store) (params : RegisterParams) (now : Z) (rnd : string)
  : MarketingSendRecord * Store :=
  let effectiveSend := match p_sendAt params with Some t => t | None => now end in
  let record :=
    {| id := "mkt_" +:+ pretty now +:+ "_" +:+ rnd;
       phoneId := p_phoneId params;
       to := p_to params;
       category := match p_category params with Some c => c | None => MARKETING end;
       sendTimestamp := now;
       templateName := p_templateName params;
       languageCode := p_languageCode params;
       scheduledFor := p_sendAt params |} in
  let ledger := capRing 500 (sends st ++ [record]) in
  let key := getFrequencyKey (p_phoneId params) (p_to params) in
  let existing := bucket st key ++ [record] in
  let cutoff := effectiveSend - frequencyWindowMs (config st) in
  let pruned := List.filter (notBefore cutoff) existing in
  (record,
   {| contacts := contacts st; sends := ledger;
      frequencyBuckets := <[key := pruned]> (frequencyBuckets st);
      config := config st |}).

(** *** The reading of the frequency policy in the specification: sends
    whose effective time lies inside [[now - window, now]]. *)
Definition insideWindow (now window : Z) (r : MarketingSendRecord) : bool :=
  (now - window <=? effectiveTime r) && (effectiveTime r <=? now).

Definition sendsInsideWindow (st : Store) (pid recipient : string) (now : Z) : nat :=
  length (List.filter (insideWindow now (frequencyWindowMs (config st)))
            (bucket st (getFrequencyKey pid recipient))).

(** *** Runs of the frequency cap

    A run is any sequence of evaluations and registrations.  The engine
    trusts its caller's ordering: a send is registered into a bucket only
    after an evaluation of that bucket returned allowed, no other send
    having been registered into it in between.  Pairs whose keys coincide
    share a bucket. *)
Inductive FrequencyOp :=
| FreqEvaluate (pid recipient : string) (now : Z)
| FreqRegister (params : RegisterParams) (now : Z) (rnd : string).

Definition paramsKey (params : RegisterParams) : string :=
  getFrequencyKey (p_phoneId params) (p_to params).

(** One call of the run, with the keys of the buckets currently allowed;
    [None] when a send is registered without an allowing evaluation. *)
Definition stepFrequencyOp (run : Store * list string) (op : FrequencyOp)
  : option (Store * list string) :=
  let '(st, lic) := run in
  match op with
  | FreqEvaluate pid recipient now =>
      Some (st,
            if allowed (evaluateMarketingFrequency st pid recipient now)
            then getFrequencyKey pid recipient :: lic
            else lic)
  | FreqRegister params now rnd =>
      if existsb (String.eqb (paramsKey params)) lic
      then Some (snd (registerMarketingSend st params now rnd),
                 List.filter (fun k => negb (String.eqb (paramsKey params) k)) lic)
      else None
  end.

Fixpoint runFrequencyOps (ops : list FrequencyOp) (run : Store * list string)
  : option (Store * list string) :=
  match ops with
  | [] => Some run
  | op :: rest =>
      match stepFrequencyOp run op with
      | Some run1 => runFrequencyOps rest run1
      | None => None
      end
  end.

(** The evaluation clock never runs backwards: starting at [t0], every
    evaluation is made no earlier than the one before it. *)
Fixpoint clockOrdered (t0 : Z) (ops : list FrequencyOp) : bool :=
  match ops with
  | [] => true
  | FreqEvaluate _ _ now :: rest => (t0 <=? now) && clockOrdered now rest
  | FreqRegister _ _ _ :: rest => clockOrdered t0 rest
  end.

(** The clock of the last evaluation, [t0] when there is none. *)
Fixpoint lastClock (t0 : Z) (ops : list FrequencyOp) : Z :=
  match ops with
  | [] => t0
  | FreqEvaluate _ _ now :: rest => lastClock now rest
  | FreqRegister _ _ _ :: rest => lastClock t0 rest
  end.

(** The number of records of a bucket that an evaluation at [now] counts. *)
Definition countedAt (st : Store) (now : Z) (key : string) : Z :=
  Z.of_nat (length (List.filter (notBefore (now - frequencyWindowMs (config st)))
                      (bucket st key))).

(** At time [now] no bucket holds more than [maxSendsPerWindow] records
    that the evaluation would count. *)
Definition capRespected (st : Store) (now : Z) : Prop :=
  ∀ key, countedAt st now key ≤ maxSendsPerWindow (config st).

(** The invariant of a run at evaluation clock [now]: the cap is
    respected and every allowed bucket still has room for one send. *)
Definition frequencyInvariant (now : Z) (run : Store * list string) : Prop :=
  capRespected (fst run) now
  ∧ Forall (fun key => countedAt (fst run) now key < maxSendsPerWindow (config (fst run)))
      (snd run).

(** *** Scenarios *)

Definition sendParams (pid recipient : string) (sendAt : option Z) : RegisterParams :=
  {| p_phoneId := pid; p_to := recipient; p_templateName := Some "spring_sale";
     p_languageCode := Some "en_US"; p_category := None; p_sendAt := sendAt |}.

(** One send from number [A] to [r], registered at clock 1000 and
    scheduled for 5000. *)
Definition scheduledStore : Store :=
  snd (registerMarketingSend initialStore (sendParams "A" "r" (Some 5000)) 1000 "k3x9qa").

(** Two requests to send from [A] to [r] within one day, the second
    refused, then one a day later. *)
Definition scenarioOps : list FrequencyOp :=
  [ FreqEvaluate "A" "r" 1000;
    FreqRegister (sendParams "A" "r" None) 1001 "aaaaaa";
    FreqEvaluate "A" "r" 2000;
    FreqEvaluate "A" "r" 90000000;
    FreqRegister (sendParams "A" "r" None) 90000001 "cccccc" ].

(** The sends of a pair that the ledger holds inside [[now - window, now]]. *)
Definition ledgerInsideWindow (st : Store) (pid recipient : string) (now : Z) : nat :=
  length (List.filter
            (fun r => String.eqb (phoneId r) pid && String.eqb (to r) recipient
                      && insideWindow now (frequencyWindowMs (config st)) r)
            (sends st)).

(** With a cap of three per day: two sends, a send scheduled ten days
    ahead, then two more sends, each after an evaluation. *)
Definition capOfThree : Store := updateMarketingConfig initialStore None (Some 3) None.

Definition evictionOps : list FrequencyOp :=
  [ FreqEvaluate "A" "r" 1000;
    FreqRegister (sendParams "A" "r" None) 1000 "aaaaaa";
    FreqEvaluate "A" "r" 1001;
    FreqRegister (sendParams "A" "r" None) 1001 "bbbbbb";
    FreqEvaluate "A" "r" 1100;
    FreqRegister (sendParams "A" "r" (Some 864001000)) 1100 "cccccc";
    FreqEvaluate "A" "r" 1200;
    FreqRegister (sendParams "A" "r" None) 1200 "dddddd";
    FreqEvaluate "A" "r" 1300;
    FreqRegister (sendParams "A" "r" None) 1300 "eeeeee" ].

(** The store after one send from [A] to [r] at clock 1001. *)
Definition sentOnceStore : Store :=
  snd (registerMarketingSend initialStore (sendParams "A" "r" None) 1001 "aaaaaa").

(** *** Listings, conversions and configuration patches *)

Definition listMarketingContacts (st : Store) : list MarketingContact :=
  map snd (map_to_list (contacts st)).

(** [[...sends].sort((a, b) => b.sendTimestamp - a.sendTimestamp)] *)
Definition listMarketingSends (st : Store) : list MarketingSendRecord :=
  sortDescending sendTimestamp (sends st).

Definition getMarketingConfig (st : Store) : MarketingConfigState := config st.

(** [value] and [metadata] are carried as given; the store never
    computes with them. *)
Record MarketingConversionEvent := mkConversion {
  conv_id : string;
  conv_waId : string;
  conv_sendId : option string;
  conv_event : string;
  conv_value : option Z;
  conv_currency : option string;
  conv_metadata : option (list (string * string));
  conv_createdAt : Z
}.

Record ConversionParams := mkConversionParams {
  cp_waId : string;
  cp_sendId : option string;
  cp_event : string;
  cp_value : option Z;
  cp_currency : option string;
  cp_metadata : option (list (string * string))
}.

(** The module-level [conversions] array is passed in and returned;
    [idClock] and [now] are the two readings of [Date.now()]. *)
Definition recordMarketingConversion (conversions : list MarketingConversionEvent)
  (params : ConversionParams) (idClock : Z) (rnd : string) (now : Z)
  : MarketingConversionEvent * list MarketingConversionEvent :=
  let ev :=
    {| conv_id := "conv_" +:+ pretty idClock +:+ "_" +:+ rnd;
       conv_waId := cp_waId params;
       conv_event := cp_event params;
       conv_createdAt := now;
       conv_sendId := cp_sendId params;
       conv_value := cp_value params;
       conv_currency := cp_currency params;
       conv_metadata := cp_metadata params |} in
  (ev, capRing 500 (conversions ++ [ev])).

Definition listMarketingConversions (conversions : list MarketingConversionEvent)
  : list MarketingConversionEvent :=
  sortDescending conv_createdAt conversions.

(** The body of [PUT /config]: the numeric and boolean fields of a patch. *)
Record ConfigPatch := mkConfigPatch {
  patch_frequencyWindowMs : option Z;
  patch_maxSendsPerWindow : option Z;
  patch_requireOptIn : option bool
}.

Definition applyConfigPatch (st : Store) (patch : ConfigPatch) : Store :=
  updateMarketingConfig st (patch_frequencyWindowMs patch) (patch_maxSendsPerWindow patch)
    (patch_requireOptIn patch).

End Marketing.

(** ** state/policy.ts *)

Module Policy.

(** [status] is kept as the string the route hands over: [PUT
    /contacts/:waId] passes the field of the request body unchecked. *)
Record ContactPolicy := mkContactPolicy {
  waId : string;
  label : option string;
  status : string;
  note : option string;
  updatedAt : Z
}.

Record PolicyEvaluation := mkPolicyEvaluation {
  ev_waId : string;
  ev_status : string;
  allowed : bool;
  reason : option string;
  contact : option ContactPolicy
}.

Abbreviation Contacts := (gmap string ContactPolicy).

Definition getContactPolicy (contacts : Contacts) (wa : string) : option ContactPolicy :=
  contacts !! wa.

Definition upsertContactPolicy (contacts : Contacts) (wa : string)
  (inLabel inStatus inNote : option string) (now : Z) : ContactPolicy * Contacts :=
  let existing := contacts !! wa in
  let st :=
    match orElse (orElse inStatus (status <$> existing)) (Some "unknown") with
    | Some x => x
    | None => "unknown"
    end in
  let policy :=
    {| waId := wa; status := st; updatedAt := now;
       label := nullish inLabel (existing ≫= label);
       note := nullish inNote (existing ≫= note) |} in
  (policy, <[wa := policy]> contacts).

Definition evaluatePolicyForWaId (contacts : Contacts) (wa : string) : PolicyEvaluation :=
  match contacts !! wa with
  | None =>
      {| ev_waId := wa; ev_status := "unknown"; allowed := true;
         reason := Some "no_explicit_policy"; contact := None |}
  | Some c =>
      if String.eqb (status c) "blocked" then
        {| ev_waId := wa; ev_status := status c; allowed := false;
           reason := Some "contact_marked_as_blocked_in_sandbox_policy__check_EULA_and_opt_in_requirements";
           contact := Some c |}
      else if String.eqb (status c) "allowed" then
        {| ev_waId := wa; ev_status := status c; allowed := true;
           reason := Some "contact_marked_as_allowed_in_sandbox_policy";
           contact := Some c |}
      else
        {| ev_waId := wa; ev_status := status c; allowed := true;
           reason := Some "contact_policy_unknown__treat_as_allowed_but_review_for_EULA";
           contact := Some c |}
  end.

End Policy.

(** ** config.ts *)

Module Config.

(** The runtime configuration read by the webhook resolver; the [auth]
    block of the source plays no part in routing and is left out. *)
Record RuntimeConfig := mkRuntimeConfig {
  verifyToken : string;
  targetWebhookUrl : option string;
  webhookAppSecret : option string
}.

(** The [auth] block. *)
Inductive AuthMode := mode_none | mode_jwt.

Record AuthConfig := mkAuthConfig {
  mode : AuthMode;
  jwtSecret : string;
  jwtIssuer : string;
  jwtAudience : string
}.

(** The whole [runtimeConfig] object: the fields the resolver reads and
    the [auth] block. *)
Record RuntimeState := mkRuntimeState {
  settings : RuntimeConfig;
  auth : AuthConfig
}.

(** [envSecret] is [process.env.WHATSAPP_APP_SECRET] when the module is loaded. *)
Definition initialState (envSecret : option string) : RuntimeState :=
  {| settings :=
       {| verifyToken := "sandbox-verify-token";
          targetWebhookUrl := None;
          webhookAppSecret := envSecret |};
     auth :=
       {| mode := mode_none; jwtSecret := "sandbox-secret";
          jwtIssuer := "waba-sandbox"; jwtAudience := "sandbox-client" |} |}.

(** The fields of a patch as [updateConfig] tells them apart: a string
    field is [None] when it is absent or not a string, [auth_mode] is
    [None] unless it is one of the two modes. *)
Record AuthPatch := mkAuthPatch {
  auth_mode : option AuthMode;
  auth_jwtSecret : option string;
  auth_jwtIssuer : option string;
  auth_jwtAudience : option string
}.

Record Patch := mkPatch {
  patch_verifyToken : option string;
  patch_targetWebhookUrl : Nullable string;
  patch_webhookAppSecret : Nullable string;
  patch_auth : option AuthPatch
}.

(** [typeof v === "string" && v ? v : current] *)
Definition keepUnlessTruthy (given : option string) (current : string) : string :=
  match whenTruthy given with
  | Some v => v
  | None => current
  end.

Definition updateConfig (st : RuntimeState) (patch : Patch) : RuntimeState :=
  {| settings :=
       {| verifyToken := default (verifyToken (settings st)) (patch_verifyToken patch);
          targetWebhookUrl :=
            patchNullable (patch_targetWebhookUrl patch) (targetWebhookUrl (settings st));
          webhookAppSecret :=
            patchNullable (patch_webhookAppSecret patch) (webhookAppSecret (settings st)) |};
     auth :=
       match patch_auth patch with
       | None => auth st
       | Some authPatch =>
           {| mode := default (mode (auth st)) (auth_mode authPatch);
              jwtSecret := keepUnlessTruthy (auth_jwtSecret authPatch) (jwtSecret (auth st));
              jwtIssuer := keepUnlessTruthy (auth_jwtIssuer authPatch) (jwtIssuer (auth st));
              jwtAudience :=
                keepUnlessTruthy (auth_jwtAudience authPatch) (jwtAudience (auth st)) |}
       end |}.

End Config.

(** ** state/webhookRouting.ts *)

Module WebhookRouting.

Record WabaOverrideConfig := mkWaba {
  wabaId : string;
  overrideCallbackUri : option string;
  verifyToken : option string
}.

Record PhoneWebhookConfiguration := mkPhoneWebhook {
  pw_overrideCallbackUri : option string;
  pw_verifyToken : option string
}.

Record ConversationalCommand := mkCommand {
  command_name : string;
  command_description : string
}.

Record ConversationalAutomationConfig := mkAutomation {
  enable_welcome_message : option bool;
  commands : option (list ConversationalCommand);
  prompts : option (list string)
}.

(** The rating ["UNKNOWN"] is [QUALITY_UNKNOWN], apart from the category
    of that name. *)
Inductive PhoneQualityRating := GREEN | YELLOW | RED | QUALITY_UNKNOWN | NA.

Inductive PhoneVerificationStatus := UNVERIFIED | PENDING | VERIFIED.

Inductive PhoneAccountMode := SANDBOX | LIVE.

Inductive CodeMethod := SMS | VOICE.

Record PendingPhoneVerificationCode := mkPending {
  code : string;
  method : CodeMethod;
  language : string;
  requestedAt : Z
}.

Record PhoneNumberConfig := mkPhone {
  id : string;
  displayPhoneNumber : string;
  phone_wabaId : option string;
  webhookConfiguration : option PhoneWebhookConfiguration;
  verifiedName : option string;
  qualityRating : option PhoneQualityRating;
  verificationStatus : PhoneVerificationStatus;
  pendingVerificationCode : option PendingPhoneVerificationCode;
  twoStepVerificationPin : option string;
  accountMode : option PhoneAccountMode;
  lastOnboardedTime : option Z;
  identityKeyCheckEnabled : option bool;
  registered : option bool;
  dataLocalizationRegion : option string;
  registerRequests : option (list Z);
  deregisterRequests : option (list Z);
  conversationalAutomation : option ConversationalAutomationConfig
}.

Abbreviation Wabas := (gmap string WabaOverrideConfig).
Abbreviation Phones := (gmap string PhoneNumberConfig).

Definition REQUEST_WINDOW_MS : Z := 72 * 60 * 60 * 1000.
Definition REQUEST_LIMIT : nat := 10.

(** [arr ? [...arr] : []] *)
Definition ensureArray (arr : option (list Z)) : list Z :=
  match arr with
  | Some l => l
  | None => []
  end.

Definition pruneWindow (timestamps : list Z) (now : Z) : list Z :=
  List.filter (fun ts => now - REQUEST_WINDOW_MS <=? ts) timestamps.

(** [phoneNumbers.set(phone.id, phone)] after the object read under
    [key] was mutated in place. *)
Definition storePhone (key : string) (p : PhoneNumberConfig) (phones : Phones) : Phones :=
  <[id p := p]> (<[key := p]> phones).

(** A field set to the empty string is deleted, any other given value is stored. *)
Definition patchField (given current : option string) : option string :=
  match given with
  | Some v => if truthy (Some v) then Some v else None
  | None => current
  end.

Definition upsertWaba (wabas : Wabas) (wid : string) (uri token : option string)
  : WabaOverrideConfig * Wabas :=
  let existing :=
    match wabas !! wid with
    | Some w => w
    | None => {| wabaId := wid; overrideCallbackUri := None; verifyToken := None |}
    end in
  let updated :=
    {| wabaId := wabaId existing;
       overrideCallbackUri := patchField uri (overrideCallbackUri existing);
       verifyToken := patchField token (verifyToken existing) |} in
  (updated, <[wabaId updated := updated]> (<[wid := updated]> wabas)).

Record UpsertPhoneInput := mkUpsertPhoneInput {
  in_id : string;
  in_displayPhoneNumber : string;
  in_wabaId : option string;
  in_webhookConfiguration : option PhoneWebhookConfiguration;
  in_verifiedName : option string;
  in_qualityRating : option PhoneQualityRating;
  in_accountMode : option PhoneAccountMode
}.

(** [{ ...a, ...b }] on two webhook configurations.  [None] in a field
    of [b] stands for a property that [b] leaves out, which keeps the
    stored value; an object that carries the property with the value
    [undefined] would clear it, and is not an input of this model.  The
    properties below speak of an override that the input gives. *)
Definition mergeWebhook (a : option PhoneWebhookConfiguration) (b : PhoneWebhookConfiguration)
  : PhoneWebhookConfiguration :=
  {| pw_overrideCallbackUri :=
       nullish (pw_overrideCallbackUri b) (a ≫= pw_overrideCallbackUri);
     pw_verifyToken := nullish (pw_verifyToken b) (a ≫= pw_verifyToken) |}.

Definition freshPhone (input : UpsertPhoneInput) (now : Z) : PhoneNumberConfig :=
  {| id := in_id input;
     displayPhoneNumber := in_displayPhoneNumber input;
     phone_wabaId := None;
     webhookConfiguration := None;
     verifiedName := None;
     qualityRating := Some NA;
     verificationStatus := UNVERIFIED;
     pendingVerificationCode := None;
     twoStepVerificationPin := None;
     accountMode := Some SANDBOX;
     lastOnboardedTime := Some now;
     identityKeyCheckEnabled := Some false;
     registered := Some false;
     dataLocalizationRegion := None;
     registerRequests := Some [];
     deregisterRequests := Some [];
     conversationalAutomation :=
       Some {| enable_welcome_message := Some false;
               commands := Some [];
               prompts := Some [] |} |}.

Definition upsertPhoneNumber (phones : Phones) (input : UpsertPhoneInput) (now : Z)
  : PhoneNumberConfig * Phones :=
  let phone :=
    match phones !! in_id input with
    | Some p => p
    | None => freshPhone input now
    end in
  let updated :=
    {| id := id phone;
       displayPhoneNumber := in_displayPhoneNumber input;
       phone_wabaId := nullish (in_wabaId input) (phone_wabaId phone);
       webhookConfiguration :=
         match in_webhookConfiguration input with
         | Some w => Some (mergeWebhook (webhookConfiguration phone) w)
         | None => webhookConfiguration phone
         end;
       verifiedName := nullish (in_verifiedName input) (verifiedName phone);
       qualityRating := nullish (in_qualityRating input) (qualityRating phone);
       verificationStatus := verificationStatus phone;
       pendingVerificationCode := pendingVerificationCode phone;
       twoStepVerificationPin := twoStepVerificationPin phone;
       accountMode := nullish (in_accountMode input) (accountMode phone);
       lastOnboardedTime := lastOnboardedTime phone;
       identityKeyCheckEnabled := identityKeyCheckEnabled phone;
       registered := registered phone;
       dataLocalizationRegion := dataLocalizationRegion phone;
       registerRequests := registerRequests phone;
       deregisterRequests := deregisterRequests phone;
       conversationalAutomation := conversationalAutomation phone |} in
  (updated, storePhone (in_id input) updated phones).

(** The phone with its verification status and pending code replaced. *)
Definition withVerification (p : PhoneNumberConfig)
  (st : PhoneVerificationStatus) (pending : option PendingPhoneVerificationCode)
  : PhoneNumberConfig :=
  {| id := id p;
     displayPhoneNumber := displayPhoneNumber p;
     phone_wabaId := phone_wabaId p;
     webhookConfiguration := webhookConfiguration p;
     verifiedName := verifiedName p;
     qualityRating := qualityRating p;
     verificationStatus := st;
     pendingVerificationCode := pending;
     twoStepVerificationPin := twoStepVerificationPin p;
     accountMode := accountMode p;
     lastOnboardedTime := lastOnboardedTime p;
     identityKeyCheckEnabled := identityKeyCheckEnabled p;
     registered := registered p;
     dataLocalizationRegion := dataLocalizationRegion p;
     registerRequests := registerRequests p;
     deregisterRequests := deregisterRequests p;
     conversationalAutomation := conversationalAutomation p |}.

(** [generated] is the six-digit code drawn from [Math.random()], used
    when no [codeOverride] is given. *)
Definition requestPhoneVerificationCode
  (phones : Phones) (pid : string) (m : CodeMethod) (lang : string)
  (codeOverride : option string) (generated : string) (now : Z)
  : option PendingPhoneVerificationCode * Phones :=
  match phones !! pid with
  | None => (None, phones)
  | Some phone =>
      let pending :=
        {| code := match codeOverride with Some c => c | None => generated end;
           method := m; language := lang; requestedAt := now |} in
      (Some pending, storePhone pid (withVerification phone PENDING (Some pending)) phones)
  end.

Definition verifyPhoneNumberCode (phones : Phones) (pid given : string)
  : bool * Phones :=
  match phones !! pid with
  | None => (false, phones)
  | Some phone =>
      match pendingVerificationCode phone with
      | None => (false, phones)
      | Some pending =>
          if negb (String.eqb (code pending) given)
          then (false, phones)
          else (true, storePhone pid (withVerification phone VERIFIED None) phones)
      end
  end.

Inductive TargetSource := source_phone | source_waba | source_app.

Record ResolvedWebhookTarget := mkTarget {
  url : string;
  source : TargetSource;
  target_phoneId : option string;
  target_wabaId : option string;
  appSecret : option string
}.

(** [phone.webhookConfiguration?.overrideCallbackUri], when truthy. *)
Definition phoneOverrideUri (p : PhoneNumberConfig) : option string :=
  match webhookConfiguration p with
  | Some w => whenTruthy (pw_overrideCallbackUri w)
  | None => None
  end.

(** [wabas.get(wid)?.overrideCallbackUri], when truthy, with the WABA. *)
Definition wabaOverride (wabas : Wabas) (wid : string)
  : option (WabaOverrideConfig * string) :=
  match wabas !! wid with
  | Some waba =>
      match whenTruthy (overrideCallbackUri waba) with
      | Some uri => Some (waba, uri)
      | None => None
      end
  | None => None
  end.

(** The block guarded by [if (opts.phoneNumberId)]. *)
Definition resolveViaPhone (wabas : Wabas) (phones : Phones)
  (phoneNumberId : option string) : option ResolvedWebhookTarget :=
  match whenTruthy phoneNumberId with
  | None => None
  | Some pid =>
      match phones !! pid with
      | None => None
      | Some phone =>
          match phoneOverrideUri phone with
          | Some uri =>
              Some {| url := uri; source := source_phone;
                      target_phoneId := Some (id phone);
                      target_wabaId := whenTruthy (phone_wabaId phone);
                      appSecret := None |}
          | None =>
              match whenTruthy (phone_wabaId phone) with
              | None => None
              | Some wid =>
                  match wabaOverride wabas wid with
                  | Some (_, uri) =>
                      Some {| url := uri; source := source_waba;
                              target_phoneId := Some (id phone);
                              target_wabaId := whenTruthy (phone_wabaId phone);
                              appSecret := None |}
                  | None => None
                  end
              end
          end
      end
  end.

(** The block guarded by [if (opts.wabaId)]. *)
Definition resolveViaWaba (wabas : Wabas) (optWabaId : option string)
  : option ResolvedWebhookTarget :=
  match whenTruthy optWabaId with
  | None => None
  | Some wid =>
      match wabaOverride wabas wid with
      | Some (waba, uri) =>
          Some {| url := uri; source := source_waba;
                  target_phoneId := None;
                  target_wabaId := Some (wabaId waba);
                  appSecret := None |}
      | None => None
      end
  end.

(** The block guarded by [if (config.targetWebhookUrl)]. *)
Definition resolveViaApp (cfg : Config.RuntimeConfig) : option ResolvedWebhookTarget :=
  match whenTruthy (Config.targetWebhookUrl cfg) with
  | Some uri =>
      Some {| url := uri; source := source_app;
              target_phoneId := None; target_wabaId := None;
              appSecret := whenTruthy (Config.webhookAppSecret cfg) |}
  | None => None
  end.

Definition resolveWebhookTarget
  (cfg : Config.RuntimeConfig) (wabas : Wabas) (phones : Phones)
  (phoneNumberId optWabaId : option string) : option ResolvedWebhookTarget :=
  match resolveViaPhone wabas phones phoneNumberId with
  | Some result => Some result
  | None =>
      match resolveViaWaba wabas optWabaId with
      | Some result => Some result
      | None => resolveViaApp cfg
      end
  end.

(** *** The precedence of the resolver, tier by tier *)

Inductive Tier :=
| TierPhone
| TierPhoneWaba
| TierRequestWaba
| TierGlobal.

Definition sourceOfTier (t : Tier) : TargetSource :=
  match t with
  | TierPhone => source_phone
  | TierPhoneWaba => source_waba
  | TierRequestWaba => source_waba
  | TierGlobal => source_app
  end.

(** (1) the referenced phone's own override callback, if set. *)
Definition tierPhone (phones : Phones) (phoneNumberId : option string) : option string :=
  match whenTruthy phoneNumberId with
  | Some pid =>
      match phones !! pid with
      | Some phone => phoneOverrideUri phone
      | None => None
      end
  | None => None
  end.

(** (2) if the phone belongs to a WABA, that WABA's override callback. *)
Definition tierPhoneWaba (wabas : Wabas) (phones : Phones) (phoneNumberId : option string)
  : option string :=
  match whenTruthy phoneNumberId with
  | Some pid =>
      match phones !! pid with
      | Some phone =>
          match whenTruthy (phone_wabaId phone) with
          | Some wid => snd <$> wabaOverride wabas wid
          | None => None
          end
      | None => None
      end
  | None => None
  end.

(** (3) the override callback of the WABA named in the request. *)
Definition tierRequestWaba (wabas : Wabas) (optWabaId : option string) : option string :=
  match whenTruthy optWabaId with
  | Some wid => snd <$> wabaOverride wabas wid
  | None => None
  end.

(** (3) as the specification words it: the WABA override callback if only
    a WABA id was given (no phone). *)
Definition tierWabaOnly (wabas : Wabas) (phoneNumberId optWabaId : option string)
  : option string :=
  if truthy phoneNumberId then None else tierRequestWaba wabas optWabaId.

(** (4) the global default target URL. *)
Definition tierGlobal (cfg : Config.RuntimeConfig) : option string :=
  whenTruthy (Config.targetWebhookUrl cfg).

(** First match wins. *)
Fixpoint firstAnswer (tiers : list (Tier * option string)) : option (Tier * string) :=
  match tiers with
  | [] => None
  | (t, Some u) :: _ => Some (t, u)
  | (_, None) :: rest => firstAnswer rest
  end.

(** The precedence as the specification states it. *)
Definition precedenceAsSpecified
  (cfg : Config.RuntimeConfig) (wabas : Wabas) (phones : Phones)
  (phoneNumberId optWabaId : option string) : list (Tier * option string) :=
  [ (TierPhone, tierPhone phones phoneNumberId);
    (TierPhoneWaba, tierPhoneWaba wabas phones phoneNumberId);
    (TierRequestWaba, tierWabaOnly wabas phoneNumberId optWabaId);
    (TierGlobal, tierGlobal cfg) ].

(** The precedence with tier (3) open to every request that names a WABA. *)
Definition precedenceOfResolver
  (cfg : Config.RuntimeConfig) (wabas : Wabas) (phones : Phones)
  (phoneNumberId optWabaId : option string) : list (Tier * option string) :=
  [ (TierPhone, tierPhone phones phoneNumberId);
    (TierPhoneWaba, tierPhoneWaba wabas phones phoneNumberId);
    (TierRequestWaba, tierRequestWaba wabas optWabaId);
    (TierGlobal, tierGlobal cfg) ].

(** What a caller observes of a resolved target. *)
Definition targetView (t : ResolvedWebhookTarget)
  : string * TargetSource * option string :=
  (url t, source t, appSecret t).

(** What the tier that answered is expected to produce. *)
Definition answerView (cfg : Config.RuntimeConfig) (a : Tier * string)
  : string * TargetSource * option string :=
  (snd a, sourceOfTier (fst a),
   match fst a with
   | TierGlobal => whenTruthy (Config.webhookAppSecret cfg)
   | _ => None
   end).

(** *** Registration and deregistration *)

Inductive RegisterError := not_found | rate_limited.

Inductive RegisterResult :=
| RegOk (phone : PhoneNumberConfig)
| RegFail (error : RegisterError) (retryAfterMs : option Z) (attemptsInWindow : option nat).

Definition isOk (r : RegisterResult) : bool :=
  match r with
  | RegOk _ => true
  | RegFail _ _ _ => false
  end.

(** [Math.min(...xs)]; [None] stands for the [Infinity] of an empty list. *)
Definition minOf (xs : list Z) : option Z :=
  match xs with
  | [] => None
  | x :: rest => Some (fold_left Z.min rest x)
  end.

Definition upperAscii (c : Ascii.ascii) : Ascii.ascii :=
  let n := Ascii.nat_of_ascii c in
  if ((97 <=? n) && (n <=? 122))%nat then Ascii.ascii_of_nat (n - 32) else c.

(** [s.toUpperCase()] on a string of ASCII characters, as region codes
    are: the letters a to z are raised and every other character is
    kept.  The case mapping of characters outside ASCII is not modelled;
    what is stated about an upper-cased region is stated for ASCII
    strings. *)
Fixpoint toUpperCase (s : string) : string :=
  match s with
  | EmptyString => EmptyString
  | String c rest => String (upperAscii c) (toUpperCase rest)
  end.

(** Every character of [s] is an ASCII character. *)
Definition isAscii (s : string) : bool :=
  forallb (fun c => (Ascii.nat_of_ascii c <? 128)%nat) (String.list_ascii_of_string s).

Definition withRegisterAttempts (p : PhoneNumberConfig) (attempts : list Z)
  : PhoneNumberConfig :=
  {| id := id p;
     displayPhoneNumber := displayPhoneNumber p;
     phone_wabaId := phone_wabaId p;
     webhookConfiguration := webhookConfiguration p;
     verifiedName := verifiedName p;
     qualityRating := qualityRating p;
     verificationStatus := verificationStatus p;
     pendingVerificationCode := pendingVerificationCode p;
     twoStepVerificationPin := twoStepVerificationPin p;
     accountMode := accountMode p;
     lastOnboardedTime := lastOnboardedTime p;
     identityKeyCheckEnabled := identityKeyCheckEnabled p;
     registered := registered p;
     dataLocalizationRegion := dataLocalizationRegion p;
     registerRequests := Some attempts;
     deregisterRequests := deregisterRequests p;
     conversationalAutomation := conversationalAutomation p |}.

Definition withDeregisterAttempts (p : PhoneNumberConfig) (attempts : list Z)
  : PhoneNumberConfig :=
  {| id := id p;
     displayPhoneNumber := displayPhoneNumber p;
     phone_wabaId := phone_wabaId p;
     webhookConfiguration := webhookConfiguration p;
     verifiedName := verifiedName p;
     qualityRating := qualityRating p;
     verificationStatus := verificationStatus p;
     pendingVerificationCode := pendingVerificationCode p;
     twoStepVerificationPin := twoStepVerificationPin p;
     accountMode := accountMode p;
     lastOnboardedTime := lastOnboardedTime p;
     identityKeyCheckEnabled := identityKeyCheckEnabled p;
     registered := registered p;
     dataLocalizationRegion := dataLocalizationRegion p;
     registerRequests := registerRequests p;
     deregisterRequests := Some attempts;
     conversationalAutomation := conversationalAutomation p |}.

(** The phone with its PIN, registered flag and region replaced. *)
Definition withRegistration (p : PhoneNumberConfig)
  (pin : option string) (flag : bool) (region : option string) : PhoneNumberConfig :=
  {| id := id p;
     displayPhoneNumber := displayPhoneNumber p;
     phone_wabaId := phone_wabaId p;
     webhookConfiguration := webhookConfiguration p;
     verifiedName := verifiedName p;
     qualityRating := qualityRating p;
     verificationStatus := verificationStatus p;
     pendingVerificationCode := pendingVerificationCode p;
     twoStepVerificationPin := pin;
     accountMode := accountMode p;
     lastOnboardedTime := lastOnboardedTime p;
     identityKeyCheckEnabled := identityKeyCheckEnabled p;
     registered := Some flag;
     dataLocalizationRegion := region;
     registerRequests := registerRequests p;
     deregisterRequests := deregisterRequests p;
     conversationalAutomation := conversationalAutomation p |}.

Definition registerPhoneNumber
  (phones : Phones) (pid pin : string) (region : option string) (now : Z)
  : RegisterResult * Phones :=
  match phones !! pid with
  | None => (RegFail not_found None None, phones)
  | Some phone =>
      let attempts := pruneWindow (ensureArray (registerRequests phone)) now in
      if (REQUEST_LIMIT <=? length attempts)%nat then
        let oldest := minOf attempts in
        let phone1 := withRegisterAttempts phone attempts in
        (RegFail rate_limited
           ((fun o => Z.max 0 (o + REQUEST_WINDOW_MS - now)) <$> oldest)
           (Some (length attempts)),
         storePhone pid phone1 phones)
      else
        let phone1 :=
          withRegistration
            (withRegisterAttempts phone (attempts ++ [now]))
            (Some pin) true
            (toUpperCase <$> whenTruthy region) in
        (RegOk phone1, storePhone pid phone1 phones)
  end.

Definition deregisterPhoneNumber (phones : Phones) (pid : string) (now : Z)
  : RegisterResult * Phones :=
  match phones !! pid with
  | None => (RegFail not_found None None, phones)
  | Some phone =>
      let attempts := pruneWindow (ensureArray (deregisterRequests phone)) now in
      if (REQUEST_LIMIT <=? length attempts)%nat then
        let oldest := minOf attempts in
        let phone1 := withDeregisterAttempts phone attempts in
        (RegFail rate_limited
           ((fun o => Z.max 0 (o + REQUEST_WINDOW_MS - now)) <$> oldest)
           (Some (length attempts)),
         storePhone pid phone1 phones)
      else
        let phone1 :=
          withRegistration
            (withDeregisterAttempts phone (attempts ++ [now]))
            (twoStepVerificationPin phone) false None in
        (RegOk phone1, storePhone pid phone1 phones)
  end.

(** *** Runs of register and deregister calls on one number *)

Inductive PhoneOp :=
| OpRegister (pin : string) (region : option string) (now : Z)
| OpDeregister (now : Z).

Definition opTime (op : PhoneOp) : Z :=
  match op with
  | OpRegister _ _ now => now
  | OpDeregister now => now
  end.

Definition isRegister (op : PhoneOp) : bool :=
  match op with
  | OpRegister _ _ _ => true
  | OpDeregister _ => false
  end.

Definition applyPhoneOp (pid : string) (phones : Phones) (op : PhoneOp)
  : RegisterResult * Phones :=
  match op with
  | OpRegister pin region now => registerPhoneNumber phones pid pin region now
  | OpDeregister now => deregisterPhoneNumber phones pid now
  end.

(** The calls in order, each paired with what it returned, and the final store. *)
Fixpoint runPhoneOps (pid : string) (ops : list PhoneOp) (phones : Phones)
  : list (PhoneOp * RegisterResult) * Phones :=
  match ops with
  | [] => ([], phones)
  | op :: rest =>
      let '(r, phones1) := applyPhoneOp pid phones op in
      let '(log, phones2) := runPhoneOps pid rest phones1 in
      ((op, r) :: log, phones2)
  end.

(** The clock readings of the calls never decrease, starting at [t0]. *)
Fixpoint timeOrdered (t0 : Z) (ops : list PhoneOp) : bool :=
  match ops with
  | [] => true
  | op :: rest => (t0 <=? opTime op) && timeOrdered (opTime op) rest
  end.

(** The clock reading of the last call, [t0] when there is none. *)
Definition lastTime (t0 : Z) (ops : list PhoneOp) : Z :=
  fold_left (fun _ op => opTime op) ops t0.

(** Times of the successful calls of one kind, in the order they were made. *)
Definition successTimes (registerKind : bool) (log : list (PhoneOp * RegisterResult))
  : list Z :=
  map (fun e => opTime (fst e))
    (List.filter (fun e => Bool.eqb (isRegister (fst e)) registerKind && isOk (snd e)) log).

(** [t] lies inside the window [[from, from + 72h]]. *)
Definition insideWindowFrom (from t : Z) : bool :=
  (from <=? t) && (t <=? from + REQUEST_WINDOW_MS).

(** Times of the successful calls of one kind that fall inside the
    window [[from, from + 72h]]. *)
Definition successesInWindow (registerKind : bool) (from : Z)
  (log : list (PhoneOp * RegisterResult)) : list Z :=
  List.filter (insideWindowFrom from) (successTimes registerKind log).

(** What both operations do to their own attempt sequence: prune it to
    the window, refuse when ten attempts remain, record the call otherwise. *)
Definition throttle (attempts : list Z) (now : Z) : bool * list Z :=
  let kept := pruneWindow attempts now in
  if (REQUEST_LIMIT <=? length kept)%nat then (false, kept) else (true, kept ++ [now]).

(** The attempt sequence of one kind of operation. *)
Definition attemptsOf (registerKind : bool) (p : PhoneNumberConfig) : list Z :=
  ensureArray (if registerKind then registerRequests p else deregisterRequests p).

(** The attempts recorded so far lie in the past and no window of 72h
    holds more than ten of them. *)
Definition attemptsBounded (attempts : list Z) (t0 : Z) : Prop :=
  Forall (fun a => a ≤ t0) attempts
  ∧ ∀ from, (length (List.filter (insideWindowFrom from) attempts) ≤ REQUEST_LIMIT)%nat.

(** *** Scenarios *)

Definition scenarioConfig : Config.RuntimeConfig :=
  {| Config.verifyToken := "sandbox-verify-token";
     Config.targetWebhookUrl := Some "https://g";
     Config.webhookAppSecret := Some "app-secret" |}.

Definition scenarioWabas : Wabas :=
  snd (upsertWaba ∅ "W" (Some "https://w") None).

(** Phone [P] of WABA [W] with its own override, and phone [Q] with no
    override and no WABA. *)
Definition scenarioPhones : Phones :=
  let phones1 :=
    snd (upsertPhoneNumber ∅
           {| in_id := "P"; in_displayPhoneNumber := "+55 11 90000-0001";
              in_wabaId := Some "W";
              in_webhookConfiguration :=
                Some {| pw_overrideCallbackUri := Some "https://p";
                        pw_verifyToken := None |};
              in_verifiedName := None; in_qualityRating := None;
              in_accountMode := None |} 1) in
  snd (upsertPhoneNumber phones1
         {| in_id := "Q"; in_displayPhoneNumber := "+55 11 90000-0002";
            in_wabaId := None; in_webhookConfiguration := None;
            in_verifiedName := None; in_qualityRating := None;
            in_accountMode := None |} 2).

Definition hourMs : Z := 60 * 60 * 1000.

(** Ten registrations of [Q], one per hour, with a deregistration in
    between, and the eleventh registration an hour later. *)
Definition tenRegistrations : list PhoneOp :=
  map (fun k => OpRegister "123456" (Some "br") (Z.of_nat k * hourMs)) (seq 1 5)
  ++ [OpDeregister (5 * hourMs)]
  ++ map (fun k => OpRegister "123456" None (Z.of_nat k * hourMs)) (seq 6 5).

Definition eleventhRegistration : PhoneOp := OpRegister "123456" None (11 * hourMs).

(** The store after a verification code was requested for [Q]. *)
Definition pendingPhones : Phones :=
  snd (requestPhoneVerificationCode scenarioPhones "Q" SMS "en_US" (Some "123456") "654321" 3).

(** *** The other operations on a phone number *)

Definition getWaba (wabas : Wabas) (wid : string) : option WabaOverrideConfig :=
  wabas !! wid.

Definition getPhoneNumber (phones : Phones) (pid : string) : option PhoneNumberConfig :=
  phones !! pid.

Definition withPin (p : PhoneNumberConfig) (pin : string) : PhoneNumberConfig :=
  {| id := id p;
     displayPhoneNumber := displayPhoneNumber p;
     phone_wabaId := phone_wabaId p;
     webhookConfiguration := webhookConfiguration p;
     verifiedName := verifiedName p;
     qualityRating := qualityRating p;
     verificationStatus := verificationStatus p;
     pendingVerificationCode := pendingVerificationCode p;
     twoStepVerificationPin := Some pin;
     accountMode := accountMode p;
     lastOnboardedTime := lastOnboardedTime p;
     identityKeyCheckEnabled := identityKeyCheckEnabled p;
     registered := registered p;
     dataLocalizationRegion := dataLocalizationRegion p;
     registerRequests := registerRequests p;
     deregisterRequests := deregisterRequests p;
     conversationalAutomation := conversationalAutomation p |}.

Definition withIdentityKeyCheck (p : PhoneNumberConfig) (flag : bool) : PhoneNumberConfig :=
  {| id := id p;
     displayPhoneNumber := displayPhoneNumber p;
     phone_wabaId := phone_wabaId p;
     webhookConfiguration := webhookConfiguration p;
     verifiedName := verifiedName p;
     qualityRating := qualityRating p;
     verificationStatus := verificationStatus p;
     pendingVerificationCode := pendingVerificationCode p;
     twoStepVerificationPin := twoStepVerificationPin p;
     accountMode := accountMode p;
     lastOnboardedTime := lastOnboardedTime p;
     identityKeyCheckEnabled := Some flag;
     registered := registered p;
     dataLocalizationRegion := dataLocalizationRegion p;
     registerRequests := registerRequests p;
     deregisterRequests := deregisterRequests p;
     conversationalAutomation := conversationalAutomation p |}.

Definition withAutomation (p : PhoneNumberConfig) (a : ConversationalAutomationConfig)
  : PhoneNumberConfig :=
  {| id := id p;
     displayPhoneNumber := displayPhoneNumber p;
     phone_wabaId := phone_wabaId p;
     webhookConfiguration := webhookConfiguration p;
     verifiedName := verifiedName p;
     qualityRating := qualityRating p;
     verificationStatus := verificationStatus p;
     pendingVerificationCode := pendingVerificationCode p;
     twoStepVerificationPin := twoStepVerificationPin p;
     accountMode := accountMode p;
     lastOnboardedTime := lastOnboardedTime p;
     identityKeyCheckEnabled := identityKeyCheckEnabled p;
     registered := registered p;
     dataLocalizationRegion := dataLocalizationRegion p;
     registerRequests := registerRequests p;
     deregisterRequests := deregisterRequests p;
     conversationalAutomation := Some a |}.

Definition setTwoStepVerificationPin (phones : Phones) (pid pin : string)
  : option string * Phones :=
  match phones !! pid with
  | None => (None, phones)
  | Some phone => (Some pin, storePhone pid (withPin phone pin) phones)
  end.

Definition setIdentityKeyCheckForNumber (phones : Phones) (pid : string) (flag : bool)
  : bool * Phones :=
  match phones !! pid with
  | None => (false, phones)
  | Some phone => (true, storePhone pid (withIdentityKeyCheck phone flag) phones)
  end.

Definition defaultAutomation : ConversationalAutomationConfig :=
  {| enable_welcome_message := Some false; commands := Some []; prompts := Some [] |}.

Definition getConversationalAutomation (phones : Phones) (pid : string)
  : option ConversationalAutomationConfig * Phones :=
  match phones !! pid with
  | None => (None, phones)
  | Some phone =>
      match conversationalAutomation phone with
      | Some a => (Some a, phones)
      | None =>
          (Some defaultAutomation,
           storePhone pid (withAutomation phone defaultAutomation) phones)
      end
  end.

(** The phone read first and the one [getConversationalAutomation] reads
    are the same object; that call changes at most its
    [conversationalAutomation], which the update then replaces. *)
Definition updateConversationalAutomation (phones : Phones) (pid : string)
  (enableWelcomeMessage : option bool) (newCommands : option (list ConversationalCommand))
  (newPrompts : option (list string))
  : option ConversationalAutomationConfig * Phones :=
  match phones !! pid with
  | None => (None, phones)
  | Some phone =>
      let '(got, phones1) := getConversationalAutomation phones pid in
      let current := match got with Some a => a | None => defaultAutomation end in
      let updated :=
        {| enable_welcome_message :=
             match enableWelcomeMessage with
             | Some b => Some b
             | None => enable_welcome_message current
             end;
           commands :=
             match newCommands with
             | Some cs => Some cs
             | None => commands current
             end;
           prompts :=
             match newPrompts with
             | Some ps => Some ps
             | None => prompts current
             end |} in
      (Some updated, storePhone pid (withAutomation phone updated) phones1)
  end.

(** Every phone is stored under its own [id], as [upsertPhoneNumber]
    creates it. *)
Definition phonesWellKeyed (phones : Phones) : Prop :=
  map_Forall (fun k p => id p = k) phones.

#[global] Instance phonesWellKeyed_dec (phones : Phones) : Decision (phonesWellKeyed phones).
Proof. unfold phonesWellKeyed. apply _. Defined.

(** What registration and verification never touch: the identity of the
    number, its WABA, its webhook configuration and its profile fields. *)
Definition routingView (p : PhoneNumberConfig)
  : string * string * option string * option PhoneWebhookConfiguration
    * option string * option PhoneQualityRating * option PhoneAccountMode :=
  (id p, displayPhoneNumber p, phone_wabaId p, webhookConfiguration p,
   verifiedName p, qualityRating p, accountMode p).

(** The lifecycle of a number: verification, PIN, registration and the
    attempts recorded for the throttle. *)
Definition lifecycleView (p : PhoneNumberConfig)
  : PhoneVerificationStatus * option PendingPhoneVerificationCode * option string
    * option bool * option string * option (list Z) * option (list Z) :=
  (verificationStatus p, pendingVerificationCode p, twoStepVerificationPin p,
   registered p, dataLocalizationRegion p, registerRequests p, deregisterRequests p).

End WebhookRouting.

(** ** state/eventStore.ts *)

Module EventStore.

Inductive EventDirection := inbound | outbound | system.

Inductive EventType :=
| webhook_incoming
| simulate_message
| simulate_status
| config_update.

(** [payload] and [meta] are opaque to the bus; they are carried as text. *)
Record EventInput := mkEventInput {
  in_direction : EventDirection;
  in_type : EventType;
  in_source : string;
  in_payload : string;
  in_meta : option (list (string * string))
}.

Record SandboxEvent := mkEvent {
  id : string;
  timestamp : Z;
  direction : EventDirection;
  type : EventType;
  source : string;
  payload : string;
  meta : option (list (string * string))
}.

Definition maxEvents : nat := 200.

(** A subscriber callback: its identity in the [Set] and whether it
    throws when handed an event.  Callbacks do not call back into the bus. *)
Record Subscriber := mkSubscriber {
  sub_id : nat;
  throwsOn : SandboxEvent → bool
}.

Record Bus := mkBus {
  events : list SandboxEvent;
  subscribers : list Subscriber
}.

Definition emptyBus : Bus := {| events := []; subscribers := [] |}.

(** *** Code that may throw, run against the record of deliveries *)

Inductive Completion (A : Type) :=
| Normal (a : A)
| Throw (err : string).

Arguments Normal {A} a.
Arguments Throw {A} err.

(** Which subscriber has been handed which event, in order. *)
Definition Deliveries := list (nat * SandboxEvent).

Definition Eff (A : Type) : Type := Deliveries → Completion A * Deliveries.

Definition ret {A : Type} (a : A) : Eff A := fun d => (Normal a, d).

Definition bind {A B : Type} (m : Eff A) (k : A → Eff B) : Eff B :=
  fun d =>
    match m d with
    | (Normal a, d1) => k a d1
    | (Throw err, d1) => (Throw err, d1)
    end.

(** [try { m } catch { handler }] *)
Definition tryCatch {A : Type} (m : Eff A) (handler : string → Eff A) : Eff A :=
  fun d =>
    match m d with
    | (Normal a, d1) => (Normal a, d1)
    | (Throw err, d1) => handler err d1
    end.

(** [subscriber(enriched)]: the event is delivered, then the callback
    either returns or throws. *)
Definition callSubscriber (s : Subscriber) (e : SandboxEvent) : Eff unit :=
  fun d =>
    (if throwsOn s e then Throw "subscriber_error" else Normal tt,
     d ++ [(sub_id s, e)]).

(** [for (const subscriber of subscribers) { try { ... } catch { } }] *)
Fixpoint notifyAll (subs : list Subscriber) (e : SandboxEvent) : Eff unit :=
  match subs with
  | [] => ret tt
  | s :: rest =>
      bind (tryCatch (callSubscriber s e) (fun _ => ret tt))
           (fun _ => notifyAll rest e)
  end.

(** The same loop without the [try]/[catch], for comparison. *)
Fixpoint notifyUnguarded (subs : list Subscriber) (e : SandboxEvent) : Eff unit :=
  match subs with
  | [] => ret tt
  | s :: rest => bind (callSubscriber s e) (fun _ => notifyUnguarded rest e)
  end.

(** One call of [addEvent] as the environment sees it: the record, the
    two readings of [Date.now()] and the characters taken from
    [Math.random()]. *)
Record Publication := mkPublication {
  pub_input : EventInput;
  pub_idClock : Z;
  pub_rnd : string;
  pub_clock : Z
}.

Definition enrich (p : Publication) : SandboxEvent :=
  {| id := "evt_" +:+ pretty (pub_idClock p) +:+ "_" +:+ pub_rnd p;
     timestamp := pub_clock p;
     direction := in_direction (pub_input p);
     type := in_type (pub_input p);
     source := in_source (pub_input p);
     payload := in_payload (pub_input p);
     meta := in_meta (pub_input p) |}.

Definition addEvent (bus : Bus) (p : Publication) : Eff (SandboxEvent * Bus) :=
  let enriched := enrich p in
  let log := capRing maxEvents (events bus ++ [enriched]) in
  bind (notifyAll (subscribers bus) enriched)
       (fun _ => ret (enriched, {| events := log; subscribers := subscribers bus |})).

Definition listEvents (bus : Bus) : list SandboxEvent := events bus.

(** [subscribers.add(subscriber)]: a [Set] keeps one entry per callback. *)
Definition subscribe (bus : Bus) (s : Subscriber) : Bus :=
  if existsb (fun s' => Nat.eqb (sub_id s') (sub_id s)) (subscribers bus)
  then bus
  else {| events := events bus; subscribers := subscribers bus ++ [s] |}.

Definition unsubscribe (bus : Bus) (sid : nat) : Bus :=
  {| events := events bus;
     subscribers := List.filter (fun s' => negb (Nat.eqb (sub_id s') sid)) (subscribers bus) |}.

(** Publishing a sequence of records one after the other. *)
Fixpoint publishAll (ps : list Publication) (bus : Bus) : Eff Bus :=
  match ps with
  | [] => ret bus
  | p :: rest => bind (addEvent bus p) (fun r => publishAll rest (snd r))
  end.

(** *** Scenario: three subscribers, the second of which always throws,
    and 250 records published one after the other. *)
Definition scenarioSubscribers : list Subscriber :=
  [ {| sub_id := 1; throwsOn := fun _ => false |};
    {| sub_id := 2; throwsOn := fun _ => true |};
    {| sub_id := 3; throwsOn := fun _ => false |} ].

Definition scenarioPublication (n : nat) : Publication :=
  {| pub_input :=
       {| in_direction := outbound; in_type := simulate_message;
          in_source := "simulate-text"; in_payload := pretty n; in_meta := None |};
     pub_idClock := Z.of_nat n; pub_rnd := "q1w2e3"; pub_clock := Z.of_nat n |}.

Definition scenarioPublications : list Publication :=
  map scenarioPublication (seq 1 250).

(** The events handed to the callback [sid], in the order of delivery. *)
Definition deliveredTo (sid : nat) (d : Deliveries) : list SandboxEvent :=
  map snd (List.filter (fun entry => Nat.eqb (fst entry) sid) d).

(** [GET /stream] of routes/events.ts between connection and close: the
    snapshot sent as [bootstrap], the callback subscribed, the records
    published while the client is connected, and the unsubscription run
    by the [close] handler. *)
Definition streamSession (bus : Bus) (s : Subscriber) (published : list Publication)
  : Eff (list SandboxEvent * Bus) :=
  let snapshot := listEvents bus in
  bind (publishAll published (subscribe bus s))
       (fun bus1 => ret (snapshot, unsubscribe bus1 (sub_id s))).

End EventStore.

(** ** state/templates.ts *)

Module Templates.

Inductive TemplateStatus :=
| APPROVED
| PENDING
| REJECTED
| IN_APPEAL
| DISABLED
| PAUSED.

Inductive TemplateRejectionReason :=
| POLICY
| SPAM
| TRADEMARK
| INCORRECT_FORMAT
| PROHIBITED_CONTENT
| OTHER.

Inductive TemplateButtonType :=
| QUICK_REPLY
| URL
| PHONE_NUMBER
| COPY_CODE.

Record TemplateButton := mkButton {
  btn_type : TemplateButtonType;
  btn_text : string;
  btn_url : option string;
  btn_phone_number : option string;
  btn_example : option (list string)
}.

Record TemplateComponentExample := mkExample {
  header_text : option (list string);
  body_text : option (list (list string));
  footer_text : option (list string);
  button_text : option (list (list string))
}.

Inductive TemplateComponentType :=
| HEADER
| BODY
| FOOTER
| BUTTONS.

Record TemplateComponent := mkComponent {
  type : TemplateComponentType;
  format : option string;
  text : option string;
  example : option TemplateComponentExample;
  buttons : option (list TemplateButton)
}.

Record TemplateStatusAudit := mkAudit {
  audit_status : TemplateStatus;
  audit_reason : option TemplateRejectionReason;
  audit_note : option string;
  audit_updatedAt : Z
}.

Record MessageTemplate := mkTemplate {
  id : string;
  name : string;
  languageCode : string;
  category : TemplateCategory;
  bodyText : option string;
  headerText : option string;
  footerText : option string;
  components : list TemplateComponent;
  wabaId : option string;
  status : TemplateStatus;
  statusHistory : list TemplateStatusAudit;
  rejectionReason : option TemplateRejectionReason;
  rejectionNote : option string;
  createdAt : Z;
  updatedAt : Z
}.

Abbreviation Store := (gmap string MessageTemplate).

(** On an input already typed as a status: the status, or the default. *)
Definition normalizeTemplateStatus (s : option TemplateStatus) (defaultStatus : TemplateStatus)
  : TemplateStatus :=
  match s with
  | Some x => x
  | None => defaultStatus
  end.

Definition textComponent (t : TemplateComponentType) (fmt : option string) (s : string)
  : TemplateComponent :=
  {| type := t; format := fmt; text := Some s; example := None; buttons := None |}.

Definition buildComponentsFromText (body header footer : option string)
  : list TemplateComponent :=
  (match whenTruthy header with
   | Some h => [textComponent HEADER (Some "TEXT") h]
   | None => []
   end)
  ++ (match whenTruthy body with
      | Some b => [textComponent BODY None b]
      | None => []
      end)
  ++ (match whenTruthy footer with
      | Some f => [textComponent FOOTER None f]
      | None => []
      end).

Record DerivedText := mkDerived {
  d_headerText : option string;
  d_bodyText : option string;
  d_footerText : option string
}.

Definition noText : DerivedText :=
  {| d_headerText := None; d_bodyText := None; d_footerText := None |}.

Definition isType (t : TemplateComponentType) (c : TemplateComponent) : bool :=
  match t, type c with
  | HEADER, HEADER => true
  | BODY, BODY => true
  | FOOTER, FOOTER => true
  | BUTTONS, BUTTONS => true
  | _, _ => false
  end.

(** The body of the [for] loop of [deriveTextFromComponents]. *)
Definition deriveStep (result : DerivedText) (component : TemplateComponent) : DerivedText :=
  if isType HEADER component && truthy (text component) && negb (truthy (d_headerText result))
  then {| d_headerText := text component;
          d_bodyText := d_bodyText result;
          d_footerText := d_footerText result |}
  else if isType BODY component && truthy (text component) && negb (truthy (d_bodyText result))
  then {| d_headerText := d_headerText result;
          d_bodyText := text component;
          d_footerText := d_footerText result |}
  else if isType FOOTER component && truthy (text component) && negb (truthy (d_footerText result))
  then {| d_headerText := d_headerText result;
          d_bodyText := d_bodyText result;
          d_footerText := text component |}
  else result.

Definition deriveTextFromComponents (cs : option (list TemplateComponent)) : DerivedText :=
  match cs with
  | None => noText
  | Some l => fold_left deriveStep l noText
  end.

Definition isEmpty {A : Type} (l : list A) : bool :=
  match l with
  | [] => true
  | _ :: _ => false
  end.

(** [!next.f && derived.f ? derived.f : next.f] *)
Definition fillText (current derived : option string) : option string :=
  if negb (truthy current) && truthy derived then derived else current.

Definition ensureTemplateShape (templates : Store) (tpl : MessageTemplate) (now : Z)
  : MessageTemplate * Store :=
  let comps :=
    if isEmpty (components tpl)
    then buildComponentsFromText (bodyText tpl) (headerText tpl) (footerText tpl)
    else components tpl in
  let derived := deriveTextFromComponents (Some comps) in
  let history :=
    if isEmpty (statusHistory tpl)
    then [ {| audit_status := status tpl;
              audit_reason := rejectionReason tpl;
              audit_note := None;
              audit_updatedAt := updatedAt tpl |} ]
    else statusHistory tpl in
  let created := if createdAt tpl =? 0 then now else createdAt tpl in
  let updated := if updatedAt tpl =? 0 then created else updatedAt tpl in
  let next :=
    {| id := id tpl; name := name tpl; languageCode := languageCode tpl;
       category := category tpl;
       bodyText := fillText (bodyText tpl) (d_bodyText derived);
       headerText := fillText (headerText tpl) (d_headerText derived);
       footerText := fillText (footerText tpl) (d_footerText derived);
       components := comps;
       wabaId := wabaId tpl;
       status := status tpl;
       statusHistory := history;
       rejectionReason := rejectionReason tpl;
       rejectionNote := rejectionNote tpl;
       createdAt := created;
       updatedAt := updated |} in
  (next, <[id next := next]> templates).

Definition getTemplateById (templates : Store) (tid : string) (now : Z)
  : option MessageTemplate * Store :=
  match templates !! tid with
  | None => (None, templates)
  | Some tpl =>
      let '(shaped, templates1) := ensureTemplateShape templates tpl now in
      (Some shaped, <[tid := shaped]> templates1)
  end.

Record CreateInput := mkCreateInput {
  in_name : string;
  in_languageCode : string;
  in_category : option TemplateCategory;
  in_bodyText : option string;
  in_headerText : option string;
  in_footerText : option string;
  in_components : option (list TemplateComponent);
  in_wabaId : option string;
  in_status : option TemplateStatus;
  in_rejectionReason : option TemplateRejectionReason;
  in_rejectionNote : option string
}.

(** [idClock] and [now] are the two readings of [Date.now()], [rnd] the
    characters taken from [Math.random()].  [inl] is the thrown error. *)
Definition createTemplate (templates : Store) (input : CreateInput)
  (idClock : Z) (rnd : string) (now : Z) : string + MessageTemplate * Store :=
  let tid := "tpl_" +:+ pretty idClock +:+ "_" +:+ rnd in
  let st := normalizeTemplateStatus (in_status input) PENDING in
  let derivedComponents :=
    match in_components input with
    | Some cs => cs
    | None =>
        buildComponentsFromText (in_bodyText input) (in_headerText input)
          (in_footerText input)
    end in
  let derivedText := deriveTextFromComponents (Some derivedComponents) in
  let body := nullish (in_bodyText input) (d_bodyText derivedText) in
  if negb (truthy body) then inl "body_text_required"
  else
    let reason :=
      match st with
      | REJECTED => Some (match in_rejectionReason input with
                          | Some r => r
                          | None => POLICY
                          end)
      | _ => in_rejectionReason input
      end in
    let statusAudit :=
      {| audit_status := st; audit_updatedAt := now;
         audit_reason := reason; audit_note := in_rejectionNote input |} in
    let template :=
      {| id := tid;
         name := in_name input;
         languageCode := in_languageCode input;
         category := match in_category input with Some c => c | None => UNKNOWN end;
         bodyText := body;
         headerText := nullish (in_headerText input) (d_headerText derivedText);
         footerText := nullish (in_footerText input) (d_footerText derivedText);
         components := derivedComponents;
         status := st;
         statusHistory := [statusAudit];
         rejectionReason := reason;
         rejectionNote := in_rejectionNote input;
         createdAt := now;
         updatedAt := now;
         wabaId := in_wabaId input |} in
    inr (template, <[tid := template]> templates).

(** Creating a template and reading it back by its id. *)
Definition createThenRead (templates : Store) (input : CreateInput)
  (idClock : Z) (rnd : string) (now readClock : Z) : option MessageTemplate :=
  match createTemplate templates input idClock rnd now with
  | inl _ => None
  | inr (tpl, templates1) => fst (getTemplateById templates1 (id tpl) readClock)
  end.

(** The text of the first component of type [t] that carries a non-empty text. *)
Definition firstText (t : TemplateComponentType) (cs : list TemplateComponent)
  : option string :=
  match List.find (fun c => isType t c && truthy (text c)) cs with
  | Some c => text c
  | None => None
  end.

(** The text of the first component of type [t], whether it carries one or not. *)
Definition textOfFirst (t : TemplateComponentType) (cs : list TemplateComponent)
  : option string :=
  match List.find (isType t) cs with
  | Some c => text c
  | None => None
  end.

(** *** Scenarios *)

Definition bodyOnly (s : option string) : TemplateComponent :=
  {| type := BODY; format := None; text := s; example := None; buttons := None |}.

Definition createInput (body header footer : option string)
  (cs : option (list TemplateComponent)) : CreateInput :=
  {| in_name := "order_update"; in_languageCode := "en_US"; in_category := Some UTILITY;
     in_bodyText := body; in_headerText := header; in_footerText := footer;
     in_components := cs; in_wabaId := None; in_status := None;
     in_rejectionReason := None; in_rejectionNote := None |}.

(** What a read of the created template shows: its stored text fields
    next to the texts derived from its stored components. *)
Definition storedAndDerived (input : CreateInput)
  : option (option string * option string * option string * DerivedText) :=
  (fun tpl => (headerText tpl, bodyText tpl, footerText tpl,
               deriveTextFromComponents (Some (components tpl))))
  <$> createThenRead ∅ input 1700000000000 "a1b2c3" 1700000000000 1700000000500.

(** *** Updates and deletion *)

Record TemplatePatch := mkTemplatePatch {
  patch_name : option string;
  patch_languageCode : option string;
  patch_category : option TemplateCategory;
  patch_bodyText : option string;
  patch_headerText : Nullable string;
  patch_footerText : Nullable string;
  patch_wabaId : Nullable string;
  patch_status : option TemplateStatus;
  patch_components : option (list TemplateComponent);
  patch_rejectionReason : Nullable TemplateRejectionReason;
  patch_rejectionNote : Nullable string;
  patch_statusNote : Nullable string
}.

(** The block guarded by [if (patch.status)]: the new status, rejection
    reason, rejection note and status history. *)
Definition patchStatus (patch : TemplatePatch) (historyClock : Z) (tpl : MessageTemplate)
  : TemplateStatus * option TemplateRejectionReason * option string * list TemplateStatusAudit :=
  match patch_status patch with
  | None => (status tpl, rejectionReason tpl, rejectionNote tpl, statusHistory tpl)
  | Some given =>
      let normalized := normalizeTemplateStatus (Some given) (status tpl) in
      let reason :=
        match normalized with
        | REJECTED =>
            nullish (nullish (givenValue (patch_rejectionReason patch)) (rejectionReason tpl))
              (Some POLICY)
        | _ => nullish (givenValue (patch_rejectionReason patch)) (rejectionReason tpl)
        end in
      let note :=
        match patch_rejectionNote patch with
        | Given n => whenTruthy (Some n)
        | _ => rejectionNote tpl
        end in
      let historyNote :=
        nullish (nullish (givenValue (patch_statusNote patch))
                   (givenValue (patch_rejectionNote patch))) note in
      let historyEntry :=
        {| audit_status := normalized; audit_updatedAt := historyClock;
           audit_reason := reason; audit_note := historyNote |} in
      (normalized, reason, note, statusHistory tpl ++ [historyEntry])
  end.

(** [if (derived.f) existing.f = derived.f] *)
Definition overrideText (current derived : option string) : option string :=
  if truthy derived then derived else current.

(** [shapeClock], [historyClock] and [now] are the readings of
    [Date.now()] in [ensureTemplateShape], in the status block and at the
    end.  The object shaped, patched and stored is one and the same, so
    the patched template is what the store holds under its [id] and
    under the key it was read from. *)
Definition updateTemplate (templates : Store) (tid : string) (patch : TemplatePatch)
  (shapeClock historyClock now : Z) : option MessageTemplate * Store :=
  match templates !! tid with
  | None => (None, templates)
  | Some existing =>
      let '(shaped, _) := ensureTemplateShape templates existing shapeClock in
      let '(st, reason, note, history) := patchStatus patch historyClock shaped in
      let derived :=
        match patch_components patch with
        | Some cs => deriveTextFromComponents (Some cs)
        | None => noText
        end in
      let updated :=
        {| id := id shaped;
           name := default (name shaped) (patch_name patch);
           languageCode := default (languageCode shaped) (patch_languageCode patch);
           category := default (category shaped) (patch_category patch);
           bodyText :=
             overrideText (nullish (patch_bodyText patch) (bodyText shaped))
               (d_bodyText derived);
           headerText :=
             overrideText (patchNullable (patch_headerText patch) (headerText shaped))
               (d_headerText derived);
           footerText :=
             overrideText (patchNullable (patch_footerText patch) (footerText shaped))
               (d_footerText derived);
           components := default (components shaped) (patch_components patch);
           wabaId := patchNullable (patch_wabaId patch) (wabaId shaped);
           status := st;
           statusHistory := history;
           rejectionReason := patchNullable (patch_rejectionReason patch) reason;
           rejectionNote := patchNullable (patch_rejectionNote patch) note;
           createdAt := createdAt shaped;
           updatedAt := now |} in
      (Some updated, <[tid := updated]> (<[id updated := updated]> templates))
  end.

Definition updateTemplateStatus (templates : Store) (tid : string) (st : TemplateStatus)
  (optReason : option TemplateRejectionReason) (optNote : option string)
  (shapeClock historyClock now : Z) : option MessageTemplate * Store :=
  let asNullable {A : Type} (o : option A) : Nullable A :=
    match o with
    | Some a => Given a
    | None => Undefined
    end in
  updateTemplate templates tid
    {| patch_name := None; patch_languageCode := None; patch_category := None;
       patch_bodyText := None; patch_headerText := Undefined;
       patch_footerText := Undefined; patch_wabaId := Undefined;
       patch_status := Some st; patch_components := None;
       patch_rejectionReason := asNullable optReason;
       patch_rejectionNote := asNullable optNote;
       patch_statusNote := asNullable optNote |}
    shapeClock historyClock now.

(** [templates.delete(id)] *)
Definition deleteTemplate (templates : Store) (tid : string) : bool * Store :=
  (bool_decide (is_Some (templates !! tid)), delete tid templates).

(** Any call of the exported functions that change the store. *)
Inductive TemplateCall :=
| CallCreate (input : CreateInput) (idClock : Z) (rnd : string) (now : Z)
| CallRead (tid : string) (now : Z)
| CallUpdate (tid : string) (patch : TemplatePatch) (shapeClock historyClock now : Z)
| CallUpdateStatus (tid : string) (st : TemplateStatus)
    (optReason : option TemplateRejectionReason) (optNote : option string)
    (shapeClock historyClock now : Z)
| CallDelete (tid : string).

Definition applyTemplateCall (templates : Store) (c : TemplateCall) : Store :=
  match c with
  | CallCreate input idClock rnd now =>
      match createTemplate templates input idClock rnd now with
      | inl _ => templates
      | inr (_, templates1) => templates1
      end
  | CallRead tid now => snd (getTemplateById templates tid now)
  | CallUpdate tid patch shapeClock historyClock now =>
      snd (updateTemplate templates tid patch shapeClock historyClock now)
  | CallUpdateStatus tid st optReason optNote shapeClock historyClock now =>
      snd (updateTemplateStatus templates tid st optReason optNote shapeClock historyClock now)
  | CallDelete tid => snd (deleteTemplate templates tid)
  end.

#[global] Instance TemplateStatus_eq_dec : EqDecision TemplateStatus.
Proof. solve_decision. Defined.

(** The last entry of the status history records the current status. *)
Definition historyCurrent (tpl : MessageTemplate) : Prop :=
  audit_status <$> last (statusHistory tpl) = Some (status tpl).

#[global] Instance historyCurrent_dec (tpl : MessageTemplate) : Decision (historyCurrent tpl).
Proof. unfold historyCurrent. apply _. Defined.

End Templates.

(** ** routes/graph.ts: what the handlers do to the stores *)

Module Graph.

(** [POST /:id/messages] from the messaging-limit check on, the request
    being validated and its conversation category resolved:
    [evaluateMessagingLimit({ phoneId: id, to })], the 429 answer when it
    refuses, [registerSend({ phoneId: id, to, category })] otherwise.
    Each of the two calls reads [Date.now()] itself. *)
Definition sendMessage (states : MessagingLimits.States) (pid recipient : string)
  (cat : MessagingLimits.ConversationCategory) (evalClock sendClock : Z)
  : (MessagingLimits.MessagingLimitEvaluation + MessagingLimits.RegisterSendResult)
    * MessagingLimits.States :=
  let '(evaluation, states1) :=
    MessagingLimits.evaluateMessagingLimit states pid recipient evalClock in
  if negb (MessagingLimits.allowed evaluation) then (inl evaluation, states1)
  else
    let '(registered, states2) :=
      MessagingLimits.registerSend states1 pid recipient cat sendClock in
    (inr registered, states2).

(** The requests that reach the tracker: sends through
    [POST /:id/messages] and reads through [GET /:id/messaging_limits]. *)
Inductive TrackerRequest :=
| PostMessage (pid recipient : string) (cat : MessagingLimits.ConversationCategory)
    (evalClock sendClock : Z)
| GetMessagingLimits (pid : string) (now : Z).

Definition serveTracker (states : MessagingLimits.States) (r : TrackerRequest)
  : MessagingLimits.States :=
  match r with
  | PostMessage pid recipient cat evalClock sendClock =>
      snd (sendMessage states pid recipient cat evalClock sendClock)
  | GetMessagingLimits pid now =>
      snd (MessagingLimits.getMessagingSummaryForPhone states pid now)
  end.

(** A field of a JSON request body, as far as the handlers below tell
    values apart: absent ([undefined]); present but not a string, with
    its truthiness ([null], [false] and [0] are falsy, any other such
    value is truthy); or a string. *)
Inductive Field :=
| Absent
| NotAString (isTruthy : bool)
| Str (s : string).

(** [if (f)] *)
Definition fieldTruthy (f : Field) : bool :=
  match f with
  | Absent => false
  | NotAString isTruthy => isTruthy
  | Str s => negb (String.eqb s EmptyString)
  end.

(** [f && f !== "whatsapp"] *)
Definition productRefused (f : Field) : bool :=
  fieldTruthy f
  && negb (match f with
           | Str mp => String.eqb mp "whatsapp"
           | _ => false
           end).

Definition isDigit (c : Ascii.ascii) : bool :=
  let n := Ascii.nat_of_ascii c in ((48 <=? n) && (n <=? 57))%nat.

(** [pin.length !== 6 || !/^\d{6}$/.test(pin)], negated. *)
Definition isSixDigits (pin : string) : bool :=
  (String.length pin =? 6)%nat && forallb isDigit (String.list_ascii_of_string pin).

Definition allowedDataLocalizationRegions : list string :=
  [ "AU"; "ID"; "IN"; "JP"; "SG"; "KR"; "DE"; "CH"; "GB"; "BR"; "BH"; "ZA"; "AE"; "CA" ].

Inductive RegisterResponse :=
| Register400 (error : string)
| Register404
| Register429 (retry_after_ms : option Z) (attempts_in_window : option nat)
| Register200 (data_localization_region : option string).

(** [POST /:id/register].  [onboardClock] is the [Date.now()] that
    [upsertPhoneNumber] reads when it creates the number, [now] the one
    [registerPhoneNumber] reads.  [upperCase] is
    [String.prototype.toUpperCase], applied by the handler to the region
    of the request before it is looked up in the allowed list; its
    Unicode case mapping is left to the caller of the model.  A region
    that passes the lookup is one of the fourteen codes, on which
    [registerPhoneNumber] upper-cases once more without effect. *)
Definition postRegister (upperCase : string → string)
  (phones : WebhookRouting.Phones) (pid : string)
  (messaging_product pin data_localization_region : Field) (onboardClock now : Z)
  : RegisterResponse * WebhookRouting.Phones :=
  if String.eqb pid EmptyString then (Register400 "phone_id_required", phones)
  else if negb (match messaging_product with
                | Str mp => String.eqb mp "whatsapp"
                | _ => false
                end)
  then (Register400 "messaging_product_whatsapp_required", phones)
  else
    match pin with
    | Str pinText =>
        if negb (isSixDigits pinText) then (Register400 "pin_must_be_6_digits", phones)
        else
          let proceed (normalizedRegion : option string) :=
            let phones1 :=
              match WebhookRouting.getPhoneNumber phones pid with
              | Some _ => phones
              | None =>
                  snd (WebhookRouting.upsertPhoneNumber phones
                         {| WebhookRouting.in_id := pid;
                            WebhookRouting.in_displayPhoneNumber := pid;
                            WebhookRouting.in_wabaId := None;
                            WebhookRouting.in_webhookConfiguration := None;
                            WebhookRouting.in_verifiedName := None;
                            WebhookRouting.in_qualityRating := None;
                            WebhookRouting.in_accountMode := None |} onboardClock)
              end in
            match WebhookRouting.registerPhoneNumber phones1 pid pinText normalizedRegion now with
            | (WebhookRouting.RegOk _, phones2) => (Register200 normalizedRegion, phones2)
            | (WebhookRouting.RegFail WebhookRouting.not_found _ _, phones2) =>
                (Register404, phones2)
            | (WebhookRouting.RegFail WebhookRouting.rate_limited retry attempts, phones2) =>
                (Register429 retry attempts, phones2)
            end in
          match data_localization_region with
          | Absent => proceed None
          | NotAString _ => (Register400 "data_localization_region_must_be_string", phones)
          | Str r =>
              let upper := upperCase r in
              if negb (existsb (String.eqb upper) allowedDataLocalizationRegions)
              then (Register400 "unsupported_data_localization_region", phones)
              else proceed (Some upper)
          end
    | _ => (Register400 "pin_must_be_6_digits", phones)
    end.

(** *** [POST /:id/marketing_messages] *)

(** The stores the handler reads and writes. *)
Record World := mkWorld {
  w_phones : WebhookRouting.Phones;
  w_policy : Policy.Contacts;
  w_marketing : Marketing.Store;
  w_tracker : MessagingLimits.States
}.

(** [template] of the body when [type] is ["template"] and [template]
    is an object: its [name] and, when it is a string, [language.code]. *)
Record TemplateRef := mkTemplateRef {
  tr_name : Field;
  tr_languageCode : option string
}.

(** The fields of the body the handler reads; [mr_template] is
    [template] when [type] is ["template"] and [template] is an object,
    [mr_send_at] is [send_at] when it is a number, taken to be integral. *)
Record MarketingRequest := mkMarketingRequest {
  mr_messaging_product : Field;
  mr_to : Field;
  mr_template : option TemplateRef;
  mr_send_at : option Z
}.

Inductive MarketingResponse :=
| Marketing400 (error : string)
| Marketing403 (error : string)
| Marketing404 (error : string)
| Marketing429 (code : Z)
| Marketing200 (record : Marketing.MarketingSendRecord)
    (registered : MessagingLimits.RegisterSendResult).

(** The readings of [Date.now()] made, in this order, by
    [evaluateMarketingFrequency], [evaluateMessagingLimit],
    [registerMarketingSend] and [registerSend], and the characters that
    [registerMarketingSend] takes from [Math.random()]. *)
Record Clocks := mkClocks {
  frequencyClock : Z;
  limitClock : Z;
  ledgerClock : Z;
  ledgerRnd : string;
  sendClock : Z
}.

(** The category of the send: that of the stored template, which has to
    be approved, and MARKETING when no template of that name is stored. *)
Definition resolveCategory (storedTemplate : option Templates.MessageTemplate)
  : string + TemplateCategory :=
  match storedTemplate with
  | Some stored =>
      if negb (bool_decide (Templates.status stored = Templates.APPROVED))
      then inl "template_not_approved"
      else inr (Templates.category stored)
  | None => inr MARKETING
  end.

(** [storedTemplate] is what [getTemplateByName(templateName,
    languageCode, phone.wabaId)] returns. *)
Definition postMarketingMessage (world : World) (pid : string) (request : MarketingRequest)
  (storedTemplate : option Templates.MessageTemplate) (clocks : Clocks)
  : MarketingResponse * World :=
  if String.eqb pid EmptyString then (Marketing400 "phone_id_required", world)
  else
    match WebhookRouting.getPhoneNumber (w_phones world) pid with
    | None => (Marketing404 "phone_not_found", world)
    | Some phone =>
        if productRefused (mr_messaging_product request)
        then (Marketing400 "messaging_product_whatsapp_only", world)
        else
          match mr_to request with
          | Str recipient =>
              if String.eqb recipient EmptyString then (Marketing400 "to_required", world)
              else
                match mr_template request with
                | None => (Marketing400 "template_payload_required", world)
                | Some template =>
                    let sendAtMs :=
                      (fun send_at => if send_at <? 10000000000 then send_at * 1000 else send_at)
                      <$> mr_send_at request in
                    match tr_name template with
                    | Str templateName =>
                        if negb (Policy.allowed
                                   (Policy.evaluatePolicyForWaId (w_policy world) recipient))
                        then (Marketing403 "contact_blocked_by_policy", world)
                        else if negb (Marketing.el_allowed
                                        (Marketing.evaluateMarketingEligibility
                                           (w_marketing world) recipient))
                        then (Marketing403 "marketing_opt_in_required", world)
                        else if negb (Marketing.allowed
                                        (Marketing.evaluateMarketingFrequency
                                           (w_marketing world) pid recipient
                                           (frequencyClock clocks)))
                        then (Marketing429 131051, world)
                        else
                          let '(evaluation, tracker1) :=
                            MessagingLimits.evaluateMessagingLimit (w_tracker world) pid
                              recipient (limitClock clocks) in
                          let world1 :=
                            {| w_phones := w_phones world; w_policy := w_policy world;
                               w_marketing := w_marketing world; w_tracker := tracker1 |} in
                          if negb (MessagingLimits.allowed evaluation)
                          then (Marketing429 131048, world1)
                          else
                            match resolveCategory storedTemplate with
                            | inl error => (Marketing400 error, world1)
                            | inr category =>
                                let '(record, marketing1) :=
                                  Marketing.registerMarketingSend (w_marketing world)
                                    {| Marketing.p_phoneId := pid;
                                       Marketing.p_to := recipient;
                                       Marketing.p_templateName := Some templateName;
                                       Marketing.p_languageCode :=
                                         whenTruthy (tr_languageCode template);
                                       Marketing.p_category := Some category;
                                       Marketing.p_sendAt := sendAtMs |}
                                    (ledgerClock clocks) (ledgerRnd clocks) in
                                let '(registered, tracker2) :=
                                  MessagingLimits.registerSend tracker1 pid recipient
                                    category (sendClock clocks) in
                                (Marketing200 record registered,
                                 {| w_phones := w_phones world; w_policy := w_policy world;
                                    w_marketing := marketing1; w_tracker := tracker2 |})
                            end
                    | _ => (Marketing400 "template.name_required", world)
                    end
                end
          | _ => (Marketing400 "to_required", world)
          end
    end.

(** One request to the route as the server sees it. *)
Record MarketingCall := mkMarketingCall {
  call_phoneId : string;
  call_request : MarketingRequest;
  call_storedTemplate : option Templates.MessageTemplate;
  call_clocks : Clocks
}.

Definition serveMarketing (world : World) (c : MarketingCall) : World :=
  snd (postMarketingMessage world (call_phoneId c) (call_request c)
         (call_storedTemplate c) (call_clocks c)).

(** The clock of the frequency evaluation never runs backwards from one
    request to the next, starting at [t0]. *)
Fixpoint frequencyClocksOrdered (t0 : Z) (calls : list MarketingCall) : bool :=
  match calls with
  | [] => true
  | c :: rest =>
      (t0 <=? frequencyClock (call_clocks c))
      && frequencyClocksOrdered (frequencyClock (call_clocks c)) rest
  end.

Definition lastFrequencyClock (t0 : Z) (calls : list MarketingCall) : Z :=
  foldl (fun _ c => frequencyClock (call_clocks c)) t0 calls.

(** *** Paging through templates *)

Record Page := mkPage {
  slice : list Templates.MessageTemplate;
  cursor_before : option string;
  cursor_after : option string;
  total : nat
}.

(** [templates.findIndex((tpl) => tpl.id === cursor)], [None] for [-1]. *)
Fixpoint findIndex (cursor : string) (templates : list Templates.MessageTemplate)
  : option nat :=
  match templates with
  | [] => None
  | tpl :: rest =>
      if String.eqb (Templates.id tpl) cursor then Some 0%nat
      else S <$> findIndex cursor rest
  end.

(** [xs.slice(from, to)] for bounds that are not negative. *)
Definition sliceOf {A : Type} (from to : nat) (xs : list A) : list A :=
  take (to - from) (drop from xs).

(** [limit] is the positive integer that [parseLimit] returns. *)
Definition paginateTemplates (templates : list Templates.MessageTemplate) (limit : nat)
  (after before : option string) : Page :=
  let total := length templates in
  let start :=
    match whenTruthy after with
    | Some cursor =>
        match findIndex cursor templates with
        | Some index => (index + 1)%nat
        | None => 0%nat
        end
    | None => 0%nat
    end in
  let end_ :=
    match whenTruthy before with
    | Some cursor =>
        match findIndex cursor templates with
        | Some index => index
        | None => total
        end
    | None => total
    end in
  let slice := sliceOf start (Nat.min end_ (start + limit)) templates in
  let lastIndex : Z := Z.of_nat start + Z.of_nat (length slice) - 1 in
  let nextItem :=
    if (0 <=? lastIndex) && (lastIndex + 1 <? Z.of_nat end_)
    then templates !! Z.to_nat (lastIndex + 1)
    else None in
  let prevItem :=
    if (0 <? start)%nat then templates !! (start - 1)%nat else None in
  {| slice := slice;
     cursor_before := Templates.id <$> prevItem;
     cursor_after := Templates.id <$> nextItem;
     total := total |}.

(** Three stored templates, as the listing hands them to the pager. *)
Definition pagingScenario : list Templates.MessageTemplate :=
  map (fun n : nat =>
         {| Templates.id := "tpl_" +:+ pretty n +:+ "_a1b2c3";
            Templates.name := "order_update";
            Templates.languageCode := "en_US";
            Templates.category := UTILITY;
            Templates.bodyText := Some "Your order shipped";
            Templates.headerText := None;
            Templates.footerText := None;
            Templates.components := [Templates.bodyOnly (Some "Your order shipped")];
            Templates.wabaId := None;
            Templates.status := Templates.APPROVED;
            Templates.statusHistory :=
              [ {| Templates.audit_status := Templates.APPROVED;
                   Templates.audit_reason := None; Templates.audit_note := None;
                   Templates.audit_updatedAt := Z.of_nat n |} ];
            Templates.rejectionReason := None;
            Templates.rejectionNote := None;
            Templates.createdAt := Z.of_nat n;
            Templates.updatedAt := Z.of_nat n |})
      [3; 2; 1]%nat.

(** A world with the phones of the routing scenario, no policy, the
    recipient 5511999 opted in and an empty tracker; and two requests to
    send to that recipient from [Q], one second apart. *)
Definition marketingScenarioWorld : World :=
  {| w_phones := WebhookRouting.scenarioPhones;
     w_policy := ∅;
     w_marketing :=
       snd (Marketing.upsertMarketingContact Marketing.initialStore "5511999"
              (Some Marketing.opted_in) None None 0);
     w_tracker := ∅ |}.

Definition marketingScenarioCall (t : Z) : MarketingCall :=
  {| call_phoneId := "Q";
     call_request :=
       {| mr_messaging_product := Str "whatsapp"; mr_to := Str "5511999";
          mr_template :=
            Some {| tr_name := Str "spring_sale"; tr_languageCode := Some "en_US" |};
          mr_send_at := None |};
     call_storedTemplate := None;
     call_clocks :=
       {| frequencyClock := t; limitClock := t; ledgerClock := t; ledgerRnd := "k3x9qa";
          sendClock := t |} |}.

End Graph.

(** ** routes/config.ts: the events of the configuration route *)

Module ConfigRouter.

(** What an event holds in its [payload] or under [meta.before]: data of
    its own, or the runtime configuration object itself.  [getConfig] and
    [updateConfig] both return that one object, not a copy. *)
Inductive Held :=
| OwnData (json : string)
| ConfigObject.

Record LoggedEvent := mkLoggedEvent {
  source : string;
  payload : Held;
  meta_before : option Held
}.

Definition getConfig : Held := ConfigObject.

(** [PUT /]: the state of the configuration object and the events logged. *)
Definition putConfig (run : Config.RuntimeState * list LoggedEvent) (patch : Config.Patch)
  : Config.RuntimeState * list LoggedEvent :=
  let before := getConfig in
  let st1 := Config.updateConfig (fst run) patch in
  let updated := ConfigObject in
  (st1,
   snd run ++ [ {| source := "config-api"; payload := updated; meta_before := Some before |} ]).

(** What [JSON.stringify] shows of a held value when the configuration
    object is in state [st]; data of its own shows as itself. *)
Definition shown (st : Config.RuntimeState) (h : Held) : string + Config.RuntimeState :=
  match h with
  | OwnData json => inl json
  | ConfigObject => inr st
  end.

End ConfigRouter.

(** ** services/forwarder.ts and [POST /message] of routes/simulate.ts *)

Module Simulate.

Section Signing.

(** [crypto.createHmac("sha256", secret).update(body).digest("hex")] *)
Variable hmacSha256Hex : string → string → string.

(** The secret [forward] signs with: the first truthy one of the option
    of the call, the secret of the forwarder, the configured one and the
    one of the environment. *)
Definition signingSecret (optsSecret thisSecret : option string)
  (cfg : Config.RuntimeConfig) (envSecret : option string) : option string :=
  orElse (orElse (orElse optsSecret thisSecret) (Config.webhookAppSecret cfg)) envSecret.

Definition forwardHeaders (body : string) (secret : option string) : list (string * string) :=
  [("Content-Type", "application/json")]
  ++ match whenTruthy secret with
     | Some key => [("X-Hub-Signature-256", "sha256=" +:+ hmacSha256Hex key body)]
     | None => []
     end.

Inductive Delivery :=
| Refused (status : Z) (error : string)
| Posted (url : string) (headers : list (string * string)) (body : string).

(** [POST /message] up to the request it sends.  [payload] stands for
    [JSON.stringify] of the payload built from the fields of the
    request; [envSecret] is the secret of the environment as [forward]
    reads it. *)
Definition postMessage (cfg : Config.RuntimeConfig)
  (wabas : WebhookRouting.Wabas) (phones : WebhookRouting.Phones) (envSecret : option string)
  (from body phoneNumberId wabaId webhookAppSecret : option string)
  (payload : string) : Delivery :=
  let phoneNumberId := default "000000000000000" phoneNumberId in
  if negb (truthy from) || negb (truthy body)
  then Refused 400 "'from' and 'body' fields are required"
  else
    let targetContext :=
      WebhookRouting.resolveWebhookTarget cfg wabas phones
        (whenTruthy (Some phoneNumberId)) (whenTruthy wabaId) in
    let targetUrl :=
      match targetContext with
      | Some t => Some (WebhookRouting.url t)
      | None => whenTruthy (Config.targetWebhookUrl cfg)
      end in
    match targetUrl with
    | None =>
        Refused 400
          "Target webhook URL is not configured. Set it at runtime via the configuration API or UI."
    | Some target =>
        let optsSecret :=
          orElse (orElse webhookAppSecret (targetContext ≫= WebhookRouting.appSecret)) None in
        Posted target
          (forwardHeaders payload (signingSecret optsSecret None cfg envSecret))
          payload
    end.

End Signing.

End Simulate.

(** * Properties *)

(** ** Messaging-limit tracker *)

Section MessagingLimitFacts.

Import MessagingLimits.

Implicit Types (states : States) (s : MessagingLimitState) (evs : list SendEvent).

Lemma limitReached_belowLimit n l : limitReached n l = negb (belowLimit n l).
Proof. destruct l as [m|]; simpl; [|done]. destruct (Z.ltb_spec (Z.of_nat n) m), (Z.leb_spec m (Z.of_nat n)); simpl; lia || done. Qed.

Lemma belowLimit_succ_within n l : belowLimit n l = true → withinLimit (S n) l = true.
Proof. destruct l as [m|]; simpl; [|done]. rewrite Z.ltb_lt, Z.leb_le. lia. Qed.

Lemma withinLimit_mono n m l : (n ≤ m)%nat → withinLimit m l = true → withinLimit n l = true.
Proof. destruct l as [k|]; simpl; [|done]. rewrite !Z.leb_le. lia. Qed.

Lemma elem_of_uniqueRecipients r evs :
  r ∈ uniqueRecipients evs ↔ ∃ e, e ∈ evs ∧ to e = r.
Proof.
  unfold uniqueRecipients. rewrite elem_of_list_to_set, list_elem_of_fmap.
  split; intros (e & H1 & H2); exists e; split; auto.
Qed.

Lemma uniqueRecipients_filter f evs :
  uniqueRecipients (List.filter f evs) ⊆ uniqueRecipients evs.
Proof.
  intros r. rewrite !elem_of_uniqueRecipients. intros (e & He & <-).
  exists e. split; [|done].
  apply list_elem_of_In. apply list_elem_of_In, filter_In in He. tauto.
Qed.

Lemma uniqueRecipients_snoc evs e :
  uniqueRecipients (evs ++ [e]) = uniqueRecipients evs ∪ {[ to e ]}.
Proof.
  unfold uniqueRecipients. rewrite map_app. simpl.
  rewrite list_to_set_app_L, list_to_set_cons, list_to_set_nil.
  by rewrite (right_id_L ∅ (∪)).
Qed.

Lemma size_uniqueRecipients_filter f evs :
  (size (uniqueRecipients (List.filter f evs)) ≤ size (uniqueRecipients evs))%nat.
Proof. apply subseteq_size, uniqueRecipients_filter. Qed.

Lemma size_uniqueRecipients_distinct evs :
  size (uniqueRecipients evs) = length (remove_dups (map to evs)).
Proof.
  unfold uniqueRecipients.
  rewrite <- (size_list_to_set (C := gset string) (remove_dups (map to evs)))
    by apply NoDup_remove_dups.
  f_equal. apply set_eq. intros x.
  by rewrite !elem_of_list_to_set, elem_of_remove_dups.
Qed.

Lemma size_uniqueRecipients_snoc_old evs e :
  to e ∈ uniqueRecipients evs →
  size (uniqueRecipients (evs ++ [e])) = size (uniqueRecipients evs).
Proof.
  intros Hin. rewrite uniqueRecipients_snoc, (comm_L (∪)).
  f_equal. apply subseteq_union_1_L. by apply singleton_subseteq_l.
Qed.

Lemma size_uniqueRecipients_snoc_new evs e :
  to e ∉ uniqueRecipients evs →
  size (uniqueRecipients (evs ++ [e])) = S (size (uniqueRecipients evs)).
Proof.
  intros Hnin. rewrite uniqueRecipients_snoc.
  rewrite size_union by (by apply disjoint_singleton_r).
  rewrite size_singleton. lia.
Qed.

Lemma getOrCreateState_lookup pid states :
  snd (getOrCreateState pid states) !! pid = Some (fst (getOrCreateState pid states)).
Proof.
  unfold getOrCreateState. destruct (states !! pid) eqn:E; simpl; [done|].
  apply lookup_insert_eq.
Qed.

Lemma getOrCreateState_sends pid states :
  sends (fst (getOrCreateState pid states)) = storedSends states pid.
Proof. unfold getOrCreateState, storedSends. by destruct (states !! pid). Qed.

Lemma getOrCreateState_respects pid states :
  storeRespectsLimits states →
  storeRespectsLimits (snd (getOrCreateState pid states))
  ∧ respectsLimit (fst (getOrCreateState pid states)).
Proof.
  intros H. unfold getOrCreateState.
  destruct (states !! pid) eqn:E; simpl.
  - split; [done|]. exact (H _ _ E).
  - assert (Hfresh : respectsLimit
      {| phoneId := pid; tier := TIER_1K; windowMs := DEFAULT_WINDOW_MS;
         sends := []; totalCostUsd := 0 |}) by done.
    split; [|done]. by apply map_Forall_insert_2.
Qed.

Lemma evaluate_states states pid recipient now :
  snd (evaluateMessagingLimit states pid recipient now)
  = <[pid := withSends (fst (getOrCreateState pid states))
               (List.filter (inWindow (now - windowMs (fst (getOrCreateState pid states))))
                  (sends (fst (getOrCreateState pid states))))]>
      (snd (getOrCreateState pid states)).
Proof.
  unfold evaluateMessagingLimit.
  destruct (getOrCreateState pid states) as [s0 st1]. simpl.
  by destruct (_ && _).
Qed.

Lemma evaluate_allowed states pid recipient now :
  allowed (fst (evaluateMessagingLimit states pid recipient now))
  = let s0 := fst (getOrCreateState pid states) in
    let recipients :=
      uniqueRecipients (List.filter (inWindow (now - windowMs s0)) (sends s0)) in
    bool_decide (recipient ∈ recipients)
    || belowLimit (size recipients) (TIER_LIMITS (tier s0)).
Proof.
  unfold evaluateMessagingLimit.
  destruct (getOrCreateState pid states) as [s0 st1]. simpl.
  rewrite limitReached_belowLimit.
  destruct (bool_decide _), (belowLimit _ _); done.
Qed.

Lemma respectsLimit_withSends_filter s f :
  respectsLimit s → respectsLimit (withSends s (List.filter f (sends s))).
Proof.
  unfold respectsLimit. simpl. apply withinLimit_mono, size_uniqueRecipients_filter.
Qed.

Lemma evaluate_respects states pid recipient now :
  storeRespectsLimits states →
  storeRespectsLimits (snd (evaluateMessagingLimit states pid recipient now)).
Proof.
  intros H. rewrite evaluate_states.
  destruct (getOrCreateState_respects pid states H) as [H1 H2].
  apply map_Forall_insert_2; [|done]. by apply respectsLimit_withSends_filter.
Qed.

Lemma writeBack_lookup key s states : writeBack key s states !! key = Some s.
Proof.
  unfold writeBack. destruct (decide (phoneId s = key)) as [->|Hne].
  - apply lookup_insert_eq.
  - rewrite lookup_insert_ne by done. apply lookup_insert_eq.
Qed.

Lemma writeBack_respects key s states :
  respectsLimit s → storeRespectsLimits states → storeRespectsLimits (writeBack key s states).
Proof.
  intros Hs H. unfold writeBack. by do 2 (apply map_Forall_insert_2; [done|]).
Qed.

Lemma registerSend_storedSends states pid recipient cat now :
  storedSends (snd (registerSend states pid recipient cat now)) pid
  = storedSends states pid ++ [event (fst (registerSend states pid recipient cat now))].
Proof.
  unfold registerSend. rewrite <- (getOrCreateState_sends pid states).
  destruct (getOrCreateState pid states) as [s0 st1]. simpl.
  unfold storedSends. by rewrite writeBack_lookup.
Qed.

Lemma evaluate_lookup states pid recipient now :
  snd (evaluateMessagingLimit states pid recipient now) !! pid
  = Some (withSends (fst (getOrCreateState pid states))
            (List.filter (inWindow (now - windowMs (fst (getOrCreateState pid states))))
               (sends (fst (getOrCreateState pid states))))).
Proof. rewrite evaluate_states. apply lookup_insert_eq. Qed.

Lemma evaluate_storedSends states pid recipient now :
  storedSends (snd (evaluateMessagingLimit states pid recipient now)) pid
  = List.filter (inWindow (now - windowMs (fst (getOrCreateState pid states))))
      (storedSends states pid).
Proof.
  unfold storedSends at 1. rewrite evaluate_lookup. simpl.
  by rewrite getOrCreateState_sends.
Qed.

Lemma registerSend_respects states pid recipient cat now sp :
  storeRespectsLimits states →
  states !! pid = Some sp →
  bool_decide (recipient ∈ uniqueRecipients (sends sp))
  || belowLimit (size (uniqueRecipients (sends sp))) (TIER_LIMITS (tier sp)) = true →
  storeRespectsLimits (snd (registerSend states pid recipient cat now)).
Proof.
  intros Hst Hsp Hok. unfold registerSend, getOrCreateState. rewrite Hsp. simpl.
  apply writeBack_respects; [|done].
  pose proof (Hst _ _ Hsp) as Hresp. unfold respectsLimit in *. simpl.
  apply orb_true_iff in Hok as [Hin|Hbelow].
  - apply bool_decide_eq_true in Hin.
    by rewrite size_uniqueRecipients_snoc_old.
  - destruct (decide (recipient ∈ uniqueRecipients (sends sp))) as [Hin|Hnin].
    + by rewrite size_uniqueRecipients_snoc_old.
    + rewrite size_uniqueRecipients_snoc_new by done.
      by apply belowLimit_succ_within.
Qed.

Lemma summary_states states pid now :
  snd (getMessagingSummaryForPhone states pid now) = snd (getOrCreateState pid states).
Proof.
  unfold getMessagingSummaryForPhone. by destruct (getOrCreateState pid states).
Qed.

Lemma summary_respects states pid now :
  storeRespectsLimits states →
  storeRespectsLimits (snd (getMessagingSummaryForPhone states pid now)).
Proof. intros H. rewrite summary_states. by apply getOrCreateState_respects. Qed.

Lemma summary_within states pid now :
  storeRespectsLimits states →
  withinLimit
    (sum_windowUniqueRecipients (fst (getMessagingSummaryForPhone states pid now)))
    (sum_limitUniqueRecipients (fst (getMessagingSummaryForPhone states pid now))) = true.
Proof.
  intros H. destruct (getOrCreateState_respects pid states H) as [_ Hs0].
  unfold getMessagingSummaryForPhone.
  destruct (getOrCreateState pid states) as [s0 st1]. simpl in *.
  eapply withinLimit_mono; [apply size_uniqueRecipients_filter|exact Hs0].
Qed.

Lemma getOrCreateState_existing pid states s :
  states !! pid = Some s → getOrCreateState pid states = (s, states).
Proof. intros H. unfold getOrCreateState. by rewrite H. Qed.

Lemma getOrCreateState_other pid k states :
  k ≠ pid → snd (getOrCreateState pid states) !! k = states !! k.
Proof.
  intros Hne. unfold getOrCreateState. destruct (states !! pid); simpl; [done|].
  by rewrite lookup_insert_ne.
Qed.

Lemma getOrCreateState_keyed pid states :
  storeWellKeyed states →
  storeWellKeyed (snd (getOrCreateState pid states))
  ∧ phoneId (fst (getOrCreateState pid states)) = pid.
Proof.
  intros H. unfold getOrCreateState. destruct (states !! pid) as [s|] eqn:E; simpl.
  - split; [done|]. exact (H _ _ E).
  - split; [|done]. by apply map_Forall_insert_2.
Qed.

Lemma evaluate_keyed states pid recipient now :
  storeWellKeyed states →
  storeWellKeyed (snd (evaluateMessagingLimit states pid recipient now)).
Proof.
  intros H. rewrite evaluate_states.
  destruct (getOrCreateState_keyed pid states H) as [H1 H2].
  by apply map_Forall_insert_2.
Qed.

Lemma registerSend_states states pid recipient cat now :
  storeWellKeyed states →
  snd (registerSend states pid recipient cat now)
  = <[pid := state (fst (registerSend states pid recipient cat now))]>
      (snd (getOrCreateState pid states)).
Proof.
  intros H. destruct (getOrCreateState_keyed pid states H) as [_ Hid].
  unfold registerSend, writeBack.
  destruct (getOrCreateState pid states) as [s0 st1]. simpl in *.
  by rewrite Hid, insert_insert_eq.
Qed.

Lemma registerSend_keyed states pid recipient cat now :
  storeWellKeyed states →
  storeWellKeyed (snd (registerSend states pid recipient cat now)).
Proof.
  intros H. rewrite registerSend_states by done.
  destruct (getOrCreateState_keyed pid states H) as [H1 Hid].
  apply map_Forall_insert_2; [|done].
  unfold registerSend. by destruct (getOrCreateState pid states).
Qed.

Lemma summary_keyed states pid now :
  storeWellKeyed states →
  storeWellKeyed (snd (getMessagingSummaryForPhone states pid now)).
Proof. intros H. rewrite summary_states. by apply getOrCreateState_keyed. Qed.

Lemma belowLimit_mono n m l : (n ≤ m)%nat → belowLimit m l = true → belowLimit n l = true.
Proof. destruct l as [k|]; simpl; [|done]. rewrite !Z.ltb_lt. lia. Qed.

Lemma within_lose_one (X Y : gset string) r l :
  Y ⊆ X → r ∈ X → r ∉ Y →
  withinLimit (size X) l = true → belowLimit (size Y) l = true.
Proof.
  intros Hsub Hin Hnin. destruct l as [k|]; simpl; [|done].
  rewrite Z.leb_le, Z.ltb_lt.
  assert (size Y < size X)%nat; [|lia].
  apply subset_size. split; [done|]. intros Hback. apply Hnin, Hback, Hin.
Qed.

Lemma licence_survives_pruning s f r :
  respectsLimit s →
  bool_decide (r ∈ uniqueRecipients (sends s))
  || belowLimit (size (uniqueRecipients (sends s))) (TIER_LIMITS (tier s)) = true →
  bool_decide (r ∈ uniqueRecipients (List.filter f (sends s)))
  || belowLimit (size (uniqueRecipients (List.filter f (sends s)))) (TIER_LIMITS (tier s))
  = true.
Proof.
  intros Hresp Hok. apply orb_true_iff.
  destruct (decide (r ∈ uniqueRecipients (List.filter f (sends s)))) as [Hin|Hnin];
    [left; by apply bool_decide_eq_true|right].
  apply orb_true_iff in Hok as [Hwas|Hbelow].
  - apply bool_decide_eq_true in Hwas.
    eapply within_lose_one; [apply (uniqueRecipients_filter f)|done|done|exact Hresp].
  - eapply belowLimit_mono; [apply size_uniqueRecipients_filter|done].
Qed.

Lemma evaluate_keeps_licences states pid recipient now lic :
  storeRespectsLimits states →
  Forall (licenceHolds states) lic →
  Forall (licenceHolds (snd (evaluateMessagingLimit states pid recipient now))) lic.
Proof.
  intros Hresp Hall. eapply Forall_impl; [exact Hall|].
  intros [k r] (s & Hs & Hok). simpl in *.
  destruct (decide (k = pid)) as [->|Hne].
  - exists (withSends s (List.filter (inWindow (now - windowMs s)) (sends s))).
    split.
    + by rewrite evaluate_lookup, (getOrCreateState_existing _ _ _ Hs).
    + simpl. apply licence_survives_pruning; [exact (Hresp _ _ Hs)|done].
  - exists s. split; [|done].
    rewrite evaluate_states, lookup_insert_ne by done.
    by rewrite getOrCreateState_other.
Qed.

Lemma evaluate_grants_licence states pid recipient now :
  allowed (fst (evaluateMessagingLimit states pid recipient now)) = true →
  licenceHolds (snd (evaluateMessagingLimit states pid recipient now)) (pid, recipient).
Proof.
  intros Hallowed. eexists. split; [apply evaluate_lookup|].
  simpl. by rewrite <- evaluate_allowed.
Qed.

Lemma licensed_holds states lic pid recipient :
  Forall (licenceHolds states) lic → licensed lic pid recipient = true →
  licenceHolds states (pid, recipient).
Proof.
  intros Hall (l & Hl & [H1 H2]%andb_true_iff)%existsb_exists.
  apply String.eqb_eq in H1, H2. rewrite Forall_forall in Hall.
  apply list_elem_of_In, Hall in Hl. destruct l. simpl in *. by subst.
Qed.

Lemma revoke_keeps_others states states' lic pid :
  (∀ k, k ≠ pid → states' !! k = states !! k) →
  Forall (licenceHolds states) lic → Forall (licenceHolds states') (revoke lic pid).
Proof.
  intros Hsame Hall. apply Forall_forall. intros [k r] Hin.
  apply list_elem_of_In, filter_In in Hin as [Hin Hk]. simpl in Hk.
  apply negb_true_iff, String.eqb_neq in Hk.
  rewrite Forall_forall in Hall. apply list_elem_of_In, Hall in Hin.
  destruct Hin as (s & Hs & Hok). exists s. split; [|done].
  simpl in *. by rewrite Hsame.
Qed.

Lemma stepOp_invariant run op run' :
  runInvariant run → stepOp run op = Some run' → runInvariant run'.
Proof.
  destruct run as [states lic]. intros (Hkey & Hresp & Hlic) Hstep.
  destruct op as [pid r now|pid r cat now|pid now]; simpl in Hstep.
  - pose proof (evaluate_keyed states pid r now Hkey) as Hkey'.
    pose proof (evaluate_respects states pid r now Hresp) as Hresp'.
    pose proof (evaluate_keeps_licences states pid r now lic Hresp Hlic) as Hlic'.
    pose proof (evaluate_grants_licence states pid r now) as Hnew.
    destruct (evaluateMessagingLimit states pid r now) as [ev st1]. simpl in *.
    injection Hstep as <-. split; [done|]. split; [done|]. simpl.
    destruct (allowed ev); [|done]. constructor; [by apply Hnew|done].
  - destruct (licensed lic pid r) eqn:Hlicensed; [|done]. injection Hstep as <-.
    destruct (licensed_holds states lic pid r Hlic Hlicensed) as (s & Hs & Hok).
    simpl in Hs, Hok.
    split; [by apply registerSend_keyed|].
    split; [by apply registerSend_respects with s|]. simpl.
    apply revoke_keeps_others with states; [|done].
    intros k Hne. rewrite registerSend_states by done.
    rewrite lookup_insert_ne by done. by rewrite getOrCreateState_other.
  - injection Hstep as <-.
    split; [by apply summary_keyed|]. split; [by apply summary_respects|]. simpl.
    eapply Forall_impl; [exact Hlic|]. intros [k r] (s & Hs & Hok). exists s.
    split; [|done]. simpl in *. rewrite summary_states.
    destruct (decide (k = pid)) as [->|Hne].
    + by rewrite (getOrCreateState_existing _ _ _ Hs).
    + by rewrite getOrCreateState_other.
Qed.

Lemma runOps_invariant ops run run' :
  runInvariant run → runOps ops run = Some run' → runInvariant run'.
Proof.
  revert run. induction ops as [|op ops IH]; intros run Hinv Hrun; simpl in Hrun.
  - by injection Hrun as <-.
  - destruct (stepOp run op) as [run1|] eqn:Hstep; [|done].
    apply (IH run1); [|done]. by apply stepOp_invariant with run op.
Qed.

Lemma setMessagingTier_respects states pid t :
  storeRespectsLimits states →
  withinLimit (size (uniqueRecipients (storedSends states pid))) (TIER_LIMITS t) = true →
  storeRespectsLimits (setMessagingTier states pid t).
Proof.
  intros H Hfit. unfold setMessagingTier.
  destruct (getOrCreateState_respects pid states H) as [H1 _].
  rewrite <- getOrCreateState_sends in Hfit.
  destruct (getOrCreateState pid states) as [s0 st1]. simpl in *.
  by apply map_Forall_insert_2.
Qed.

Lemma recipient_absent_by_scan r evs :
  forallb (fun e => negb (String.eqb (to e) r)) evs = true → r ∉ uniqueRecipients evs.
Proof.
  intros Hscan (e & He & Heq)%elem_of_uniqueRecipients.
  rewrite forallb_forall in Hscan.
  apply list_elem_of_In, Hscan, negb_true_iff, String.eqb_neq in He. done.
Qed.

Lemma recipient_present_by_scan r evs :
  existsb (fun e => String.eqb (to e) r) evs = true → r ∈ uniqueRecipients evs.
Proof.
  intros (e & He & Heq)%existsb_exists. apply elem_of_uniqueRecipients.
  exists e. split; [by apply list_elem_of_In|by apply String.eqb_eq].
Qed.

End MessagingLimitFacts.

Section MessagingLimitClaims.

Import MessagingLimits.

(** C1: [evaluateMessagingLimit] keeps of the stored events those with
    [timestamp >= now - windowMs], the older ones being pruned, and allows
    the call exactly when the recipient is already among the distinct
    recipients of the events kept or their number is strictly below the
    tier's limit (250 / 1,000 / 10,000 / 100,000 / infinity); at tier
    TIER_250 with 250 distinct in-window recipients a new recipient is
    refused and a known one is allowed. *)
Theorem evaluateMessagingLimit_decision
  (states : States) (pid recipient : string) (now : Z) :
  let s0 := fst (getOrCreateState pid states) in
  let inWin :=
    List.filter (fun e => bool_decide (now - windowMs s0 ≤ timestamp e))
      (storedSends states pid) in
  let result := evaluateMessagingLimit states pid recipient now in
  storedSends (snd result) pid = inWin
  ∧ allowed (fst result)
    = bool_decide (recipient ∈ uniqueRecipients inWin)
      || belowLimit (size (uniqueRecipients inWin)) (TIER_LIMITS (tier s0))
  ∧ windowUniqueRecipients (fst result) = size (uniqueRecipients inWin)
  ∧ limitUniqueRecipients (fst result) = TIER_LIMITS (tier s0)
  ∧ map TIER_LIMITS [TIER_250; TIER_1K; TIER_10K; TIER_100K; TIER_UNLIMITED]
    = [Finite 250; Finite 1000; Finite 10000; Finite 100000; Infinite]
  ∧ (tier s0 = TIER_250 → size (uniqueRecipients inWin) = 250%nat →
     (recipient ∉ uniqueRecipients inWin → allowed (fst result) = false)
     ∧ (recipient ∈ uniqueRecipients inWin → allowed (fst result) = true))
  ∧ (∀ e, e ∈ storedSends (snd result) pid ↔
          e ∈ storedSends states pid ∧ now - windowMs s0 ≤ timestamp e)
  ∧ (states !! pid = None → windowMs s0 = 24 * 60 * 60 * 1000)
  ∧ windowUniqueRecipients (fst result) = length (remove_dups (map to inWin))
  ∧ (allowed (fst result) = true ↔
       (∃ e, e ∈ inWin ∧ to e = recipient)
       ∨ match limitUniqueRecipients (fst result) with
         | Finite limit => Z.of_nat (length (remove_dups (map to inWin))) < limit
         | Infinite => True
         end).
Proof.
  intros s0 inWin result.
  assert (Hdistinct : size (uniqueRecipients inWin) = length (remove_dups (map to inWin)))
    by apply size_uniqueRecipients_distinct.
  assert (Hfilter : inWin
    = List.filter (inWindow (now - windowMs s0)) (storedSends states pid)).
  { subst inWin. apply List.filter_ext. intros e. unfold inWindow.
    destruct (Z.leb_spec (now - windowMs s0) (timestamp e)).
    - by rewrite bool_decide_eq_true_2.
    - rewrite bool_decide_eq_false_2; [done|lia]. }
  assert (Hstored : storedSends (snd result) pid = inWin).
  { rewrite Hfilter. apply evaluate_storedSends. }
  assert (Hallowed : allowed (fst result)
    = bool_decide (recipient ∈ uniqueRecipients inWin)
      || belowLimit (size (uniqueRecipients inWin)) (TIER_LIMITS (tier s0))).
  { rewrite Hfilter. subst result s0. rewrite evaluate_allowed. simpl.
    by rewrite getOrCreateState_sends. }
  split; [exact Hstored|].
  split; [exact Hallowed|].
  split.
  { rewrite Hfilter. subst result s0. unfold evaluateMessagingLimit.
    rewrite <- getOrCreateState_sends.
    destruct (getOrCreateState pid states) as [s1 st1]. simpl.
    by destruct (_ && _). }
  split.
  { subst result s0. unfold evaluateMessagingLimit.
    destruct (getOrCreateState pid states) as [s1 st1]. simpl.
    by destruct (_ && _). }
  split; [reflexivity|].
  split.
  { intros Htier Hsize. rewrite Hallowed, Htier, Hsize. simpl. split.
    - intros Hnin. by rewrite bool_decide_eq_false_2.
    - intros Hin. by rewrite bool_decide_eq_true_2. }
  split.
  { intros e. rewrite Hstored. subst inWin.
    rewrite !list_elem_of_In, List.filter_In, bool_decide_eq_true. done. }
  split.
  { intros Hnone. subst s0. unfold getOrCreateState. by rewrite Hnone. }
  assert (Hcount : windowUniqueRecipients (fst result) = size (uniqueRecipients inWin)).
  { rewrite Hfilter. subst result s0. unfold evaluateMessagingLimit.
    rewrite <- getOrCreateState_sends.
    destruct (getOrCreateState pid states) as [s1 st1]. simpl.
    by destruct (_ && _). }
  assert (Hlimit : limitUniqueRecipients (fst result) = TIER_LIMITS (tier s0)).
  { subst result s0. unfold evaluateMessagingLimit.
    destruct (getOrCreateState pid states) as [s1 st1]. simpl.
    by destruct (_ && _). }
  split; [by rewrite Hcount|].
  rewrite Hallowed, Hlimit, orb_true_iff, bool_decide_eq_true, <- Hdistinct.
  rewrite elem_of_uniqueRecipients.
  assert (belowLimit (size (uniqueRecipients inWin)) (TIER_LIMITS (tier s0)) = true
          ↔ match TIER_LIMITS (tier s0) with
            | Finite limit => Z.of_nat (size (uniqueRecipients inWin)) < limit
            | Infinite => True
            end) as ->; [|done].
  unfold belowLimit. destruct (TIER_LIMITS (tier s0)); [apply Z.ltb_lt|done].
Qed.

(** The scenario of the specification, run on the embedding: number [A]
    holds 250 distinct in-window recipients; recipient #251 is refused and
    recipient #17, already among them, is allowed.  A day later the send
    to recipient #0 has left the window: with the other 250 recipients
    still inside it recipient #0 is refused as a new one, and once 99
    more have left it recipient #251 is allowed, 152 events to 151
    distinct recipients staying stored. *)
Lemma evaluateMessagingLimit_scenario :
  (tier (fst (getOrCreateState "A" scenarioStates)) = TIER_250
   ∧ windowUniqueRecipients
       (fst (evaluateMessagingLimit scenarioStates "A" (scenarioRecipient 251) 251)) = 250%nat
   ∧ allowed (fst (evaluateMessagingLimit scenarioStates "A" (scenarioRecipient 251) 251)) = false
   ∧ allowed (fst (evaluateMessagingLimit scenarioStates "A" (scenarioRecipient 17) 251)) = true)
  ∧ length (storedSends agedStates "A") = 252%nat
  ∧ scenarioRecipient 0 ∈ uniqueRecipients (storedSends agedStates "A")
  ∧ windowUniqueRecipients
      (fst (evaluateMessagingLimit agedStates "A" (scenarioRecipient 0) 86400001)) = 250%nat
  ∧ allowed (fst (evaluateMessagingLimit agedStates "A" (scenarioRecipient 0) 86400001)) = false
  ∧ windowUniqueRecipients
      (fst (evaluateMessagingLimit agedStates "A" (scenarioRecipient 251) 86400100)) = 151%nat
  ∧ allowed (fst (evaluateMessagingLimit agedStates "A" (scenarioRecipient 251) 86400100)) = true
  ∧ map timestamp
      (storedSends (snd (evaluateMessagingLimit agedStates "A" (scenarioRecipient 251) 86400100))
         "A")
    = map Z.of_nat (seq 100 152).
Proof.
  pose proof (evaluateMessagingLimit_decision scenarioStates "A" (scenarioRecipient 251) 251)
    as (_ & _ & Hcount & _ & _ & Hnew & _).
  pose proof (evaluateMessagingLimit_decision scenarioStates "A" (scenarioRecipient 17) 251)
    as (_ & _ & _ & _ & _ & Hold & _).
  pose proof (evaluateMessagingLimit_decision agedStates "A" (scenarioRecipient 0) 86400001)
    as (_ & _ & Hsize0' & _ & _ & Hexpired & _ & _ & Hcount0 & _).
  pose proof (evaluateMessagingLimit_decision agedStates "A" (scenarioRecipient 251) 86400100)
    as (Hkept & _ & _ & Hlimit & _ & _ & _ & _ & Hcount251 & Hallowed).
  assert (Htier : tier (fst (getOrCreateState "A" scenarioStates)) = TIER_250)
    by (vm_compute; reflexivity).
  assert (Hsize : size (uniqueRecipients
            (List.filter
               (fun e => bool_decide
                           (251 - windowMs (fst (getOrCreateState "A" scenarioStates))
                            ≤ timestamp e))
               (storedSends scenarioStates "A"))) = 250%nat)
    by (vm_compute; reflexivity).
  assert (Htier' : tier (fst (getOrCreateState "A" agedStates)) = TIER_250)
    by (vm_compute; reflexivity).
  assert (Hdistinct0 : length (remove_dups (map to
            (List.filter
               (fun e => bool_decide
                           (86400001 - windowMs (fst (getOrCreateState "A" agedStates))
                            ≤ timestamp e))
               (storedSends agedStates "A")))) = 250%nat)
    by (vm_compute; reflexivity).
  assert (Hdistinct251 : length (remove_dups (map to
            (List.filter
               (fun e => bool_decide
                           (86400100 - windowMs (fst (getOrCreateState "A" agedStates))
                            ≤ timestamp e))
               (storedSends agedStates "A")))) = 151%nat)
    by (vm_compute; reflexivity).
  split.
  { split; [exact Htier|].
    split; [rewrite Hcount; exact Hsize|].
    split.
    - apply (Hnew Htier Hsize).
      apply recipient_absent_by_scan. vm_compute. reflexivity.
    - apply (Hold Htier Hsize).
      apply recipient_present_by_scan. vm_compute. reflexivity. }
  split; [vm_compute; reflexivity|].
  split; [apply recipient_present_by_scan; vm_compute; reflexivity|].
  split; [rewrite Hcount0; exact Hdistinct0|].
  split.
  { apply (Hexpired Htier').
    - rewrite <- Hsize0', Hcount0. exact Hdistinct0.
    - apply recipient_absent_by_scan. vm_compute. reflexivity. }
  split; [rewrite Hcount251; exact Hdistinct251|].
  split.
  { apply Hallowed. right. rewrite Hlimit, Htier', Hdistinct251. simpl. lia. }
  rewrite Hkept. vm_compute. reflexivity.
Defined.

(** C2, as stated, fails when evaluations and registrations of one number
    interleave.  Number [A] holds 249 distinct recipients at tier
    TIER_250; recipients #250 and #251 are both evaluated, and both
    allowed, before either send is registered.  Every registration
    follows an allowed evaluation of its own pair, and the number ends
    with 251 distinct in-window recipients. *)
Lemma interleaved_evaluations_exceed_limit :
  storeWellKeyed nearlyFullStates
  ∧ storeRespectsLimits nearlyFullStates
  ∧ size (uniqueRecipients (storedSends nearlyFullStates "A")) = 249%nat
  ∧ allowed (fst (evaluateMessagingLimit nearlyFullStates "A" (scenarioRecipient 250) 250))
    = true
  ∧ allowed
      (fst (evaluateMessagingLimit
              (snd (evaluateMessagingLimit nearlyFullStates "A" (scenarioRecipient 250) 250))
              "A" (scenarioRecipient 251) 251))
    = true
  ∧ match runEvaluated interleavedOps (nearlyFullStates, []) with
    | Some (states', _) =>
        sum_tier (fst (getMessagingSummaryForPhone states' "A" 254)) = TIER_250
        ∧ sum_limitUniqueRecipients (fst (getMessagingSummaryForPhone states' "A" 254))
          = Finite 250
        ∧ sum_windowUniqueRecipients (fst (getMessagingSummaryForPhone states' "A" 254))
          = 251%nat
        ∧ withinLimit
            (sum_windowUniqueRecipients (fst (getMessagingSummaryForPhone states' "A" 254)))
            (sum_limitUniqueRecipients (fst (getMessagingSummaryForPhone states' "A" 254)))
          = false
    | None => False
    end
  ∧ runOps interleavedOps (nearlyFullStates, []) = None.
Proof.
  split; [apply (bool_decide_unpack _); vm_compute; exact I|].
  split; [apply (bool_decide_unpack _); vm_compute; exact I|].
  split; [vm_compute; reflexivity|].
  split; [vm_compute; reflexivity|].
  split; [vm_compute; reflexivity|].
  split; [vm_compute; repeat split; reflexivity|].
  vm_compute. reflexivity.
Qed.

(** C2, amended: in every run in which a send is registered for a
    (number, recipient) pair only after [evaluateMessagingLimit] allowed
    that pair, no other send having been registered for the number in
    between, the distinct recipients among a number's stored send events,
    and so among its in-window ones at any time, never strictly exceed
    the number's tier limit, whatever the instant the window is taken
    at; [registerSend] itself checks nothing and always appends the
    event. *)
Theorem messaging_limit_never_exceeded
  (states states' : States) (lic' : Licences) (ops : list Op) :
  storeWellKeyed states →
  storeRespectsLimits states →
  runOps ops (states, []) = Some (states', lic') →
  storeRespectsLimits states'
  ∧ (∀ pid now,
       withinLimit
         (sum_windowUniqueRecipients (fst (getMessagingSummaryForPhone states' pid now)))
         (sum_limitUniqueRecipients (fst (getMessagingSummaryForPhone states' pid now)))
       = true)
  ∧ (∀ pid recipient cat now,
       storedSends (snd (registerSend states' pid recipient cat now)) pid
       = storedSends states' pid
         ++ [ {| to := recipient; category := cat; timestamp := now;
                 costUsd := CATEGORY_COST cat |} ])
  ∧ (∀ pid s now,
       states' !! pid = Some s →
       match TIER_LIMITS (tier s) with
       | Finite limit =>
           Z.of_nat
             (length (remove_dups
                        (map to (List.filter
                                   (fun e => bool_decide (now - windowMs s ≤ timestamp e))
                                   (sends s)))))
           ≤ limit
       | Infinite => True
       end).
Proof.
  intros Hkey Hresp Hrun.
  assert (Hinv : runInvariant (states, [])) by (split; [done|split; [done|constructor]]).
  destruct (runOps_invariant ops _ _ Hinv Hrun) as (_ & Hresp' & _). simpl in Hresp'.
  split; [exact Hresp'|]. split; [|split].
  - intros pid now. by apply summary_within.
  - intros pid recipient cat now. rewrite registerSend_storedSends.
    unfold registerSend. by destruct (getOrCreateState pid states').
  - intros pid s now Hs. pose proof (Hresp' _ _ Hs) as Hwithin.
    unfold respectsLimit, withinLimit in Hwithin.
    destruct (TIER_LIMITS (tier s)) as [limit|]; [|done].
    apply Z.leb_le in Hwithin.
    rewrite <- size_uniqueRecipients_distinct.
    pose proof (size_uniqueRecipients_filter
                  (fun e => bool_decide (now - windowMs s ≤ timestamp e)) (sends s)).
    lia.
Qed.

(** From the scenario store: recipient #251 is evaluated and refused,
    recipient #17 is evaluated, allowed and registered, and number [A]
    stays at 250 distinct recipients; registering #251 after its refusal
    is not a licensed run, and a bare [registerSend] to it stores a 251st
    recipient. *)
Lemma messaging_limit_never_exceeded_scenario :
  (∃ states' lic',
     runOps scenarioOps (scenarioStates, []) = Some (states', lic')
     ∧ storeRespectsLimits states'
     ∧ sum_windowUniqueRecipients (fst (getMessagingSummaryForPhone states' "A" 255))
       = 250%nat
     ∧ length (storedSends states' "A") = 251%nat)
  ∧ runOps [ OpEvaluate "A" (scenarioRecipient 251) 251;
             OpRegister "A" (scenarioRecipient 251) MARKETING 252 ] (scenarioStates, [])
    = None
  ∧ size (uniqueRecipients
            (storedSends
               (snd (registerSend scenarioStates "A" (scenarioRecipient 251) MARKETING 251))
               "A")) = 251%nat.
Proof.
  assert (Hkey : storeWellKeyed scenarioStates)
    by (apply (bool_decide_unpack _); vm_compute; exact I).
  assert (Hresp : storeRespectsLimits scenarioStates)
    by (apply (bool_decide_unpack _); vm_compute; exact I).
  split; [|split; vm_compute; reflexivity].
  assert (Hfacts :
    match runOps scenarioOps (scenarioStates, []) with
    | Some (st, _) =>
        sum_windowUniqueRecipients (fst (getMessagingSummaryForPhone st "A" 255)) = 250%nat
        ∧ length (storedSends st "A") = 251%nat
    | None => False
    end) by (vm_compute; split; reflexivity).
  assert (Hsome : is_Some (runOps scenarioOps (scenarioStates, [])))
    by (apply (bool_decide_unpack _); vm_compute; exact I).
  destruct Hsome as [[states' lic'] Hrun]. rewrite Hrun in Hfacts.
  exists states', lic'. split; [exact Hrun|]. split; [|exact Hfacts].
  apply (messaging_limit_never_exceeded scenarioStates states' lic' scenarioOps
           Hkey Hresp Hrun).
Defined.

End MessagingLimitClaims.

(** ** Capped logs *)

Section RingFacts.

Context {A : Type}.

Implicit Types (l : list A) (cap : nat).

Lemma capRing_drop cap l : capRing cap l = drop (length l - cap) l.
Proof.
  unfold capRing. destruct (Nat.ltb_spec cap (length l)) as [H|H]; [done|].
  by replace (length l - cap)%nat with 0%nat by lia.
Qed.

Lemma capRing_length cap l : length (capRing cap l) = Nat.min cap (length l).
Proof. rewrite capRing_drop, length_drop. lia. Qed.

Lemma capRing_app cap l1 l2 : capRing cap (capRing cap l1 ++ l2) = capRing cap (l1 ++ l2).
Proof.
  rewrite !capRing_drop, !length_app, length_drop.
  destruct (Nat.le_gt_cases (length l1) cap) as [Hle|Hgt].
  - replace (length l1 - cap)%nat with 0%nat by lia.
    by rewrite Nat.sub_0_r.
  - replace (length l1 - (length l1 - cap) + length l2 - cap)%nat
      with (length l2) by lia.
    replace (length l1 + length l2 - cap)%nat
      with ((length l1 - cap) + length l2)%nat by lia.
    rewrite <- drop_drop. f_equal.
    rewrite drop_app_le by lia. done.
Qed.

End RingFacts.

(** ** Marketing eligibility and frequency cap *)

Section FilterCounting.

Context {A : Type}.

Implicit Types (f g : A → bool) (l : list A).

Lemma filter_length_weaken f g l :
  (∀ x, f x = true → g x = true) →
  (length (List.filter f l) ≤ length (List.filter g l))%nat.
Proof.
  intros Himp. induction l as [|x l IH]; simpl; [done|].
  destruct (f x) eqn:Ef.
  - rewrite (Himp x Ef). simpl. lia.
  - destruct (g x); simpl; lia.
Qed.

Lemma filter_filter_length f g l :
  (length (List.filter f (List.filter g l)) ≤ length (List.filter f l))%nat.
Proof.
  induction l as [|x l IH]; simpl; [done|].
  destruct (g x), (f x) eqn:Ef; simpl; rewrite ?Ef; simpl; lia.
Qed.

Lemma filter_snoc_length f l x :
  (length (List.filter f (l ++ [x])) ≤ S (length (List.filter f l)))%nat.
Proof.
  rewrite List.filter_app, length_app. simpl. destruct (f x); simpl; lia.
Qed.

Lemma filter_all_pass f l : Forall (fun x => f x = true) (List.filter f l).
Proof.
  apply Forall_forall. intros x Hx. apply list_elem_of_In, filter_In in Hx. tauto.
Qed.

End FilterCounting.

Section MarketingFacts.

Import Marketing.

Implicit Types (st : Store) (op : FrequencyOp).

Lemma notBefore_mono t t' r : t ≤ t' → notBefore t' r = true → notBefore t r = true.
Proof. unfold notBefore. rewrite !Z.leb_le. lia. Qed.

Lemma insideWindow_notBefore now w r :
  insideWindow now w r = true → notBefore (now - w) r = true.
Proof. unfold insideWindow. by intros [H _]%andb_true_iff. Qed.

Lemma register_config st params now rnd :
  config (snd (registerMarketingSend st params now rnd)) = config st.
Proof. done. Qed.

Lemma register_bucket st params now rnd key :
  bucket (snd (registerMarketingSend st params now rnd)) key
  = if decide (paramsKey params = key)
    then List.filter
           (notBefore (match p_sendAt params with Some t => t | None => now end
                       - frequencyWindowMs (config st)))
           (bucket st key ++ [fst (registerMarketingSend st params now rnd)])
    else bucket st key.
Proof.
  unfold registerMarketingSend, bucket at 1, paramsKey. simpl.
  rewrite lookup_insert. destruct (decide _) as [->|Hne]; done.
Qed.

Lemma countedAt_later st t t' key : t ≤ t' → countedAt st t' key ≤ countedAt st t key.
Proof.
  intros Hle. unfold countedAt. apply inj_le, filter_length_weaken.
  intros r. apply notBefore_mono. lia.
Qed.

Lemma countedAt_register st params now rnd t key :
  countedAt (snd (registerMarketingSend st params now rnd)) t key
  ≤ countedAt st t key + (if decide (paramsKey params = key) then 1 else 0).
Proof.
  unfold countedAt. rewrite register_bucket, register_config.
  destruct (decide _) as [_|_]; [|lia].
  etransitivity; [apply inj_le, filter_filter_length|].
  etransitivity; [apply inj_le, filter_snoc_length|]. lia.
Qed.

Lemma capRespected_later st t t' : t ≤ t' → capRespected st t → capRespected st t'.
Proof.
  intros Hle H key. specialize (H key).
  pose proof (countedAt_later st t t' key Hle). lia.
Qed.

Lemma stepFrequencyOp_config run op run' :
  stepFrequencyOp run op = Some run' → config (fst run') = config (fst run).
Proof.
  destruct run as [st lic], op as [pid r now|params now rnd]; simpl.
  - by intros [= <-].
  - destruct (existsb _ lic); [|done]. by intros [= <-].
Qed.

Lemma runFrequencyOps_config ops run run' :
  runFrequencyOps ops run = Some run' → config (fst run') = config (fst run).
Proof.
  revert run. induction ops as [|op ops IH]; intros run; simpl.
  - by intros [= <-].
  - destruct (stepFrequencyOp run op) as [run1|] eqn:Hstep; [|done].
    intros Hrun. rewrite (IH _ Hrun). by apply stepFrequencyOp_config with op.
Qed.

Lemma runFrequencyOps_invariant ops run run' t :
  clockOrdered t ops = true →
  frequencyInvariant t run →
  runFrequencyOps ops run = Some run' →
  frequencyInvariant (lastClock t ops) run'.
Proof.
  revert run t. induction ops as [|op ops IH]; intros [st lic] t Hord Hinv Hrun.
  - simpl in Hrun. by injection Hrun as <-.
  - destruct Hinv as [Hcap Hlic]. simpl in Hcap, Hlic.
    destruct op as [pid r now|params now rnd];
      [simpl in Hord, Hrun |- *
      |cbn [clockOrdered lastClock runFrequencyOps stepFrequencyOp] in Hord, Hrun |- *].
    + apply andb_true_iff in Hord as [Hle Hrest]. apply Z.leb_le in Hle.
      apply (IH _ now Hrest) in Hrun; [done|].
      split; [by apply capRespected_later with t|]. simpl.
      assert (Hkept : Forall (fun key => countedAt st now key < maxSendsPerWindow (config st)) lic).
      { eapply Forall_impl; [exact Hlic|]. simpl. intros key Hkey.
        pose proof (countedAt_later st t now key Hle). lia. }
      fold (countedAt st now (getFrequencyKey pid r)).
      destruct (Z.ltb_spec (countedAt st now (getFrequencyKey pid r))
                  (maxSendsPerWindow (config st))); [|done].
      by constructor.
    + destruct (existsb (String.eqb (paramsKey params)) lic) eqn:Hlicensed; [|done].
      apply (IH _ t Hord) in Hrun; [done|].
      apply existsb_exists in Hlicensed as (k & Hk & Heq). apply String.eqb_eq in Heq.
      subst k. rewrite Forall_forall in Hlic.
      pose proof (Hlic _ (proj2 (list_elem_of_In _ _) Hk)) as Hroom. simpl in Hroom.
      split; cbn [fst snd].
      * intros key. pose proof (countedAt_register st params now rnd t key) as Hstep.
        rewrite register_config. specialize (Hcap key).
        destruct (decide (paramsKey params = key)) as [<-|Hne]; lia.
      * apply Forall_forall. intros key Hin.
        apply list_elem_of_In, filter_In in Hin as [Hin Hne]. simpl in Hne.
        apply negb_true_iff, String.eqb_neq in Hne.
        pose proof (countedAt_register st params now rnd t key) as Hstep.
        rewrite register_config.
        pose proof (Hlic _ (proj2 (list_elem_of_In _ _) Hin)) as Hkey. simpl in Hkey.
        destruct (decide (paramsKey params = key)) as [Heq|_]; [done|lia].
Qed.

Lemma evaluate_sendsInWindow st pid r now :
  sendsInWindow (evaluateMarketingFrequency st pid r now)
  = length (List.filter (notBefore (now - frequencyWindowMs (config st)))
              (bucket st (getFrequencyKey pid r))).
Proof. done. Qed.

Lemma sendsInsideWindow_le st pid r now :
  (sendsInsideWindow st pid r now
   ≤ sendsInWindow (evaluateMarketingFrequency st pid r now))%nat.
Proof.
  rewrite evaluate_sendsInWindow. unfold sendsInsideWindow.
  apply filter_length_weaken. intros x. apply insideWindow_notBefore.
Qed.

End MarketingFacts.

Section MarketingClaims.

Import Marketing.

(** C6: [evaluateMarketingEligibility] rejects a contact whose status is
    opted_out, allows one whose status is opted_in, and for a contact of
    status unknown or without a record allows exactly when the
    [requireOptIn] flag is off; with [requireOptIn] on and no record the
    result is [allowed = false] with status unknown. *)
Theorem evaluateMarketingEligibility_policy (st : Store) (wa : string) :
  let e := evaluateMarketingEligibility st wa in
  let recorded := status <$> contacts st !! wa in
  (recorded = Some opted_out → el_allowed e = false)
  ∧ (recorded = Some opted_in → el_allowed e = true)
  ∧ (recorded = Some unknown ∨ recorded = None →
     el_allowed e = negb (requireOptIn (config st)))
  ∧ (recorded = None → requireOptIn (config st) = true →
     el_allowed e = false ∧ el_status e = unknown)
  ∧ el_status e = default unknown recorded
  ∧ el_contact e = contacts st !! wa.
Proof.
  intros e recorded. subst e recorded. unfold evaluateMarketingEligibility.
  destruct (contacts st !! wa) as [c|] eqn:Hc; simpl.
  - destruct (status c) eqn:Hs; simpl;
      (split; [|split; [|split; [|split; [|split]]]]); try done;
      intros [?|?]; done.
  - split; [done|]. split; [done|]. split; [done|].
    split; [|done]. intros _ Hreq. by rewrite Hreq.
Qed.

(** With the initial configuration ([requireOptIn] on) and no contact
    record the contact is rejected with status unknown; once it opts in
    it is allowed, and once it opts out it is rejected. *)
Lemma evaluateMarketingEligibility_scenario :
  let optedIn := snd (upsertMarketingContact initialStore "5511999" (Some opted_in) None None 10) in
  let optedOut := snd (upsertMarketingContact optedIn "5511999" (Some opted_out) None None 20) in
  (el_allowed (evaluateMarketingEligibility initialStore "5511999") = false
   ∧ el_status (evaluateMarketingEligibility initialStore "5511999") = unknown)
  ∧ el_allowed (evaluateMarketingEligibility optedIn "5511999") = true
  ∧ el_allowed (evaluateMarketingEligibility optedOut "5511999") = false.
Proof.
  intros optedIn optedOut.
  pose proof (evaluateMarketingEligibility_policy initialStore "5511999")
    as (_ & _ & _ & Hnone & _).
  pose proof (evaluateMarketingEligibility_policy optedIn "5511999")
    as (_ & Hin & _).
  pose proof (evaluateMarketingEligibility_policy optedOut "5511999")
    as (Hout & _).
  split; [apply Hnone; reflexivity|].
  split; [apply Hin; reflexivity|apply Hout; reflexivity].
Defined.

(** C7, as stated, fails: a send scheduled after [now] lies outside
    [[now - window, now]], so no send of the pair lies inside the window
    and the count is below the cap of 1, yet the evaluation counts it and
    refuses. *)
Lemma evaluateMarketingFrequency_counts_scheduled_sends :
  sendsInsideWindow scheduledStore "A" "r" 1000 = 0%nat
  ∧ maxSendsPerWindow (config scheduledStore) = 1
  ∧ sendsInWindow (evaluateMarketingFrequency scheduledStore "A" "r" 1000) = 1%nat
  ∧ allowed (evaluateMarketingFrequency scheduledStore "A" "r" 1000) = false.
Proof. vm_compute. repeat split; reflexivity. Qed.

(** C7, amended: [evaluateMarketingFrequency] counts the bucket's records
    whose effective time (scheduledFor when present, otherwise the send
    time) is at or after [now - window], records scheduled after [now]
    included, and allows exactly when that count is strictly below
    [maxSendsPerWindow]; consequently, in every run where a send is
    registered only after an evaluation of its bucket allowed it, with no
    other send registered into the bucket in between and an evaluation
    clock that never runs backwards, that count, and with it the number of
    sends inside [[now - window, now]], never exceeds [maxSendsPerWindow]. *)
Theorem marketing_frequency_cap :
  (∀ (st : Store) (pid recipient : string) (now : Z),
     let e := evaluateMarketingFrequency st pid recipient now in
     sendsInWindow e
     = length (List.filter
                 (fun r => now - frequencyWindowMs (config st)
                           <=? match scheduledFor r with
                               | Some at_ => at_
                               | None => sendTimestamp r
                               end)
                 (bucket st (getFrequencyKey pid recipient)))
     ∧ allowed e = (Z.of_nat (sendsInWindow e) <? maxSendsPerWindow (config st))
     ∧ (sendsInsideWindow st pid recipient now ≤ sendsInWindow e)%nat)
  ∧ (∀ (st st' : Store) (lic' : list string) (t0 : Z) (ops : list FrequencyOp)
       (now : Z) (pid recipient : string),
       capRespected st t0 →
       clockOrdered t0 ops = true →
       runFrequencyOps ops (st, []) = Some (st', lic') →
       lastClock t0 ops ≤ now →
       Z.of_nat (sendsInWindow (evaluateMarketingFrequency st' pid recipient now))
       ≤ maxSendsPerWindow (config st)
       ∧ Z.of_nat (sendsInsideWindow st' pid recipient now) ≤ maxSendsPerWindow (config st)).
Proof.
  split.
  - intros st pid recipient now e. subst e.
    split; [reflexivity|]. split; [reflexivity|]. apply sendsInsideWindow_le.
  - intros st st' lic' t0 ops now pid recipient Hcap Hord Hrun Hnow.
    assert (Hinv : frequencyInvariant t0 (st, [])) by (split; [done|constructor]).
    destruct (runFrequencyOps_invariant ops _ _ t0 Hord Hinv Hrun) as [Hcap' _].
    pose proof (runFrequencyOps_config ops _ _ Hrun) as Hcfg. simpl in Hcap', Hcfg.
    apply (capRespected_later _ _ now Hnow) in Hcap'.
    specialize (Hcap' (getFrequencyKey pid recipient)).
    unfold countedAt in Hcap'. rewrite Hcfg in Hcap'.
    rewrite evaluate_sendsInWindow, Hcfg.
    split; [exact Hcap'|].
    pose proof (sendsInsideWindow_le st' pid recipient now) as Hle.
    rewrite evaluate_sendsInWindow, Hcfg in Hle. lia.
Qed.

(** Two requests within one day and one a day later: the second is
    refused, two sends are registered, and the bucket of the pair never
    holds more than one counted send; registering after the refusal is
    not a run the caller's ordering permits. *)
Lemma marketing_frequency_cap_scenario :
  (∃ st' lic',
     runFrequencyOps scenarioOps (initialStore, []) = Some (st', lic')
     ∧ Z.of_nat (sendsInWindow (evaluateMarketingFrequency st' "A" "r" 90000002)) ≤ 1
     ∧ Z.of_nat (sendsInsideWindow st' "A" "r" 90000002) ≤ 1
     ∧ length (sends st') = 2%nat)
  ∧ runFrequencyOps
      [ FreqEvaluate "A" "r" 1000;
        FreqRegister (sendParams "A" "r" None) 1001 "aaaaaa";
        FreqEvaluate "A" "r" 2000;
        FreqRegister (sendParams "A" "r" None) 2001 "bbbbbb" ] (initialStore, [])
    = None.
Proof.
  split; [|reflexivity].
  assert (Hcap : capRespected initialStore 0) by (intros key; vm_compute; discriminate).
  destruct marketing_frequency_cap as [_ Hbound].
  eexists _, _. split; [reflexivity|].
  destruct (Hbound initialStore _ _ 0 scenarioOps 90000002 "A" "r" Hcap eq_refl eq_refl)
    as [H1 H2]; [vm_compute; discriminate|].
  split; [exact H1|]. split; [exact H2|reflexivity].
Defined.

(** The bucket is pruned relative to the effective time of the send
    being registered: a send scheduled ten days ahead evicts the two
    records of the current day, after which two more sends are allowed;
    the bucket then counts three records, the cap, while the ledger holds
    four sends of the pair inside the last day. *)
Lemma scheduled_send_evicts_in_window_records :
  ∃ st' lic',
    runFrequencyOps evictionOps (capOfThree, []) = Some (st', lic')
    ∧ maxSendsPerWindow (config st') = 3
    ∧ sendsInWindow (evaluateMarketingFrequency st' "A" "r" 1300) = 3%nat
    ∧ allowed (evaluateMarketingFrequency st' "A" "r" 1300) = false
    ∧ ledgerInsideWindow st' "A" "r" 1300 = 4%nat.
Proof.
  eexists _, _. split; [reflexivity|]. vm_compute. repeat split; reflexivity.
Qed.

(** The capped logs never exceed their cap: after [registerMarketingSend]
    the ledger holds at most 500 records, whatever it held before. *)
Lemma marketing_ledger_capped (st : Store) (params : RegisterParams) (now : Z) (rnd : string) :
  (length (sends (snd (registerMarketingSend st params now rnd))) ≤ 500)%nat.
Proof.
  unfold registerMarketingSend. cbn [snd sends]. rewrite capRing_length. lia.
Qed.

End MarketingClaims.

(** ** Webhook target resolver and phone lifecycle *)

Section WebhookRoutingFacts.

Import WebhookRouting.

Implicit Types (phones : Phones) (wabas : Wabas) (p phone : PhoneNumberConfig).

Lemma storePhone_lookup key p phones : storePhone key p phones !! key = Some p.
Proof.
  unfold storePhone. destruct (decide (id p = key)) as [->|Hne].
  - apply lookup_insert_eq.
  - rewrite lookup_insert_ne by done. apply lookup_insert_eq.
Qed.

Lemma firstAnswer_app l1 l2 :
  firstAnswer (l1 ++ l2)
  = match firstAnswer l1 with
    | Some a => Some a
    | None => firstAnswer l2
    end.
Proof.
  induction l1 as [|[t [u|]] l1 IH]; simpl; done.
Qed.

Lemma firstAnswer_None l :
  firstAnswer l = None ↔ Forall (fun t => snd t = None) l.
Proof.
  induction l as [|[t [u|]] l IH]; simpl.
  - split; [constructor|done].
  - split; [done|]. intros H. inversion H. done.
  - rewrite IH. split; [by constructor|]. intros H. by inversion H.
Qed.

Lemma resolveViaPhone_tiers cfg wabas phones phoneNumberId :
  targetView <$> resolveViaPhone wabas phones phoneNumberId
  = answerView cfg
    <$> firstAnswer [ (TierPhone, tierPhone phones phoneNumberId);
                      (TierPhoneWaba, tierPhoneWaba wabas phones phoneNumberId) ].
Proof.
  unfold resolveViaPhone, tierPhone, tierPhoneWaba.
  destruct (whenTruthy phoneNumberId) as [pid|]; [|done].
  destruct (phones !! pid) as [phone|]; [|done].
  destruct (phoneOverrideUri phone) as [uri|]; [done|].
  destruct (whenTruthy (phone_wabaId phone)) as [wid|]; [|done].
  destruct (wabaOverride wabas wid) as [[waba uri]|]; done.
Qed.

Lemma resolveViaWaba_tier cfg wabas optWabaId :
  targetView <$> resolveViaWaba wabas optWabaId
  = answerView cfg <$> firstAnswer [ (TierRequestWaba, tierRequestWaba wabas optWabaId) ].
Proof.
  unfold resolveViaWaba, tierRequestWaba.
  destruct (whenTruthy optWabaId) as [wid|]; [|done].
  destruct (wabaOverride wabas wid) as [[waba uri]|]; done.
Qed.

Lemma resolveViaApp_tier cfg :
  targetView <$> resolveViaApp cfg
  = answerView cfg <$> firstAnswer [ (TierGlobal, tierGlobal cfg) ].
Proof.
  unfold resolveViaApp, tierGlobal.
  destruct (whenTruthy (Config.targetWebhookUrl cfg)); done.
Qed.

Lemma fmap_None_iff {A B : Type} (f : A → B) (o : option A) : f <$> o = None ↔ o = None.
Proof. destruct o; done. Qed.

Lemma pruneWindow_app l1 l2 now :
  pruneWindow (l1 ++ l2) now = pruneWindow l1 now ++ pruneWindow l2 now.
Proof. apply List.filter_app. Qed.

Lemma pruneWindow_pruneWindow l t t' :
  t ≤ t' → pruneWindow (pruneWindow l t) t' = pruneWindow l t'.
Proof.
  intros Hle. unfold pruneWindow. induction l as [|x l IH]; simpl; [done|].
  destruct (Z.leb_spec (t - REQUEST_WINDOW_MS) x) as [H1|H1]; simpl.
  - by rewrite IH.
  - rewrite IH. destruct (Z.leb_spec (t' - REQUEST_WINDOW_MS) x) as [H2|H2]; [lia|done].
Qed.

Lemma pruneWindow_all_pass l now :
  Forall (fun ts => now - REQUEST_WINDOW_MS ≤ ts) (pruneWindow l now).
Proof.
  eapply Forall_impl; [apply filter_all_pass|]. simpl. intros x. by rewrite Z.leb_le.
Qed.

Lemma pruneWindow_keeps l now :
  Forall (fun ts => now - REQUEST_WINDOW_MS ≤ ts) l → pruneWindow l now = l.
Proof.
  unfold pruneWindow. induction 1 as [|x l Hx Hl IH]; simpl; [done|].
  destruct (Z.leb_spec (now - REQUEST_WINDOW_MS) x); [by rewrite IH|lia].
Qed.

Lemma pruneWindow_subset l now x : x ∈ pruneWindow l now → x ∈ l.
Proof. intros H. apply list_elem_of_In, filter_In in H. apply list_elem_of_In. tauto. Qed.

Lemma filter_insideWindow_pruned from now l :
  now ≤ from + REQUEST_WINDOW_MS →
  List.filter (insideWindowFrom from) (pruneWindow l now)
  = List.filter (insideWindowFrom from) l.
Proof.
  intros Hle. unfold pruneWindow. induction l as [|x l IH]; simpl; [done|].
  destruct (Z.leb_spec (now - REQUEST_WINDOW_MS) x) as [H1|H1]; simpl.
  - by rewrite IH.
  - rewrite IH. unfold insideWindowFrom at 2.
    destruct (Z.leb_spec from x); [lia|done].
Qed.

Lemma filter_insideWindow_later from t l :
  from + REQUEST_WINDOW_MS < t → Forall (fun s => t ≤ s) l →
  List.filter (insideWindowFrom from) l = [].
Proof.
  intros Hlt. induction 1 as [|x l Hx Hl IH]; simpl; [done|].
  unfold insideWindowFrom at 1.
  destruct (Z.leb_spec x (from + REQUEST_WINDOW_MS)); [lia|].
  by rewrite andb_false_r.
Qed.

Lemma fold_min_le rest x : fold_left Z.min rest x ≤ x.
Proof.
  revert x. induction rest as [|y rest IH]; intros x; simpl; [lia|].
  specialize (IH (Z.min x y)). lia.
Qed.

Lemma fold_min_lower rest x : Forall (fun y => fold_left Z.min rest x ≤ y) rest.
Proof.
  revert x. induction rest as [|y rest IH]; intros x; simpl; constructor.
  - pose proof (fold_min_le rest (Z.min x y)). lia.
  - apply IH.
Qed.

Lemma fold_min_elem rest x : fold_left Z.min rest x ∈ x :: rest.
Proof.
  revert x. induction rest as [|y rest IH]; intros x; simpl; [by left|].
  specialize (IH (Z.min x y)).
  apply elem_of_cons in IH as [Heq|Hin].
  - rewrite Heq. destruct (Z.min_spec x y) as [[_ ->]|[_ ->]]; [by left|right; by left].
  - by do 2 right.
Qed.

Lemma minOf_spec l m :
  minOf l = Some m → m ∈ l ∧ Forall (fun y => m ≤ y) l.
Proof.
  destruct l as [|x rest]; simpl; [done|]. intros [= <-]. split.
  - apply fold_min_elem.
  - constructor; [apply fold_min_le|apply fold_min_lower].
Qed.

Lemma minOf_nonempty l : (0 < length l)%nat → is_Some (minOf l).
Proof. destruct l; simpl; [lia|eauto]. Qed.

Lemma register_effect phones pid pin region now p :
  phones !! pid = Some p →
  ∃ p',
    snd (registerPhoneNumber phones pid pin region now) !! pid = Some p'
    ∧ isOk (fst (registerPhoneNumber phones pid pin region now))
      = fst (throttle (attemptsOf true p) now)
    ∧ attemptsOf true p' = snd (throttle (attemptsOf true p) now)
    ∧ attemptsOf false p' = attemptsOf false p.
Proof.
  intros Hp. unfold registerPhoneNumber, throttle, attemptsOf. rewrite Hp.
  destruct (REQUEST_LIMIT <=? _)%nat; simpl; eexists;
    (split; [apply storePhone_lookup|done]).
Qed.

Lemma deregister_effect phones pid now p :
  phones !! pid = Some p →
  ∃ p',
    snd (deregisterPhoneNumber phones pid now) !! pid = Some p'
    ∧ isOk (fst (deregisterPhoneNumber phones pid now))
      = fst (throttle (attemptsOf false p) now)
    ∧ attemptsOf false p' = snd (throttle (attemptsOf false p) now)
    ∧ attemptsOf true p' = attemptsOf true p.
Proof.
  intros Hp. unfold deregisterPhoneNumber, throttle, attemptsOf. rewrite Hp.
  destruct (REQUEST_LIMIT <=? _)%nat; simpl; eexists;
    (split; [apply storePhone_lookup|done]).
Qed.

Lemma applyPhoneOp_effect pid phones op p kind :
  phones !! pid = Some p →
  ∃ p',
    snd (applyPhoneOp pid phones op) !! pid = Some p'
    ∧ attemptsOf kind p'
      = (if Bool.eqb (isRegister op) kind
         then snd (throttle (attemptsOf kind p) (opTime op))
         else attemptsOf kind p)
    ∧ (Bool.eqb (isRegister op) kind = true →
       isOk (fst (applyPhoneOp pid phones op))
       = fst (throttle (attemptsOf kind p) (opTime op))).
Proof.
  intros Hp. destruct op as [pin region now|now]; simpl.
  - destruct (register_effect phones pid pin region now p Hp) as (p' & H1 & H2 & H3 & H4).
    exists p'. split; [done|]. destruct kind; simpl; split; done.
  - destruct (deregister_effect phones pid now p Hp) as (p' & H1 & H2 & H3 & H4).
    exists p'. split; [done|]. destruct kind; simpl; split; done.
Qed.

Lemma successTimes_cons kind op r log :
  successTimes kind ((op, r) :: log)
  = (if Bool.eqb (isRegister op) kind && isOk r then [opTime op] else [])
    ++ successTimes kind log.
Proof.
  unfold successTimes. simpl. by destruct (Bool.eqb (isRegister op) kind && isOk r).
Qed.

Lemma runPhoneOps_cons pid op ops phones :
  runPhoneOps pid (op :: ops) phones
  = ((op, fst (applyPhoneOp pid phones op))
       :: fst (runPhoneOps pid ops (snd (applyPhoneOp pid phones op))),
     snd (runPhoneOps pid ops (snd (applyPhoneOp pid phones op)))).
Proof.
  simpl. destruct (applyPhoneOp pid phones op) as [r phones1]. simpl.
  by destruct (runPhoneOps pid ops phones1).
Qed.

Lemma timeOrdered_lastTime t0 ops : timeOrdered t0 ops = true → t0 ≤ lastTime t0 ops.
Proof.
  revert t0. induction ops as [|op ops IH]; intros t0; simpl; [lia|].
  intros [H1 H2]%andb_true_iff. apply Z.leb_le in H1.
  specialize (IH _ H2). unfold lastTime in *. lia.
Qed.

Lemma timeOrdered_app t0 ops1 ops2 :
  timeOrdered t0 (ops1 ++ ops2)
  = timeOrdered t0 ops1 && timeOrdered (lastTime t0 ops1) ops2.
Proof.
  revert t0. induction ops1 as [|op ops1 IH]; intros t0; simpl; [done|].
  by rewrite IH, andb_assoc.
Qed.

Lemma successTimes_bounds pid kind ops phones t0 :
  timeOrdered t0 ops = true →
  Forall (fun s => t0 ≤ s ≤ lastTime t0 ops)
    (successTimes kind (fst (runPhoneOps pid ops phones))).
Proof.
  revert phones t0. induction ops as [|op ops IH]; intros phones t0 Hord.
  - constructor.
  - simpl in Hord. apply andb_true_iff in Hord as [H1 H2]. apply Z.leb_le in H1.
    rewrite runPhoneOps_cons. cbn [fst]. rewrite successTimes_cons.
    pose proof (timeOrdered_lastTime _ _ H2) as Hlast.
    apply Forall_app. split.
    + destruct (_ && _); constructor; [|constructor].
      change (lastTime t0 (op :: ops)) with (lastTime (opTime op) ops). lia.
    + eapply Forall_impl; [apply (IH _ _ H2)|]. simpl. intros s.
      change (lastTime t0 (op :: ops)) with (lastTime (opTime op) ops). lia.
Qed.

Lemma attemptsBounded_later attempts t0 t :
  t0 ≤ t → attemptsBounded attempts t0 → attemptsBounded attempts t.
Proof.
  intros Hle [H1 H2]. split; [|done].
  eapply Forall_impl; [exact H1|]. simpl. lia.
Qed.

Lemma attemptsBounded_throttle attempts t0 t :
  t0 ≤ t → attemptsBounded attempts t0 →
  attemptsBounded (snd (throttle attempts t)) t.
Proof.
  intros Hle [H1 H2]. unfold throttle.
  assert (Hkept : Forall (fun a => a ≤ t) (pruneWindow attempts t)).
  { apply Forall_forall. intros x Hx%pruneWindow_subset.
    rewrite Forall_forall in H1. specialize (H1 x Hx). lia. }
  destruct (Nat.leb_spec REQUEST_LIMIT (length (pruneWindow attempts t))) as [Hfull|Hroom];
    simpl; split.
  - done.
  - intros from. etransitivity; [apply filter_filter_length|apply H2].
  - apply Forall_app. split; [done|]. by repeat constructor.
  - intros from. etransitivity; [apply List.filter_length_le|].
    rewrite length_app. simpl. unfold REQUEST_LIMIT in *. lia.
Qed.

Lemma successes_window_bound pid kind ops phones p t0 from :
  phones !! pid = Some p →
  attemptsBounded (attemptsOf kind p) t0 →
  timeOrdered t0 ops = true →
  (length (List.filter (insideWindowFrom from)
             (attemptsOf kind p ++ successTimes kind (fst (runPhoneOps pid ops phones))))
   ≤ REQUEST_LIMIT)%nat.
Proof.
  revert phones p t0. induction ops as [|op ops IH]; intros phones p t0 Hp Hb Hord.
  - simpl. rewrite app_nil_r. apply Hb.
  - simpl in Hord. apply andb_true_iff in Hord as [Hle Hrest]. apply Z.leb_le in Hle.
    rewrite runPhoneOps_cons. cbn [fst]. rewrite successTimes_cons.
    destruct (applyPhoneOp_effect pid phones op p kind Hp) as (p' & Hp' & Hatt & Hok).
    pose proof (successTimes_bounds pid kind ops (snd (applyPhoneOp pid phones op)) _ Hrest)
      as Hafter.
    destruct (Bool.eqb (isRegister op) kind) eqn:Hkind; cbn [andb].
    + specialize (Hok eq_refl).
      assert (Hb' : attemptsBounded (attemptsOf kind p') (opTime op))
        by (rewrite Hatt; by apply attemptsBounded_throttle with t0).
      specialize (IH _ _ _ Hp' Hb' Hrest). rewrite Hatt in IH.
      rewrite Hok. unfold throttle in *.
      assert (Hlater : Forall (fun s => opTime op ≤ s)
                (successTimes kind
                   (fst (runPhoneOps pid ops (snd (applyPhoneOp pid phones op)))))).
      { eapply Forall_impl; [exact Hafter|]. simpl. lia. }
      destruct (REQUEST_LIMIT <=? length (pruneWindow (attemptsOf kind p) (opTime op)))%nat;
        cbn [fst snd app] in *;
        destruct (Z.lt_ge_cases (from + REQUEST_WINDOW_MS) (opTime op)) as [Hout|Hin].
      * rewrite List.filter_app.
        rewrite (filter_insideWindow_later from (opTime op) (successTimes kind _))
          by done.
        rewrite app_nil_r. apply Hb.
      * rewrite List.filter_app, <- (filter_insideWindow_pruned from (opTime op)) by lia.
        rewrite <- List.filter_app. exact IH.
      * rewrite List.filter_app.
        rewrite (filter_insideWindow_later from (opTime op) (opTime op :: _)); [|done|].
        2:{ constructor; [lia|done]. }
        rewrite app_nil_r. apply Hb.
      * rewrite List.filter_app, <- (filter_insideWindow_pruned from (opTime op)) by lia.
        rewrite <- List.filter_app. rewrite <- app_assoc in IH. exact IH.
    + simpl. rewrite <- Hatt. apply (IH _ p' (opTime op)); [done| |done].
      rewrite Hatt. by apply attemptsBounded_later with t0.
Qed.

Lemma run_attempts_pruned pid kind ops phones p t0 t :
  phones !! pid = Some p →
  timeOrdered t0 ops = true →
  lastTime t0 ops ≤ t →
  ∃ p',
    snd (runPhoneOps pid ops phones) !! pid = Some p'
    ∧ pruneWindow (attemptsOf kind p') t
      = pruneWindow
          (attemptsOf kind p ++ successTimes kind (fst (runPhoneOps pid ops phones))) t.
Proof.
  revert phones p t0. induction ops as [|op ops IH]; intros phones p t0 Hp Hord Hlast.
  - exists p. simpl. by rewrite app_nil_r.
  - simpl in Hord. apply andb_true_iff in Hord as [Hle Hrest]. apply Z.leb_le in Hle.
    rewrite runPhoneOps_cons. cbn [fst snd]. rewrite successTimes_cons.
    destruct (applyPhoneOp_effect pid phones op p kind Hp) as (p1 & Hp1 & Hatt & Hok).
    change (lastTime t0 (op :: ops)) with (lastTime (opTime op) ops) in Hlast.
    pose proof (timeOrdered_lastTime _ _ Hrest) as Hmono.
    destruct (IH _ _ _ Hp1 Hrest Hlast) as (p' & Hp' & Hpruned).
    exists p'. split; [done|]. rewrite Hpruned, Hatt.
    destruct (Bool.eqb (isRegister op) kind) eqn:Hkind; cbn [andb]; [|done].
    rewrite (Hok eq_refl). unfold throttle.
    rewrite !pruneWindow_app.
    destruct (REQUEST_LIMIT <=? _)%nat; simpl.
    + rewrite pruneWindow_pruneWindow by lia. done.
    + rewrite pruneWindow_app, pruneWindow_pruneWindow by lia.
      by rewrite <- app_assoc.
Qed.

Lemma retryAfter_bounds oldest now :
  oldest ≤ now →
  0 ≤ Z.max 0 (oldest + REQUEST_WINDOW_MS - now) ≤ REQUEST_WINDOW_MS.
Proof. unfold REQUEST_WINDOW_MS. lia. Qed.

Lemma rate_limited_result pid phones op p :
  phones !! pid = Some p →
  (REQUEST_LIMIT ≤ length (pruneWindow (attemptsOf (isRegister op) p) (opTime op)))%nat →
  fst (applyPhoneOp pid phones op)
  = RegFail rate_limited
      ((fun o => Z.max 0 (o + REQUEST_WINDOW_MS - opTime op))
         <$> minOf (pruneWindow (attemptsOf (isRegister op) p) (opTime op)))
      (Some (length (pruneWindow (attemptsOf (isRegister op) p) (opTime op)))).
Proof.
  intros Hp Hfull. apply Nat.leb_le in Hfull.
  destruct op as [pin region now|now]; cbn [applyPhoneOp isRegister opTime] in *;
    unfold registerPhoneNumber, deregisterPhoneNumber, attemptsOf in *;
    rewrite Hp, Hfull; done.
Qed.

Lemma verifyPhoneNumberCode_cases phones pid given :
  (∃ phone pending,
     phones !! pid = Some phone
     ∧ pendingVerificationCode phone = Some pending
     ∧ code pending = given
     ∧ verifyPhoneNumberCode phones pid given
       = (true, storePhone pid (withVerification phone VERIFIED None) phones))
  ∨ ((¬ ∃ phone pending,
          phones !! pid = Some phone
          ∧ pendingVerificationCode phone = Some pending
          ∧ code pending = given)
     ∧ verifyPhoneNumberCode phones pid given = (false, phones)).
Proof.
  unfold verifyPhoneNumberCode.
  destruct (phones !! pid) as [phone|] eqn:Hp.
  2:{ right. split; [|done]. by intros (? & ? & ? & _). }
  destruct (pendingVerificationCode phone) as [pending|] eqn:Hpending.
  2:{ right. split; [|done]. intros (? & ? & [= <-] & ? & _). congruence. }
  destruct (String.eqb_spec (code pending) given) as [Heq|Hne]; simpl.
  - left. by exists phone, pending.
  - right. split; [|done]. intros (? & ? & [= <-] & Hq & Hc). congruence.
Qed.

End WebhookRoutingFacts.

Section WebhookRoutingClaims.

Import WebhookRouting.

(** C4, as stated, fails: a request that names phone [Q], which has no
    override and no WABA, together with WABA [W] is answered by the
    override of [W], whereas the stated precedence reserves that tier for
    requests without a phone id and so falls through to the global
    default. *)
Lemma resolveWebhookTarget_waba_tier_with_phone_id :
  targetView <$> resolveWebhookTarget scenarioConfig scenarioWabas scenarioPhones
                   (Some "Q") (Some "W")
  = Some ("https://w", source_waba, None)
  ∧ firstAnswer (precedenceAsSpecified scenarioConfig scenarioWabas scenarioPhones
                   (Some "Q") (Some "W"))
    = Some (TierGlobal, "https://g").
Proof. vm_compute. split; reflexivity. Qed.

(** C4, amended: [resolveWebhookTarget] answers with the first of (1) the
    referenced phone's own override callback, (2) the override callback of
    that phone's WABA, (3) the override callback of the WABA named in the
    request, whether or not a phone id was given as well, (4) the global
    default target URL, and returns null only when none of them applies;
    the source field names the tier that answered (phone, waba, app) and
    appSecret is populated only at the global-default tier; with phone
    override "https://p", WABA override "https://w" and global default
    "https://g", resolving with only the WABA id gives "https://w" and
    resolving with the phone id gives "https://p". *)
Theorem resolveWebhookTarget_precedence
  (cfg : Config.RuntimeConfig) (wabas : Wabas) (phones : Phones)
  (phoneNumberId optWabaId : option string) :
  targetView <$> resolveWebhookTarget cfg wabas phones phoneNumberId optWabaId
  = answerView cfg
    <$> firstAnswer (precedenceOfResolver cfg wabas phones phoneNumberId optWabaId)
  ∧ (resolveWebhookTarget cfg wabas phones phoneNumberId optWabaId = None
     ↔ Forall (fun t => snd t = None)
         (precedenceOfResolver cfg wabas phones phoneNumberId optWabaId))
  ∧ url <$> resolveWebhookTarget scenarioConfig scenarioWabas scenarioPhones None (Some "W")
    = Some "https://w"
  ∧ url <$> resolveWebhookTarget scenarioConfig scenarioWabas scenarioPhones (Some "P") None
    = Some "https://p"
  ∧ url <$> resolveWebhookTarget scenarioConfig scenarioWabas scenarioPhones (Some "P") (Some "W")
    = Some "https://p".
Proof.
  assert (Heq : targetView <$> resolveWebhookTarget cfg wabas phones phoneNumberId optWabaId
    = answerView cfg
      <$> firstAnswer (precedenceOfResolver cfg wabas phones phoneNumberId optWabaId)).
  { unfold resolveWebhookTarget, precedenceOfResolver.
    change [ (TierPhone, tierPhone phones phoneNumberId);
             (TierPhoneWaba, tierPhoneWaba wabas phones phoneNumberId);
             (TierRequestWaba, tierRequestWaba wabas optWabaId);
             (TierGlobal, tierGlobal cfg) ]
      with ([ (TierPhone, tierPhone phones phoneNumberId);
              (TierPhoneWaba, tierPhoneWaba wabas phones phoneNumberId) ]
            ++ [ (TierRequestWaba, tierRequestWaba wabas optWabaId) ]
            ++ [ (TierGlobal, tierGlobal cfg) ]).
    rewrite !firstAnswer_app.
    pose proof (resolveViaPhone_tiers cfg wabas phones phoneNumberId) as H1.
    pose proof (resolveViaWaba_tier cfg wabas optWabaId) as H2.
    pose proof (resolveViaApp_tier cfg) as H3.
    destruct (resolveViaPhone wabas phones phoneNumberId) as [r1|],
             (firstAnswer [ (TierPhone, _); (TierPhoneWaba, _) ]) as [a1|];
      try done.
    destruct (resolveViaWaba wabas optWabaId) as [r2|],
             (firstAnswer [ (TierRequestWaba, _) ]) as [a2|];
      try done. }
  split; [exact Heq|]. split.
  - rewrite <- firstAnswer_None.
    rewrite <- (fmap_None_iff targetView), Heq. apply fmap_None_iff.
  - vm_compute. repeat split; reflexivity.
Qed.

(** C5: for an existing number, [registerPhoneNumber] and, independently,
    [deregisterPhoneNumber] succeed at most 10 times within any 72-hour
    window; a call made when 10 earlier successful calls of its kind lie
    within the preceding 72 hours returns rate_limited rather than
    succeeding, with retryAfterMs computed from the oldest of those
    attempts and 0 <= retryAfterMs <= 72h; for a nonexistent number either
    operation returns not_found and leaves the store as it was. *)
Theorem register_deregister_throttle :
  (∀ (phones : Phones) (pid pin : string) (region : option string) (now : Z),
     phones !! pid = None →
     registerPhoneNumber phones pid pin region now = (RegFail not_found None None, phones)
     ∧ deregisterPhoneNumber phones pid now = (RegFail not_found None None, phones))
  ∧ (∀ (phones : Phones) (pid : string) (phone : PhoneNumberConfig)
       (ops : list PhoneOp) (t0 : Z) (registerKind : bool) (from : Z),
       phones !! pid = Some phone →
       attemptsOf registerKind phone = [] →
       timeOrdered t0 ops = true →
       (length (successesInWindow registerKind from (fst (runPhoneOps pid ops phones)))
        ≤ 10)%nat)
  ∧ (∀ (phones : Phones) (pid : string) (phone : PhoneNumberConfig)
       (earlier : list PhoneOp) (op : PhoneOp) (t0 : Z),
       phones !! pid = Some phone →
       attemptsOf (isRegister op) phone = [] →
       timeOrdered t0 (earlier ++ [op]) = true →
       let inWindow :=
         pruneWindow (successTimes (isRegister op) (fst (runPhoneOps pid earlier phones)))
           (opTime op) in
       let result := fst (applyPhoneOp pid (snd (runPhoneOps pid earlier phones)) op) in
       isOk result = (length inWindow <? 10)%nat
       ∧ ((10 ≤ length inWindow)%nat →
          ∃ oldest retryAfterMs,
            minOf inWindow = Some oldest
            ∧ retryAfterMs = Z.max 0 (oldest + REQUEST_WINDOW_MS - opTime op)
            ∧ result = RegFail rate_limited (Some retryAfterMs) (Some (length inWindow))
            ∧ 0 ≤ retryAfterMs ≤ 72 * 60 * 60 * 1000)).
Proof.
  split; [|split].
  - intros phones pid pin region now Hnone.
    unfold registerPhoneNumber, deregisterPhoneNumber. by rewrite Hnone.
  - intros phones pid phone ops t0 kind from Hp Hfresh Hord.
    pose proof (successes_window_bound pid kind ops phones phone t0 from Hp) as H.
    rewrite Hfresh in H. apply H; [|done].
    split; [constructor|]. intros w. simpl. unfold REQUEST_LIMIT. lia.
  - intros phones pid phone earlier op t0 Hp Hfresh Hord inWindow result.
    rewrite timeOrdered_app in Hord. apply andb_true_iff in Hord as [Hearlier Hop].
    simpl in Hop. rewrite andb_true_r in Hop. apply Z.leb_le in Hop.
    destruct (run_attempts_pruned pid (isRegister op) earlier phones phone t0 (opTime op)
                Hp Hearlier Hop) as (p' & Hp' & Hpruned).
    rewrite Hfresh in Hpruned. simpl in Hpruned. fold inWindow in Hpruned.
    destruct (applyPhoneOp_effect pid _ op p' (isRegister op) Hp') as (_ & _ & _ & Hok).
    rewrite Bool.eqb_reflx in Hok. specialize (Hok eq_refl). fold result in Hok.
    split.
    + rewrite Hok. unfold throttle. rewrite Hpruned. unfold REQUEST_LIMIT.
      destruct (Nat.leb_spec 10 (length inWindow)), (Nat.ltb_spec (length inWindow) 10);
        simpl; lia || done.
    + intros Hfull.
      pose proof (rate_limited_result pid _ op p' Hp') as Hres.
      rewrite Hpruned in Hres. fold result in Hres. specialize (Hres Hfull).
      destruct (minOf_nonempty inWindow) as [oldest Hmin]; [lia|].
      exists oldest, (Z.max 0 (oldest + REQUEST_WINDOW_MS - opTime op)).
      split; [done|]. split; [done|]. split; [by rewrite Hres, Hmin|].
      apply minOf_spec in Hmin as [Hin _].
      apply pruneWindow_subset in Hin.
      pose proof (successTimes_bounds pid (isRegister op) earlier phones t0 Hearlier) as Hb.
      rewrite Forall_forall in Hb. specialize (Hb oldest Hin).
      apply retryAfter_bounds. lia.
Qed.

(** Number [Q] is registered ten times within ten hours; the eleventh
    call an hour later is rate limited with 62 hours to wait, no window
    holds more than ten successes, and an unknown number is not found. *)
Lemma register_deregister_throttle_scenario :
  fst (applyPhoneOp "Q" (snd (runPhoneOps "Q" tenRegistrations scenarioPhones))
         eleventhRegistration)
  = RegFail rate_limited (Some (62 * hourMs)) (Some 10%nat)
  ∧ (length (successesInWindow true 0
               (fst (runPhoneOps "Q" (tenRegistrations ++ [eleventhRegistration])
                       scenarioPhones))) ≤ 10)%nat
  ∧ registerPhoneNumber scenarioPhones "nobody" "123456" None 5
    = (RegFail not_found None None, scenarioPhones).
Proof.
  destruct register_deregister_throttle as (Hmissing & Hwindow & Hcall).
  assert (HQ : is_Some (scenarioPhones !! "Q")) by (vm_compute; eauto).
  destruct HQ as [phone HQ].
  assert (Hfresh : ∀ kind, attemptsOf kind phone = []).
  { intros kind. revert HQ. vm_compute. intros [= <-]. by destruct kind. }
  split; [|split].
  - destruct (Hcall scenarioPhones "Q" phone tenRegistrations eleventhRegistration 0
                HQ (Hfresh _)) as [_ Hlimited]; [reflexivity|].
    destruct Hlimited as (oldest & retry & Hmin & -> & -> & _); [vm_compute; lia|].
    assert (Hfirst : minOf
              (pruneWindow
                 (successTimes (isRegister eleventhRegistration)
                    (fst (runPhoneOps "Q" tenRegistrations scenarioPhones)))
                 (opTime eleventhRegistration)) = Some hourMs)
      by (vm_compute; reflexivity).
    rewrite Hfirst in Hmin. injection Hmin as <-. vm_compute. reflexivity.
  - apply (Hwindow scenarioPhones "Q" phone _ 0 true 0 HQ (Hfresh _)). reflexivity.
  - apply (Hmissing scenarioPhones "nobody" "123456" None 5). reflexivity.
Defined.

(** C10: [verifyPhoneNumberCode] returns true exactly when the phone
    exists, has a pending verification code and the supplied code equals
    it; on success the phone becomes VERIFIED and the pending code is
    deleted, so the same code is refused when presented again; a failing
    call leaves the store unchanged. *)
Theorem verifyPhoneNumberCode_single_use (phones : Phones) (pid given : string) :
  let r := verifyPhoneNumberCode phones pid given in
  (fst r = true
   ↔ ∃ phone pending,
       phones !! pid = Some phone
       ∧ pendingVerificationCode phone = Some pending
       ∧ code pending = given)
  ∧ (fst r = true →
     (∃ phone phone',
        phones !! pid = Some phone
        ∧ snd r !! pid = Some phone'
        ∧ phone' = withVerification phone VERIFIED None
        ∧ verificationStatus phone' = VERIFIED
        ∧ pendingVerificationCode phone' = None)
     ∧ fst (verifyPhoneNumberCode (snd r) pid given) = false)
  ∧ (fst r = false → snd r = phones).
Proof.
  intros r. subst r.
  destruct (verifyPhoneNumberCode_cases phones pid given)
    as [(phone & pending & Hp & Hpending & Hcode & ->)|[Hnone ->]]; simpl.
  - split; [|split; [|done]].
    + split; [|done]. intros _. by exists phone, pending.
    + intros _. split.
      * exists phone, (withVerification phone VERIFIED None).
        split; [done|]. split; [apply storePhone_lookup|done].
      * unfold verifyPhoneNumberCode. by rewrite storePhone_lookup.
  - split; [|split; done]. split; [done|]. intros H. by destruct Hnone.
Qed.

(** After a code was requested for [Q]: a wrong code is refused and
    changes nothing, the right code verifies the phone, and presenting it
    a second time is refused. *)
Lemma verifyPhoneNumberCode_scenario :
  verifyPhoneNumberCode pendingPhones "Q" "000000" = (false, pendingPhones)
  ∧ fst (verifyPhoneNumberCode pendingPhones "Q" "123456") = true
  ∧ fst (verifyPhoneNumberCode
           (snd (verifyPhoneNumberCode pendingPhones "Q" "123456")) "Q" "123456") = false.
Proof.
  pose proof (verifyPhoneNumberCode_single_use pendingPhones "Q" "000000") as (_ & _ & Hfail).
  pose proof (verifyPhoneNumberCode_single_use pendingPhones "Q" "123456") as (_ & Hagain & _).
  split; [|split].
  - rewrite (surjective_pairing (verifyPhoneNumberCode pendingPhones "Q" "000000")).
    rewrite Hfail; reflexivity.
  - reflexivity.
  - apply Hagain. reflexivity.
Defined.

End WebhookRoutingClaims.

(** ** Event bus *)

Section EventStoreFacts.

Import EventStore.

Implicit Types (bus : Bus) (subs : list Subscriber) (d : Deliveries) (e : SandboxEvent).

Lemma notifyAll_delivers subs e d :
  notifyAll subs e d = (Normal tt, d ++ map (fun s => (sub_id s, e)) subs).
Proof.
  revert d. induction subs as [|s subs IH]; intros d; simpl.
  - by rewrite app_nil_r.
  - unfold bind, tryCatch, callSubscriber, ret.
    destruct (throwsOn s e); rewrite IH, <- app_assoc; done.
Qed.

Lemma notifyUnguarded_stops s subs e d :
  throwsOn s e = true →
  notifyUnguarded (s :: subs) e d = (Throw "subscriber_error", d ++ [(sub_id s, e)]).
Proof. intros H. simpl. unfold bind, callSubscriber. by rewrite H. Qed.

Lemma addEvent_result bus p d :
  addEvent bus p d
  = (Normal (enrich p,
             {| events := capRing maxEvents (events bus ++ [enrich p]);
                subscribers := subscribers bus |}),
     d ++ map (fun s => (sub_id s, enrich p)) (subscribers bus)).
Proof. unfold addEvent, bind. by rewrite notifyAll_delivers. Qed.

Lemma publishAll_result ps bus d :
  publishAll ps bus d
  = (Normal {| events :=
                 fold_left (fun log p => capRing maxEvents (log ++ [enrich p])) ps (events bus);
               subscribers := subscribers bus |},
     d ++ concat (map (fun p => map (fun s => (sub_id s, enrich p)) (subscribers bus)) ps)).
Proof.
  revert bus d. induction ps as [|p ps IH]; intros bus d; simpl.
  - unfold ret. rewrite app_nil_r. by destruct bus.
  - unfold bind. rewrite addEvent_result. simpl. rewrite IH. simpl.
    by rewrite <- app_assoc.
Qed.

Lemma ring_fold ps (log : list SandboxEvent) :
  fold_left (fun log p => capRing maxEvents (log ++ [enrich p])) ps (capRing maxEvents log)
  = capRing maxEvents (log ++ map enrich ps).
Proof.
  revert log. induction ps as [|p ps IH]; intros log; simpl.
  - by rewrite app_nil_r.
  - rewrite capRing_app, IH. by rewrite <- app_assoc.
Qed.

End EventStoreFacts.

Section EventStoreClaims.

Import EventStore.

(** C8: every [addEvent] assigns the record an id and a timestamp and
    appends it, keeping the most recent 200 entries; publishing 250
    records one after the other leaves exactly the most recent 200 in
    their original order; and whichever subscribers throw, the event is
    delivered to every subscriber and the log is the same. *)
Theorem addEvent_log_and_delivery :
  (∀ (bus : Bus) (p : Publication) (d : Deliveries),
     addEvent bus p d
     = (Normal (enrich p,
                {| events := capRing maxEvents (events bus ++ [enrich p]);
                   subscribers := subscribers bus |}),
        d ++ map (fun s => (sub_id s, enrich p)) (subscribers bus))
     ∧ id (enrich p) = "evt_" +:+ pretty (pub_idClock p) +:+ "_" +:+ pub_rnd p
     ∧ timestamp (enrich p) = pub_clock p
     ∧ capRing maxEvents (events bus ++ [enrich p])
       = drop (length (events bus) + 1 - 200) (events bus ++ [enrich p])
     ∧ enrich p
       = {| id := "evt_" +:+ pretty (pub_idClock p) +:+ "_" +:+ pub_rnd p;
            timestamp := pub_clock p;
            direction := in_direction (pub_input p);
            type := in_type (pub_input p);
            source := in_source (pub_input p);
            payload := in_payload (pub_input p);
            meta := in_meta (pub_input p) |}
     ∧ capRing maxEvents (events bus ++ [enrich p])
       = drop (length (events bus) + 1 - 200) (events bus) ++ [enrich p])
  ∧ (∀ (bus : Bus) (ps : list Publication) (d : Deliveries),
       (length (events bus) ≤ 200)%nat →
       ∃ bus' d',
         publishAll ps bus d = (Normal bus', d')
         ∧ events bus'
           = drop (length (events bus) + length ps - 200) (events bus ++ map enrich ps)
         ∧ subscribers bus' = subscribers bus
         ∧ d' = d ++ concat (map (fun p => map (fun s => (sub_id s, enrich p))
                                            (subscribers bus)) ps)
         ∧ (length ps = 250%nat →
            length (events bus') = 200%nat
            ∧ events bus' = drop 50 (map enrich ps))).
Proof.
  split.
  - intros bus p d. split; [apply addEvent_result|].
    split; [done|]. split; [done|].
    assert (Hring : capRing maxEvents (events bus ++ [enrich p])
                    = drop (length (events bus) + 1 - 200) (events bus ++ [enrich p])).
    { rewrite capRing_drop, length_app. done. }
    split; [exact Hring|]. split; [done|].
    rewrite Hring. rewrite drop_app_le by lia. done.
  - intros bus ps d Hcap. rewrite publishAll_result.
    eexists _, _. split; [reflexivity|]. cbn [events subscribers].
    assert (Hlog : capRing maxEvents (events bus) = events bus).
    { rewrite capRing_drop. unfold maxEvents.
      by replace (length (events bus) - 200)%nat with 0%nat by lia. }
    assert (Hfold :
      fold_left (fun log p => capRing maxEvents (log ++ [enrich p])) ps (events bus)
      = drop (length (events bus) + length ps - 200) (events bus ++ map enrich ps)).
    { rewrite <- Hlog at 1.
      by rewrite ring_fold, capRing_drop, length_app, length_map. }
    rewrite !Hfold.
    split; [done|]. split; [done|]. split; [done|].
    intros Hlen. rewrite Hlen.
    assert (Hdrop : drop (length (events bus) + 250 - 200) (events bus ++ map enrich ps)
                    = drop 50 (map enrich ps)).
    { replace (length (events bus) + 250 - 200)%nat
        with (length (events bus) + 50)%nat by lia.
      by rewrite drop_app_add. }
    rewrite Hdrop. split; [|done].
    rewrite length_drop, length_map, Hlen. done.
Qed.

(** With a throwing subscriber among three, all three are handed each of
    the 250 events, the third, called after the one that throws, getting
    every record as it was published with its id and timestamp; and the
    log holds events 51 to 250 in order. *)
Lemma addEvent_log_and_delivery_scenario :
  let published (n : nat) :=
    {| id := "evt_" +:+ pretty (Z.of_nat n) +:+ "_q1w2e3";
       timestamp := Z.of_nat n;
       direction := outbound;
       type := simulate_message;
       source := "simulate-text";
       payload := pretty n;
       meta := None |} in
  ∃ bus' d',
    publishAll scenarioPublications {| events := []; subscribers := scenarioSubscribers |} []
    = (Normal bus', d')
    ∧ length (events bus') = 200%nat
    ∧ events bus' = map published (seq 51 200)
    ∧ length d' = 750%nat
    ∧ deliveredTo 1 d' = map published (seq 1 250)
    ∧ deliveredTo 2 d' = map published (seq 1 250)
    ∧ deliveredTo 3 d' = map published (seq 1 250).
Proof.
  intros published.
  destruct addEvent_log_and_delivery as [_ Hrun].
  destruct (Hrun {| events := []; subscribers := scenarioSubscribers |}
              scenarioPublications [])
    as (bus' & d' & Hpub & Hlog & _ & Hd & H250); [simpl; lia|].
  destruct H250 as [Hlen Hdrop]; [reflexivity|].
  exists bus', d'. split; [exact Hpub|]. split; [exact Hlen|].
  split.
  - rewrite Hdrop. unfold scenarioPublications. rewrite map_map. reflexivity.
  - rewrite Hd. vm_compute. repeat split; reflexivity.
Defined.

(** After [addEvent] the log holds at most 200 events, whatever it held
    before. *)
Lemma event_log_capped (bus : Bus) (p : Publication) (d : Deliveries) :
  ∃ bus' d',
    addEvent bus p d = (Normal (enrich p, bus'), d')
    ∧ (length (events bus') ≤ 200)%nat.
Proof.
  rewrite addEvent_result. eexists _, _. split; [reflexivity|].
  cbn [events]. rewrite capRing_length. unfold maxEvents. lia.
Qed.

End EventStoreClaims.

(** ** Message templates *)

Section TemplateFacts.

Import Templates.

Implicit Types (cs : list TemplateComponent) (c : TemplateComponent) (acc : DerivedText).

Lemma whenTruthy_Some o x : whenTruthy o = Some x → o = Some x ∧ truthy (Some x) = true.
Proof.
  unfold whenTruthy. destruct (truthy o) eqn:H; [|done]. intros ->. done.
Qed.

Lemma whenTruthy_None o : whenTruthy o = None → truthy o = false.
Proof.
  unfold whenTruthy. destruct (truthy o) eqn:H; [|done]. intros ->. done.
Qed.

Lemma truthy_whenTruthy o : truthy o = true → whenTruthy o = o.
Proof. unfold whenTruthy. by intros ->. Qed.

Lemma firstText_truthy t cs x : firstText t cs = Some x → truthy (Some x) = true.
Proof.
  unfold firstText. destruct (List.find _ cs) as [c|] eqn:Hfind; [|done].
  apply find_some in Hfind as [_ [_ H]%andb_true_iff]. by intros <-.
Qed.

Lemma truthy_firstText t cs : truthy (firstText t cs) = false → firstText t cs = None.
Proof.
  destruct (firstText t cs) as [x|] eqn:H; [|done].
  by rewrite (firstText_truthy _ _ _ H).
Qed.

Ltac derive_cases c acc :=
  unfold deriveStep, firstText; simpl;
  destruct (type c) eqn:Htype; unfold isType; rewrite ?Htype; simpl;
  destruct (truthy (text c)) eqn:Htext; simpl;
  destruct (truthy (d_headerText acc)) eqn:Hh; simpl;
  destruct (truthy (d_bodyText acc)) eqn:Hb; simpl;
  destruct (truthy (d_footerText acc)) eqn:Hf; simpl;
  rewrite ?Htext, ?Hh, ?Hb, ?Hf; try done;
  try (destruct (text c); done).

Lemma derive_fold_header cs acc :
  d_headerText (fold_left deriveStep cs acc)
  = if truthy (d_headerText acc) then d_headerText acc
    else nullish (firstText HEADER cs) (d_headerText acc).
Proof.
  revert acc. induction cs as [|c cs IH]; intros acc.
  - simpl. by destruct (truthy (d_headerText acc)).
  - cbn [fold_left]. rewrite IH. derive_cases c acc.
Qed.

Lemma derive_fold_body cs acc :
  d_bodyText (fold_left deriveStep cs acc)
  = if truthy (d_bodyText acc) then d_bodyText acc
    else nullish (firstText BODY cs) (d_bodyText acc).
Proof.
  revert acc. induction cs as [|c cs IH]; intros acc.
  - simpl. by destruct (truthy (d_bodyText acc)).
  - cbn [fold_left]. rewrite IH. derive_cases c acc.
Qed.

Lemma derive_fold_footer cs acc :
  d_footerText (fold_left deriveStep cs acc)
  = if truthy (d_footerText acc) then d_footerText acc
    else nullish (firstText FOOTER cs) (d_footerText acc).
Proof.
  revert acc. induction cs as [|c cs IH]; intros acc.
  - simpl. by destruct (truthy (d_footerText acc)).
  - cbn [fold_left]. rewrite IH. derive_cases c acc.
Qed.

Lemma nullish_None_r {A : Type} (o : option A) : nullish o None = o.
Proof. by destruct o. Qed.

Lemma derive_firstText cs :
  deriveTextFromComponents (Some cs)
  = {| d_headerText := firstText HEADER cs;
       d_bodyText := firstText BODY cs;
       d_footerText := firstText FOOTER cs |}.
Proof.
  unfold deriveTextFromComponents.
  pose proof (derive_fold_header cs noText) as Hh.
  pose proof (derive_fold_body cs noText) as Hb.
  pose proof (derive_fold_footer cs noText) as Hf.
  simpl in Hh, Hb, Hf. rewrite nullish_None_r in Hh, Hb, Hf.
  destruct (fold_left deriveStep cs noText). simpl in *. by subst.
Qed.

Lemma firstText_nonempty t cs x : firstText t cs = Some x → isEmpty cs = false.
Proof. by destruct cs. Qed.

Lemma build_derive (body header footer : option string) :
  deriveTextFromComponents (Some (buildComponentsFromText body header footer))
  = {| d_headerText := whenTruthy header;
       d_bodyText := whenTruthy body;
       d_footerText := whenTruthy footer |}.
Proof.
  rewrite derive_firstText. unfold buildComponentsFromText.
  destruct (whenTruthy header) as [h|] eqn:Hh;
    [apply whenTruthy_Some in Hh as [_ Hh]|];
    (destruct (whenTruthy body) as [b|] eqn:Hb;
       [apply whenTruthy_Some in Hb as [_ Hb]|]);
    (destruct (whenTruthy footer) as [f|] eqn:Hf;
       [apply whenTruthy_Some in Hf as [_ Hf]|]);
    unfold firstText, textComponent, isType; simpl in *;
    rewrite ?Hh, ?Hb, ?Hf; simpl; rewrite ?Hh, ?Hb, ?Hf; reflexivity.
Qed.

Lemma createTemplate_outcome templates input idClock rnd now :
  let cs :=
    match in_components input with
    | Some l => l
    | None =>
        buildComponentsFromText (in_bodyText input) (in_headerText input)
          (in_footerText input)
    end in
  let body := nullish (in_bodyText input) (firstText BODY cs) in
  if truthy body
  then ∃ tpl,
      createTemplate templates input idClock rnd now
      = inr (tpl, <[id tpl := tpl]> templates)
      ∧ components tpl = cs
      ∧ bodyText tpl = body
      ∧ headerText tpl = nullish (in_headerText input) (firstText HEADER cs)
      ∧ footerText tpl = nullish (in_footerText input) (firstText FOOTER cs)
  else createTemplate templates input idClock rnd now = inl "body_text_required".
Proof.
  intros cs body. unfold createTemplate. fold cs.
  rewrite derive_firstText. simpl. fold body.
  destruct (truthy body); simpl; [|done].
  match goal with |- ∃ _, inr (?t, _) = _ ∧ _ => exists t end. done.
Qed.

Lemma createThenRead_created templates input idClock rnd now readClock tpl :
  createTemplate templates input idClock rnd now = inr (tpl, <[id tpl := tpl]> templates) →
  createThenRead templates input idClock rnd now readClock
  = Some (fst (ensureTemplateShape (<[id tpl := tpl]> templates) tpl readClock)).
Proof.
  intros H. unfold createThenRead. rewrite H. unfold getTemplateById.
  rewrite lookup_insert_eq.
  by destruct (ensureTemplateShape (<[id tpl := tpl]> templates) tpl readClock).
Qed.

Lemma ensureTemplateShape_keeps templates tpl readClock :
  isEmpty (components tpl) = false →
  truthy (bodyText tpl) = true →
  components (fst (ensureTemplateShape templates tpl readClock)) = components tpl
  ∧ bodyText (fst (ensureTemplateShape templates tpl readClock)) = bodyText tpl
  ∧ headerText (fst (ensureTemplateShape templates tpl readClock))
    = fillText (headerText tpl) (firstText HEADER (components tpl))
  ∧ footerText (fst (ensureTemplateShape templates tpl readClock))
    = fillText (footerText tpl) (firstText FOOTER (components tpl)).
Proof.
  intros Hne Hbody. unfold ensureTemplateShape.
  cbn [fst components bodyText headerText footerText].
  rewrite Hne, derive_firstText.
  cbn [d_bodyText d_headerText d_footerText].
  unfold fillText at 1. rewrite Hbody. done.
Qed.

Lemma ensureTemplateShape_rebuilds templates tpl readClock :
  isEmpty (components tpl) = true →
  truthy (bodyText tpl) = true →
  components (fst (ensureTemplateShape templates tpl readClock))
  = buildComponentsFromText (bodyText tpl) (headerText tpl) (footerText tpl)
  ∧ bodyText (fst (ensureTemplateShape templates tpl readClock)) = bodyText tpl.
Proof.
  intros Hempty Hbody. unfold ensureTemplateShape.
  cbn [fst components bodyText].
  rewrite Hempty. split; [done|].
  unfold fillText. by rewrite Hbody.
Qed.

Lemma nullish_whenTruthy (o : option string) : nullish o (whenTruthy o) = o.
Proof. unfold whenTruthy. by destruct o, (truthy _). Qed.

Lemma fillText_whenTruthy (o : option string) : fillText o (whenTruthy o) = o.
Proof.
  unfold fillText, whenTruthy. destruct (truthy o) eqn:H; simpl; rewrite ?H; done.
Qed.

End TemplateFacts.

Section TemplateClaims.

Import Templates.

(** C9, as stated, fails at three inputs: a body text supplied next to
    the components is stored as it is, whatever the components hold; the
    derived body text is that of the first BODY component that carries a
    non-empty text, which need not be the first BODY component; and an
    empty header supplied as a flat field is stored while no HEADER
    component is built, so the derived header text is absent. *)
Lemma createTemplate_text_divergences :
  storedAndDerived
    (createInput (Some "Text field") None None (Some [bodyOnly (Some "Component")]))
  = Some (None, Some "Text field", None,
          {| d_headerText := None; d_bodyText := Some "Component"; d_footerText := None |})
  ∧ storedAndDerived
      (createInput None None None (Some [bodyOnly None; bodyOnly (Some "Second")]))
    = Some (None, Some "Second", None,
            {| d_headerText := None; d_bodyText := Some "Second"; d_footerText := None |})
  ∧ textOfFirst BODY [bodyOnly None; bodyOnly (Some "Second")] = None
  ∧ storedAndDerived (createInput (Some "Hi") (Some EmptyString) None None)
    = Some (Some EmptyString, Some "Hi", None,
            {| d_headerText := None; d_bodyText := Some "Hi"; d_footerText := None |}).
Proof. vm_compute. repeat split; reflexivity. Qed.

(** C9, amended: a template created from a components list, with no body
    text supplied or with the one its components carry, reads back with
    those components and with a bodyText equal to the text derived from
    them, which is the text of the first BODY component carrying a
    non-empty text (creation fails when there is none); a template created
    from flat text fields reads back with components whose derived
    header, body and footer texts are the supplied fields that are
    non-empty, absent for a field that is absent or empty, while the stored
    flat fields are the supplied ones.  With any body text supplied next
    to the components, the text stored is the supplied one and creation
    throws [body_text_required] when that is the empty string; a
    components list that is not empty is read back as it is, so that the
    derived body text stays that of the components, and an empty list is
    rebuilt from the flat fields by the read. *)
Theorem template_text_round_trip :
  (∀ (templates : Store) (input : CreateInput) (cs : list TemplateComponent)
     (idClock : Z) (rnd : string) (now readClock : Z),
     in_components input = Some cs →
     in_bodyText input = None ∨ in_bodyText input = firstText BODY cs →
     match createThenRead templates input idClock rnd now readClock with
     | Some tpl =>
         components tpl = cs
         ∧ bodyText tpl = firstText BODY cs
         ∧ d_bodyText (deriveTextFromComponents (Some (components tpl))) = bodyText tpl
         ∧ truthy (bodyText tpl) = true
     | None => firstText BODY cs = None
     end)
  ∧ (∀ (templates : Store) (input : CreateInput)
       (idClock : Z) (rnd : string) (now readClock : Z),
       in_components input = None →
       match createThenRead templates input idClock rnd now readClock with
       | Some tpl =>
           components tpl
           = buildComponentsFromText (in_bodyText input) (in_headerText input)
               (in_footerText input)
           ∧ deriveTextFromComponents (Some (components tpl))
             = {| d_headerText := whenTruthy (in_headerText input);
                  d_bodyText := in_bodyText input;
                  d_footerText := whenTruthy (in_footerText input) |}
           ∧ bodyText tpl = in_bodyText input
           ∧ headerText tpl = in_headerText input
           ∧ footerText tpl = in_footerText input
       | None => truthy (in_bodyText input) = false
       end)
  ∧ (∀ cs : list TemplateComponent,
       deriveTextFromComponents (Some cs)
       = {| d_headerText := firstText HEADER cs;
            d_bodyText := firstText BODY cs;
            d_footerText := firstText FOOTER cs |})
  ∧ (∀ (templates : Store) (input : CreateInput) (cs : list TemplateComponent)
       (idClock : Z) (rnd : string) (now readClock : Z),
       in_components input = Some cs →
       let stored :=
         match in_bodyText input with
         | Some supplied => Some supplied
         | None => firstText BODY cs
         end in
       if truthy stored
       then ∃ tpl,
           createThenRead templates input idClock rnd now readClock = Some tpl
           ∧ bodyText tpl = stored
           ∧ components tpl
             = (if isEmpty cs
                then buildComponentsFromText (in_bodyText input) (in_headerText input)
                       (in_footerText input)
                else cs)
           ∧ d_bodyText (deriveTextFromComponents (Some (components tpl)))
             = (if isEmpty cs then stored else firstText BODY cs)
       else createTemplate templates input idClock rnd now = inl "body_text_required"
            ∧ createThenRead templates input idClock rnd now readClock = None).
Proof.
  split; [|split; [|split]]; cycle 3.
  { intros templates input cs idClock rnd now readClock Hcs stored.
    pose proof (createTemplate_outcome templates input idClock rnd now) as Hout.
    rewrite Hcs in Hout. simpl in Hout.
    change (nullish (in_bodyText input) (firstText BODY cs)) with stored in Hout.
    destruct (truthy stored) eqn:Htruthy.
    - destruct Hout as (tpl & Hcreate & Hcomps & Hb & Hh & Hf).
      rewrite (createThenRead_created _ _ _ _ _ readClock _ Hcreate).
      eexists. split; [reflexivity|].
      destruct (isEmpty cs) eqn:Hempty.
      + destruct (ensureTemplateShape_rebuilds (<[id tpl := tpl]> templates) tpl readClock)
          as (Hc & Hbt).
        { by rewrite Hcomps. }
        { by rewrite Hb. }
        assert (cs = []) as -> by (by destruct cs).
        assert (stored = in_bodyText input) as Hsupplied.
        { subst stored. by destruct (in_bodyText input). }
        rewrite Hc, Hbt, build_derive, Hb, Hh, Hf. cbn [d_bodyText].
        change (firstText HEADER []) with (@None string).
        change (firstText FOOTER []) with (@None string).
        rewrite !nullish_None_r.
        split; [done|]. split; [by rewrite Hsupplied|].
        by apply truthy_whenTruthy.
      + destruct (ensureTemplateShape_keeps (<[id tpl := tpl]> templates) tpl readClock)
          as (Hc & Hbt & _).
        { by rewrite Hcomps. }
        { by rewrite Hb. }
        rewrite Hc, Hbt, Hcomps, Hb, derive_firstText. done.
    - split; [exact Hout|]. unfold createThenRead. by rewrite Hout. }
  - intros templates input cs idClock rnd now readClock Hcs Hbody.
    pose proof (createTemplate_outcome templates input idClock rnd now) as Hout.
    rewrite Hcs in Hout. simpl in Hout.
    assert (Hstored : nullish (in_bodyText input) (firstText BODY cs) = firstText BODY cs).
    { destruct Hbody as [->| ->]; [done|]. by destruct (firstText BODY cs). }
    rewrite Hstored in Hout.
    destruct (truthy (firstText BODY cs)) eqn:Htruthy.
    + destruct Hout as (tpl & Hcreate & Hcomps & Hb & _).
      rewrite (createThenRead_created _ _ _ _ _ readClock _ Hcreate).
      destruct (firstText BODY cs) as [x|] eqn:Hfirst; [|done].
      destruct (ensureTemplateShape_keeps (<[id tpl := tpl]> templates) tpl readClock)
        as (Hc & Hbt & _).
      { rewrite Hcomps. by apply firstText_nonempty with BODY x. }
      { by rewrite Hb. }
      rewrite Hc, Hbt, Hcomps, Hb, derive_firstText. simpl.
      rewrite Hfirst. done.
    + unfold createThenRead. rewrite Hout. by apply truthy_firstText.
  - intros templates input idClock rnd now readClock Hcs.
    pose proof (createTemplate_outcome templates input idClock rnd now) as Hout.
    rewrite Hcs in Hout. simpl in Hout.
    pose proof (build_derive (in_bodyText input) (in_headerText input) (in_footerText input))
      as Hderive.
    rewrite derive_firstText in Hderive. injection Hderive as Hh Hb Hf.
    rewrite Hh, Hb, Hf, !nullish_whenTruthy in Hout.
    destruct (truthy (in_bodyText input)) eqn:Htruthy.
    + destruct Hout as (tpl & Hcreate & Hcomps & Hbody & Hheader & Hfooter).
      rewrite (createThenRead_created _ _ _ _ _ readClock _ Hcreate).
      destruct (ensureTemplateShape_keeps (<[id tpl := tpl]> templates) tpl readClock)
        as (Hc & Hbt & Hht & Hft).
      { rewrite Hcomps. apply firstText_nonempty with BODY (default EmptyString (in_bodyText input)).
        rewrite Hb, truthy_whenTruthy by done. by destruct (in_bodyText input). }
      { by rewrite Hbody. }
      rewrite Hc, Hbt, Hht, Hft, Hcomps, Hbody, Hheader, Hfooter.
      rewrite Hh, Hf, !fillText_whenTruthy, build_derive.
      rewrite (truthy_whenTruthy _ Htruthy). done.
    + unfold createThenRead. by rewrite Hout.
  - apply derive_firstText.
Qed.

(** A template created from components alone reads back with a body text
    derived from them, and one created from the flat field "Hi" alone
    reads back with exactly one BODY component of text "Hi" and no header
    or footer text.  A body text supplied next to a component of another
    text is the one stored, and the empty string in its place makes the
    creation throw. *)
Lemma template_text_round_trip_scenario :
  let structured :=
    createInput None None None
      (Some [textComponent HEADER (Some "TEXT") "Order"; bodyOnly (Some "Hi");
             textComponent FOOTER None "Bye"]) in
  let flat := createInput (Some "Hi") None None None in
  let both (supplied : string) :=
    createInput (Some supplied) None None (Some [bodyOnly (Some "Component")]) in
  (∃ tpl,
     createThenRead ∅ structured 1700000000000 "a1b2c3" 1700000000000 1700000000500
     = Some tpl
     ∧ bodyText tpl = Some "Hi"
     ∧ d_bodyText (deriveTextFromComponents (Some (components tpl))) = bodyText tpl)
  ∧ (∃ tpl,
       createThenRead ∅ flat 1700000000000 "a1b2c3" 1700000000000 1700000000500
       = Some tpl
       ∧ components tpl = [textComponent BODY None "Hi"]
       ∧ headerText tpl = None ∧ footerText tpl = None
       ∧ deriveTextFromComponents (Some (components tpl))
         = {| d_headerText := None; d_bodyText := Some "Hi"; d_footerText := None |})
  ∧ (∃ tpl,
       createThenRead ∅ (both "Text field") 1700000000000 "a1b2c3" 1700000000000
         1700000000500
       = Some tpl
       ∧ bodyText tpl = Some "Text field"
       ∧ components tpl = [bodyOnly (Some "Component")]
       ∧ d_bodyText (deriveTextFromComponents (Some (components tpl))) = Some "Component")
  ∧ createTemplate ∅ (both EmptyString) 1700000000000 "a1b2c3" 1700000000000
    = inl "body_text_required".
Proof.
  intros structured flat both.
  destruct template_text_round_trip as (Hstructured & Hflat & _ & Hsupplied).
  pose proof (Hstructured ∅ structured _
    1700000000000 "a1b2c3" 1700000000000 1700000000500 eq_refl (or_introl eq_refl)) as H1.
  pose proof (Hflat ∅ flat
    1700000000000 "a1b2c3" 1700000000000 1700000000500 eq_refl) as H2.
  pose proof (Hsupplied ∅ (both "Text field") _
    1700000000000 "a1b2c3" 1700000000000 1700000000500 eq_refl) as H3.
  pose proof (Hsupplied ∅ (both EmptyString) _
    1700000000000 "a1b2c3" 1700000000000 1700000000500 eq_refl) as H4.
  split; [|split; [|split]].
  - destruct (createThenRead ∅ structured _ _ _ _) as [tpl|]; [|discriminate H1].
    destruct H1 as (_ & Hbody & Hderived & _).
    exists tpl. split; [reflexivity|]. split; [exact Hbody|exact Hderived].
  - destruct (createThenRead ∅ flat _ _ _ _) as [tpl|]; [|discriminate H2].
    destruct H2 as (Hcomps & Hderived & _ & Hheader & Hfooter).
    exists tpl. split; [reflexivity|]. split; [exact Hcomps|].
    split; [exact Hheader|]. split; [exact Hfooter|exact Hderived].
  - exact H3.
  - exact (proj1 H4).
Defined.

End TemplateClaims.

(** ** Rolling windows across the stores *)

Section RollingWindowClaims.

(** C3, as stated, fails: two days after a send at time 0,
    [registerSend] stores the new event next to the expired one, and
    [getMessagingSummaryForPhone] and [evaluateMarketingFrequency] count
    no in-window entry while the expired one stays stored. *)
Lemma expired_entries_stay_stored :
  let now := 2 * MessagingLimits.DEFAULT_WINDOW_MS in
  map MessagingLimits.timestamp
    (MessagingLimits.storedSends
       (snd (MessagingLimits.registerSend MessagingLimits.staleStates
               "B" "recipient#2" UTILITY now)) "B")
  = [0; now]
  ∧ now - MessagingLimits.windowMs
            (fst (MessagingLimits.getOrCreateState "B" MessagingLimits.staleStates))
    = 86400000
  ∧ map MessagingLimits.timestamp
      (MessagingLimits.storedSends
         (snd (MessagingLimits.getMessagingSummaryForPhone MessagingLimits.staleStates
                 "B" now)) "B")
    = [0]
  ∧ MessagingLimits.sum_windowUniqueRecipients
      (fst (MessagingLimits.getMessagingSummaryForPhone MessagingLimits.staleStates "B" now))
    = 0%nat
  ∧ Marketing.sendsInWindow
      (Marketing.evaluateMarketingFrequency Marketing.sentOnceStore "A" "r" now) = 0%nat
  ∧ map Marketing.effectiveTime
      (Marketing.bucket Marketing.sentOnceStore (Marketing.getFrequencyKey "A" "r"))
    = [1001].
Proof. vm_compute. repeat split; reflexivity. Qed.

(** C3, amended: [evaluateMessagingLimit] stores the send events pruned
    to [now - window]; [registerPhoneNumber] and [deregisterPhoneNumber]
    store their own attempt sequence pruned to [now - 72h];
    [registerMarketingSend] stores the bucket pruned to the window that
    ends at the send's effective time (the scheduled time when given,
    otherwise now); [registerSend] appends without pruning; and
    [getMessagingSummaryForPhone] and [evaluateMarketingFrequency] leave
    the stored sequence as it is and count only its in-window entries. *)
Theorem rolling_windows_pruned :
  (∀ (states : gmap string MessagingLimits.MessagingLimitState)
     (pid recipient : string) (now : Z),
     Forall (fun e => now - MessagingLimits.windowMs
                              (fst (MessagingLimits.getOrCreateState pid states))
                      ≤ MessagingLimits.timestamp e)
       (MessagingLimits.storedSends
          (snd (MessagingLimits.evaluateMessagingLimit states pid recipient now)) pid))
  ∧ (∀ (states : gmap string MessagingLimits.MessagingLimitState)
       (pid recipient : string) (cat : TemplateCategory) (now : Z),
       MessagingLimits.storedSends
         (snd (MessagingLimits.registerSend states pid recipient cat now)) pid
       = MessagingLimits.storedSends states pid
         ++ [MessagingLimits.event
               (fst (MessagingLimits.registerSend states pid recipient cat now))])
  ∧ (∀ (states : gmap string MessagingLimits.MessagingLimitState) (pid : string) (now : Z),
       MessagingLimits.storedSends
         (snd (MessagingLimits.getMessagingSummaryForPhone states pid now)) pid
       = MessagingLimits.storedSends states pid
       ∧ MessagingLimits.sum_windowUniqueRecipients
           (fst (MessagingLimits.getMessagingSummaryForPhone states pid now))
         = size (MessagingLimits.uniqueRecipients
                   (List.filter
                      (MessagingLimits.inWindow
                         (now - MessagingLimits.windowMs
                                  (fst (MessagingLimits.getOrCreateState pid states))))
                      (MessagingLimits.storedSends states pid))))
  ∧ (∀ (phones : gmap string WebhookRouting.PhoneNumberConfig)
       (pid : string) (op : WebhookRouting.PhoneOp) (phone : WebhookRouting.PhoneNumberConfig),
       snd (WebhookRouting.applyPhoneOp pid phones op) !! pid = Some phone →
       Forall (fun ts => WebhookRouting.opTime op - 72 * 60 * 60 * 1000 ≤ ts)
         (WebhookRouting.attemptsOf (WebhookRouting.isRegister op) phone))
  ∧ (∀ (st : Marketing.Store) (params : Marketing.RegisterParams) (now : Z) (rnd : string),
       Forall (fun r => default now (Marketing.p_sendAt params)
                        - Marketing.frequencyWindowMs (Marketing.config st)
                        ≤ Marketing.effectiveTime r)
         (Marketing.bucket (snd (Marketing.registerMarketingSend st params now rnd))
            (Marketing.getFrequencyKey (Marketing.p_phoneId params) (Marketing.p_to params))))
  ∧ (∀ (st : Marketing.Store) (pid recipient : string) (now : Z),
       Marketing.sendsInWindow (Marketing.evaluateMarketingFrequency st pid recipient now)
       = length (List.filter
                   (Marketing.notBefore (now - Marketing.frequencyWindowMs (Marketing.config st)))
                   (Marketing.bucket st (Marketing.getFrequencyKey pid recipient)))).
Proof.
  split; [|split; [|split; [|split; [|split]]]].
  - intros states pid recipient now. rewrite evaluate_storedSends.
    eapply Forall_impl; [apply filter_all_pass|]. simpl. intros e.
    unfold MessagingLimits.inWindow. by rewrite Z.leb_le.
  - apply registerSend_storedSends.
  - intros states pid now. split.
    + unfold MessagingLimits.storedSends at 1. rewrite summary_states.
      rewrite getOrCreateState_lookup. apply getOrCreateState_sends.
    + unfold MessagingLimits.getMessagingSummaryForPhone.
      rewrite <- getOrCreateState_sends.
      by destruct (MessagingLimits.getOrCreateState pid states).
  - intros phones pid op phone Hstored.
    destruct (phones !! pid) as [p|] eqn:Hp.
    + destruct (applyPhoneOp_effect pid phones op p (WebhookRouting.isRegister op) Hp)
        as (p' & Hp' & Hatt & _).
      rewrite Hp' in Hstored. injection Hstored as <-.
      rewrite Hatt, Bool.eqb_reflx. unfold WebhookRouting.throttle.
      pose proof (pruneWindow_all_pass
                    (WebhookRouting.attemptsOf (WebhookRouting.isRegister op) p)
                    (WebhookRouting.opTime op)) as Hkept.
      unfold WebhookRouting.REQUEST_WINDOW_MS in Hkept.
      destruct (WebhookRouting.REQUEST_LIMIT <=? _)%nat; simpl; [done|].
      apply Forall_app. split; [done|]. constructor; [lia|constructor].
    + exfalso. destruct op as [pin region now|now]; simpl in Hstored;
        unfold WebhookRouting.registerPhoneNumber, WebhookRouting.deregisterPhoneNumber
          in Hstored;
        rewrite Hp in Hstored; simpl in Hstored; congruence.
  - intros st params now rnd. rewrite register_bucket.
    destruct (decide _) as [_|Hne]; [|done].
    eapply Forall_impl; [apply filter_all_pass|]. simpl. intros r.
    unfold Marketing.notBefore. rewrite Z.leb_le.
    by destruct (Marketing.p_sendAt params).
  - intros st pid recipient now. apply evaluate_sendsInWindow.
Qed.

End RollingWindowClaims.

(** * Further properties of the stores *)

(** ** Sorting newest first *)

Section SortFacts.

Context {A : Type} (key : A → Z).

Implicit Types (l : list A) (x : A).

Lemma insertDescending_perm x l : insertDescending key x l ≡ₚ x :: l.
Proof.
  induction l as [|y l IH]; simpl; [done|].
  destruct (key y <=? key x); [done|].
  rewrite IH. apply Permutation_swap.
Qed.

Lemma sortDescending_perm l : sortDescending key l ≡ₚ l.
Proof.
  induction l as [|x l IH]; simpl; [done|].
  unfold sortDescending in *. simpl. by rewrite insertDescending_perm, IH.
Qed.

Lemma insertDescending_filter (f : A → bool) x l :
  (∀ y, f x = true → f y = true → key y ≤ key x) →
  List.filter f (insertDescending key x l) = List.filter f (x :: l).
Proof.
  intros Hf. induction l as [|y l IH]; simpl; [done|].
  destruct (Z.leb_spec (key y) (key x)) as [Hle|Hgt]; [done|].
  simpl. rewrite IH. simpl.
  destruct (f x) eqn:Hx, (f y) eqn:Hy; try done.
  specialize (Hf y eq_refl Hy). lia.
Qed.

Lemma sortDescending_stable k l :
  List.filter (fun a => key a =? k) (sortDescending key l)
  = List.filter (fun a => key a =? k) l.
Proof.
  induction l as [|x l IH]; [done|].
  change (sortDescending key (x :: l)) with (insertDescending key x (sortDescending key l)).
  rewrite insertDescending_filter.
  - simpl. by rewrite IH.
  - intros y Hx Hy. apply Z.eqb_eq in Hx, Hy. lia.
Qed.

Lemma insertDescending_sorted x l :
  StronglySorted (fun a b => key b ≤ key a) l →
  StronglySorted (fun a b => key b ≤ key a) (insertDescending key x l).
Proof.
  induction 1 as [|y l Hl IH Hy]; simpl.
  - repeat constructor.
  - destruct (Z.leb_spec (key y) (key x)) as [Hle|Hgt].
    + constructor; [by constructor|].
      constructor; [done|]. eapply Forall_impl; [exact Hy|]. simpl. intros. lia.
    + constructor; [done|].
      rewrite insertDescending_perm. constructor; [lia|done].
Qed.

Lemma sortDescending_sorted l :
  StronglySorted (fun a b => key b ≤ key a) (sortDescending key l).
Proof.
  induction l as [|x l IH]; [constructor|].
  change (sortDescending key (x :: l)) with (insertDescending key x (sortDescending key l)).
  by apply insertDescending_sorted.
Qed.

End SortFacts.

(** ** Messaging-limit tracker: routes, costs and listings *)

Section TrackerFacts.

Import MessagingLimits.

Implicit Types (states : States) (s : MessagingLimitState) (evs : list SendEvent).

Lemma setMessagingTier_keyed states pid t :
  storeWellKeyed states → storeWellKeyed (setMessagingTier states pid t).
Proof.
  intros Hk. unfold setMessagingTier.
  destruct (getOrCreateState_keyed pid states Hk) as [Hk1 Hid].
  destruct (getOrCreateState pid states) as [s0 states1]. simpl in *.
  apply map_Forall_insert_2; [done|exact Hk1].
Qed.

Lemma summary_existing states pid now s :
  states !! pid = Some s →
  getMessagingSummaryForPhone states pid now
  = ({| sum_phoneId := pid; sum_tier := tier s; sum_windowMs := windowMs s;
        sum_windowUniqueRecipients :=
          size (uniqueRecipients (List.filter (inWindow (now - windowMs s)) (sends s)));
        sum_limitUniqueRecipients := TIER_LIMITS (tier s);
        sum_totalCostUsd := totalCostUsd s |}, states).
Proof.
  intros Hs. unfold getMessagingSummaryForPhone.
  by rewrite (getOrCreateState_existing _ _ _ Hs).
Qed.

Lemma summaries_fold_states states now ks acc :
  Forall (fun k => is_Some (states !! k)) ks →
  snd (foldl (fun acc pid =>
                let '(summary, states1) := getMessagingSummaryForPhone (snd acc) pid now in
                (fst acc ++ [summary], states1))
             (acc, states) ks) = states
  ∧ map sum_phoneId
      (fst (foldl (fun acc pid =>
                     let '(summary, states1) := getMessagingSummaryForPhone (snd acc) pid now in
                     (fst acc ++ [summary], states1))
                  (acc, states) ks))
    = map sum_phoneId acc ++ ks.
Proof.
  intros Hks. revert acc. induction Hks as [|k ks [s Hs] _ IH]; intros acc.
  - simpl. by rewrite app_nil_r.
  - cbn [foldl snd fst].
    rewrite (summary_existing _ _ now _ Hs).
    destruct (IH (acc ++ [ {| sum_phoneId := k; sum_tier := tier s; sum_windowMs := windowMs s;
                              sum_windowUniqueRecipients :=
                                size (uniqueRecipients
                                        (List.filter (inWindow (now - windowMs s)) (sends s)));
                              sum_limitUniqueRecipients := TIER_LIMITS (tier s);
                              sum_totalCostUsd := totalCostUsd s |} ])) as [IH1 IH2].
    split; [exact IH1|].
    rewrite IH2, map_app. simpl. by rewrite <- app_assoc.
Qed.

Lemma listMessagingSummaries_states states now :
  snd (listMessagingSummaries states now) = states.
Proof.
  unfold listMessagingSummaries. apply summaries_fold_states.
  apply Forall_forall. intros k Hk.
  apply list_elem_of_fmap in Hk as [[k' s] [-> Hin]].
  apply elem_of_map_to_list in Hin. by exists s.
Qed.

Lemma applyCall_keyed states c : storeWellKeyed states → storeWellKeyed (applyCall states c).
Proof.
  intros Hk. destruct c; simpl.
  - by apply evaluate_keyed.
  - by apply registerSend_keyed.
  - by apply summary_keyed.
  - by rewrite listMessagingSummaries_states.
  - by apply setMessagingTier_keyed.
Qed.

Lemma totalCostOf_getOrCreate states pid k :
  totalCostOf (snd (getOrCreateState pid states)) k = totalCostOf states k
  ∧ totalCostUsd (fst (getOrCreateState pid states)) = totalCostOf states pid.
Proof.
  unfold getOrCreateState, totalCostOf.
  destruct (states !! pid) as [s|] eqn:Hs; simpl; [done|].
  split; [|done].
  destruct (decide (k = pid)) as [->|Hne].
  - by rewrite lookup_insert_eq, Hs.
  - by rewrite lookup_insert_ne.
Qed.

Lemma applyCall_cost states c pid :
  storeWellKeyed states →
  registersFor pid c = false →
  totalCostOf (applyCall states c) pid = totalCostOf states pid.
Proof.
  intros Hk Hc. destruct c as [p r now|p r cat now|p now|now|p t]; simpl.
  - rewrite evaluate_states.
    destruct (totalCostOf_getOrCreate states p pid) as [H1 H2].
    rewrite <- H1. unfold totalCostOf at 1.
    destruct (decide (pid = p)) as [->|Hne].
    + rewrite lookup_insert_eq. simpl. rewrite H2. by rewrite H1.
    + by rewrite lookup_insert_ne.
  - simpl in Hc. apply String.eqb_neq in Hc.
    rewrite (registerSend_states _ _ _ _ _ Hk).
    destruct (totalCostOf_getOrCreate states p pid) as [H1 H2].
    unfold totalCostOf at 1. rewrite lookup_insert_ne by done.
    exact H1.
  - rewrite summary_states. apply totalCostOf_getOrCreate.
  - by rewrite listMessagingSummaries_states.
  - unfold setMessagingTier.
    destruct (totalCostOf_getOrCreate states p pid) as [H1 H2].
    destruct (getOrCreateState p states) as [s0 st1]. simpl in *.
    rewrite <- H1. unfold totalCostOf at 1.
    destruct (decide (pid = p)) as [->|Hne].
    + rewrite lookup_insert_eq. simpl. by rewrite H2, H1.
    + by rewrite lookup_insert_ne.
Qed.

Lemma applyCalls_keyed calls states :
  storeWellKeyed states → storeWellKeyed (foldl applyCall states calls).
Proof.
  revert states. induction calls as [|c calls IH]; intros states Hk; [done|].
  simpl. apply IH. by apply applyCall_keyed.
Qed.

Lemma sendMessage_invariant states pid recipient cat evalClock sendClock :
  storeWellKeyed states → storeRespectsLimits states →
  storeWellKeyed (snd (Graph.sendMessage states pid recipient cat evalClock sendClock))
  ∧ storeRespectsLimits (snd (Graph.sendMessage states pid recipient cat evalClock sendClock)).
Proof.
  intros Hk Hr.
  assert (runInvariant (states, [])) as Hinv by (repeat split; [done|done|constructor]).
  assert (stepOp (states, []) (OpEvaluate pid recipient evalClock)
          = Some (snd (evaluateMessagingLimit states pid recipient evalClock),
                  if allowed (fst (evaluateMessagingLimit states pid recipient evalClock))
                  then [(pid, recipient)] else [])) as Hev.
  { simpl. by destruct (evaluateMessagingLimit states pid recipient evalClock). }
  pose proof (stepOp_invariant _ _ _ Hinv Hev) as H1.
  unfold Graph.sendMessage.
  destruct (evaluateMessagingLimit states pid recipient evalClock) as [ev states1].
  cbn [fst snd] in H1.
  destruct (allowed ev) eqn:Hal; cbn [negb].
  - assert (stepOp (states1, [(pid, recipient)]) (OpRegister pid recipient cat sendClock)
            = Some (snd (registerSend states1 pid recipient cat sendClock),
                    revoke [(pid, recipient)] pid)) as Hstep.
    { simpl. by rewrite !String.eqb_refl. }
    pose proof (stepOp_invariant _ _ _ H1 Hstep) as (H2 & H3 & _).
    destruct (registerSend states1 pid recipient cat sendClock) as [reg states2].
    simpl in *. done.
  - destruct H1 as (H2 & H3 & _). done.
Qed.

Lemma serveTracker_invariant states r :
  storeWellKeyed states → storeRespectsLimits states →
  storeWellKeyed (Graph.serveTracker states r)
  ∧ storeRespectsLimits (Graph.serveTracker states r).
Proof.
  intros Hk Hr. destruct r as [pid recipient cat t1 t2|pid now]; simpl.
  - by apply sendMessage_invariant.
  - split; [by apply summary_keyed|by apply summary_respects].
Qed.

End TrackerFacts.

Section TrackerProperties.

Import MessagingLimits.

(** Served through the routes, the tracker never lets a number
    exceed its tier: after any sequence of [POST /:id/messages] and
    [GET /:id/messaging_limits] requests, on any numbers and with any
    clock readings, every number holds at most as many distinct
    recipients as its tier allows, and so does every window of it. *)
Theorem message_route_keeps_limits
  (states : States) (requests : list Graph.TrackerRequest) :
  storeWellKeyed states →
  storeRespectsLimits states →
  let states' := foldl Graph.serveTracker states requests in
  storeRespectsLimits states'
  ∧ ∀ pid now,
      withinLimit
        (sum_windowUniqueRecipients (fst (getMessagingSummaryForPhone states' pid now)))
        (sum_limitUniqueRecipients (fst (getMessagingSummaryForPhone states' pid now)))
      = true.
Proof.
  intros Hk Hr. simpl.
  assert (storeWellKeyed (foldl Graph.serveTracker states requests)
          ∧ storeRespectsLimits (foldl Graph.serveTracker states requests)) as [_ H].
  { revert states Hk Hr. induction requests as [|r rs IH]; intros states Hk Hr; [done|].
    simpl. destruct (serveTracker_invariant states r Hk Hr). by apply IH. }
  split; [done|]. intros pid now. by apply summary_within.
Qed.

Lemma message_route_keeps_limits_scenario :
  let states' :=
    foldl Graph.serveTracker ∅
      [ Graph.PostMessage "A" "5511999" MARKETING 1000 1001;
        Graph.GetMessagingLimits "B" 1002;
        Graph.PostMessage "A" "5511888" UTILITY 1003 1004 ] in
  storeRespectsLimits states'
  ∧ ∀ pid now,
      withinLimit
        (sum_windowUniqueRecipients (fst (getMessagingSummaryForPhone states' pid now)))
        (sum_limitUniqueRecipients (fst (getMessagingSummaryForPhone states' pid now)))
      = true.
Proof.
  apply (message_route_keeps_limits ∅); apply map_Forall_empty.
Defined.

(** A request to send either is refused, and then registers nothing, or
    is accepted, and then appends exactly one event, stamped with the
    clock of the registration, to what the evaluation kept. *)
Theorem message_route_outcome
  (states : States) (pid recipient : string) (cat : ConversationCategory)
  (evalClock sendClock : Z) :
  let kept :=
    List.filter (inWindow (evalClock - windowMs (fst (getOrCreateState pid states))))
      (storedSends states pid) in
  match Graph.sendMessage states pid recipient cat evalClock sendClock with
  | (inl evaluation, states') =>
      allowed evaluation = false ∧ storedSends states' pid = kept
  | (inr registered, states') =>
      event registered
      = {| to := recipient; category := cat; timestamp := sendClock;
           costUsd := CATEGORY_COST cat |}
      ∧ storedSends states' pid = kept ++ [event registered]
  end.
Proof.
  simpl. unfold Graph.sendMessage.
  pose proof (evaluate_storedSends states pid recipient evalClock) as Hkept.
  destruct (evaluateMessagingLimit states pid recipient evalClock) as [ev states1].
  simpl in Hkept.
  destruct (allowed ev) eqn:Hal; cbn [negb].
  - pose proof (registerSend_storedSends states1 pid recipient cat sendClock) as Hreg.
    assert (event (fst (registerSend states1 pid recipient cat sendClock))
            = {| to := recipient; category := cat; timestamp := sendClock;
                 costUsd := CATEGORY_COST cat |}) as Hev.
    { unfold registerSend. by destruct (getOrCreateState pid states1). }
    destruct (registerSend states1 pid recipient cat sendClock) as [reg states2].
    simpl in *. by rewrite Hreg, Hkept.
  - done.
Qed.

(** The running total of a number is a lifetime figure that only a
    [registerSend] for that number changes: over any sequence of calls
    that registers no send for it, evaluations with their pruning,
    summaries, listings, changes of tier and sends registered for other
    numbers leave it as it was, and the summary reports it. *)
Theorem tracker_total_cost
  (states : States) (calls : list TrackerCall) (pid : string) :
  storeWellKeyed states →
  Forall (fun c => registersFor pid c = false) calls →
  let states' := foldl applyCall states calls in
  totalCostOf states' pid = totalCostOf states pid
  ∧ ∀ now, sum_totalCostUsd (fst (getMessagingSummaryForPhone states' pid now))
           = totalCostOf states pid.
Proof.
  intros Hk Hcalls. simpl.
  assert (totalCostOf (foldl applyCall states calls) pid = totalCostOf states pid) as Htotal.
  { revert states Hk. induction Hcalls as [|c calls Hc _ IH]; intros states Hk; [done|].
    simpl. rewrite IH by (by apply applyCall_keyed). by apply applyCall_cost. }
  split; [exact Htotal|].
  intros now. rewrite <- Htotal. unfold getMessagingSummaryForPhone.
  destruct (totalCostOf_getOrCreate (foldl applyCall states calls) pid pid) as [_ H2].
  destruct (getOrCreateState pid (foldl applyCall states calls)) as [s0 st1].
  exact H2.
Qed.

(** Number [A] after one marketing send: a day later the send is pruned
    by an evaluation, the tier is changed, a send is registered for [B]
    and the summaries are listed; the total of [A] is still that of its
    one send, of which nothing is stored any more. *)
Lemma tracker_total_cost_scenario :
  let states := snd (registerSend ∅ "A" "5511999" MARKETING 0) in
  let calls :=
    [ CallEvaluate "A" "5511777" (DEFAULT_WINDOW_MS + 500);
      CallSetTier "A" TIER_250;
      CallRegister "B" "5511999" AUTHENTICATION (DEFAULT_WINDOW_MS + 600);
      CallListSummaries (DEFAULT_WINDOW_MS + 700) ] in
  storedSends (foldl applyCall states calls) "A" = []
  ∧ totalCostOf states "A" = CATEGORY_COST MARKETING
  ∧ totalCostOf (foldl applyCall states calls) "A" = totalCostOf states "A"
  ∧ ∀ now, sum_totalCostUsd (fst (getMessagingSummaryForPhone (foldl applyCall states calls)
                                    "A" now))
           = totalCostOf states "A".
Proof.
  intros states calls.
  split; [by vm_compute|]. split; [by vm_compute|].
  apply (tracker_total_cost states calls "A").
  - apply (bool_decide_unpack _). vm_compute. exact I.
  - repeat constructor.
Defined.

(** Reading creates: the first reference to a number, even through a
    read, stores a fresh state for it (tier TIER_1K, a window of 24 hours,
    no sends, no cost); its summary shows no recipient of 1000, any
    recipient is allowed, and the number is listed from then on.  The
    listing itself creates nothing and has one summary per stored number. *)
Theorem first_reference_creates_state
  (states : States) (pid recipient : string) (now : Z) :
  states !! pid = None →
  let fresh :=
    {| phoneId := pid; tier := TIER_1K; windowMs := 24 * 60 * 60 * 1000;
       sends := []; totalCostUsd := 0 |} in
  getMessagingSummaryForPhone states pid now
  = ({| sum_phoneId := pid; sum_tier := TIER_1K; sum_windowMs := 24 * 60 * 60 * 1000;
        sum_windowUniqueRecipients := 0; sum_limitUniqueRecipients := Finite 1000;
        sum_totalCostUsd := 0 |}, <[pid := fresh]> states)
  ∧ snd (evaluateMessagingLimit states pid recipient now) = <[pid := fresh]> states
  ∧ allowed (fst (evaluateMessagingLimit states pid recipient now)) = true
  ∧ pid ∈ map sum_phoneId (fst (listMessagingSummaries (<[pid := fresh]> states) now))
  ∧ (pid ∉ map sum_phoneId (fst (listMessagingSummaries states now)))
  ∧ ∀ (any : States) (t : Z),
      snd (listMessagingSummaries any t) = any
      ∧ map sum_phoneId (fst (listMessagingSummaries any t)) ≡ₚ map fst (map_to_list any)
      ∧ NoDup (map sum_phoneId (fst (listMessagingSummaries any t)))
      ∧ ∀ k, k ∈ map sum_phoneId (fst (listMessagingSummaries any t)) ↔ is_Some (any !! k).
Proof.
  intros Hnone. simpl.
  assert (∀ (any : States) (t : Z),
            snd (listMessagingSummaries any t) = any
            ∧ map sum_phoneId (fst (listMessagingSummaries any t)) = map fst (map_to_list any))
    as Hlist.
  { intros any t. unfold listMessagingSummaries.
    apply (summaries_fold_states any t (map fst (map_to_list any)) []).
    apply Forall_forall. intros k Hk.
    apply list_elem_of_fmap in Hk as [[k' s] [-> Hin]].
    apply elem_of_map_to_list in Hin. by exists s. }
  assert (∀ (any : States) k, k ∈ map fst (map_to_list any) ↔ is_Some (any !! k)) as Hdom.
  { intros any k. split.
    - intros Hk. apply list_elem_of_fmap in Hk as [[k' s] [-> Hin]].
      apply elem_of_map_to_list in Hin. by exists s.
    - intros [s Hs]. apply list_elem_of_fmap. exists (k, s). split; [done|].
      by apply elem_of_map_to_list. }
  repeat split.
  - unfold getMessagingSummaryForPhone, getOrCreateState. by rewrite Hnone.
  - rewrite evaluate_states. unfold getOrCreateState. rewrite Hnone. simpl.
    by rewrite insert_insert_eq.
  - rewrite evaluate_allowed. unfold getOrCreateState. rewrite Hnone. simpl. done.
  - destruct (Hlist (<[pid := {| phoneId := pid; tier := TIER_1K;
                                 windowMs := 24 * 60 * 60 * 1000;
                                 sends := []; totalCostUsd := 0 |}]> states) now) as [_ ->].
    apply Hdom. rewrite lookup_insert_eq. by eexists.
  - destruct (Hlist states now) as [_ ->]. rewrite Hdom, Hnone. by intros [? ?].
  - apply Hlist.
  - by destruct (Hlist any t) as [_ ->].
  - destruct (Hlist any t) as [_ ->]. apply NoDup_fst_map_to_list.
  - destruct (Hlist any t) as [_ ->]. apply Hdom.
  - destruct (Hlist any t) as [_ ->]. apply Hdom.
Qed.

Lemma first_reference_creates_state_scenario :
  fst (getMessagingSummaryForPhone ∅ "A" 1000)
  = {| sum_phoneId := "A"; sum_tier := TIER_1K; sum_windowMs := 86400000;
       sum_windowUniqueRecipients := 0; sum_limitUniqueRecipients := Finite 1000;
       sum_totalCostUsd := 0 |}
  ∧ map sum_phoneId
      (fst (listMessagingSummaries (snd (getMessagingSummaryForPhone ∅ "A" 1000)) 2000))
    = ["A"].
Proof.
  destruct (first_reference_creates_state ∅ "A" "5511999" 1000 (lookup_empty "A"))
    as (Hsum & _ & _ & _ & _ & Hlist).
  rewrite Hsum. cbn [fst snd]. split; [done|].
  destruct (Hlist (<["A" := {| phoneId := "A"; tier := TIER_1K;
                               windowMs := 24 * 60 * 60 * 1000;
                               sends := []; totalCostUsd := 0 |}]> ∅) 2000)
    as (_ & Hperm & _).
  apply Permutation_singleton_r. etransitivity; [exact Hperm|]. by vm_compute.
Defined.

(** [listSendEvents] returns, newest first, the stored events of the
    selected number whose timestamp lies between the bounds given (every
    event when a bound is absent), events with equal timestamps keeping
    their stored order; an unknown number gives the empty list, and
    without a number the events of all numbers are returned. *)
Theorem listSendEvents_newest_first
  (states : States) (optPhone : option string) (since until : option Z) :
  let result := listSendEvents states optPhone since until in
  let inRange (e : SendEvent) :=
    match since with Some lo => lo ≤ timestamp e | None => True end
    ∧ match until with Some hi => timestamp e ≤ hi | None => True end in
  StronglySorted (fun a b => timestamp b ≤ timestamp a) result
  ∧ (∀ e, e ∈ result ↔
          ∃ pid s, states !! pid = Some s ∧ e ∈ sends s ∧ inRange e
                   ∧ (truthy optPhone = true → optPhone = Some pid))
  ∧ (∀ pid, optPhone = Some pid → pid ≠ EmptyString →
       result ≡ₚ List.filter (fun e => negb (outOfRange since until e)) (storedSends states pid)
       ∧ (∀ t, List.filter (fun e => timestamp e =? t) result
               = List.filter (fun e => (timestamp e =? t) && negb (outOfRange since until e))
                   (storedSends states pid))
       ∧ (states !! pid = None → result = [])).
Proof.
  simpl.
  assert (∀ e, negb (outOfRange since until e) = true ↔
               match since with Some lo => lo ≤ timestamp e | None => True end
               ∧ match until with Some hi => timestamp e ≤ hi | None => True end) as Hrange.
  { intros e. unfold outOfRange. rewrite negb_true_iff, orb_false_iff.
    destruct since, until; rewrite ?Z.ltb_ge; intuition. }
  split; [apply sortDescending_sorted|]. split.
  - intros e. unfold listSendEvents. rewrite sortDescending_perm.
    rewrite list_elem_of_In, in_flat_map. split.
    + intros (s & Hs & He). apply List.filter_In in He as [He Hr].
      apply Hrange in Hr. apply list_elem_of_In in He.
      destruct (whenTruthy optPhone) as [pid|] eqn:Hopt.
      * unfold whenTruthy in Hopt. destruct (truthy optPhone) eqn:Ht; [|done].
        subst optPhone.
        destruct (states !! pid) as [s'|] eqn:Hs'; [|by destruct Hs].
        destruct Hs as [->|[]]. exists pid, s.
        split; [done|]. split; [done|]. split; [exact Hr|done].
      * apply list_elem_of_In, list_elem_of_fmap in Hs as [[k s'] [-> Hin]].
        apply elem_of_map_to_list in Hin. exists k, s'.
        split; [done|]. split; [done|]. split; [exact Hr|].
        unfold whenTruthy in Hopt. intros Ht. rewrite Ht in Hopt. by subst optPhone.
    + intros (pid & s & Hs & He & Hr & Hopt).
      exists s. split.
      * unfold whenTruthy. destruct (truthy optPhone) eqn:Ht.
        -- rewrite (Hopt eq_refl), Hs. by left.
        -- apply list_elem_of_In, list_elem_of_fmap. exists (pid, s). split; [done|].
           by apply elem_of_map_to_list.
      * apply List.filter_In. split; [by apply list_elem_of_In|by apply Hrange].
  - intros pid -> Hne.
    assert (listSendEvents states (Some pid) since until
            = sortDescending timestamp
                (List.filter (fun e => negb (outOfRange since until e))
                   (storedSends states pid))) as ->.
    { unfold listSendEvents, whenTruthy, storedSends. simpl.
      destruct (String.eqb_spec pid EmptyString) as [->|_]; [done|]. simpl.
      destruct (states !! pid); simpl; [by rewrite app_nil_r|done]. }
    split; [apply sortDescending_perm|]. split.
    + intros t. rewrite sortDescending_stable.
      induction (storedSends states pid) as [|e l IH]; [done|].
      simpl. destruct (negb (outOfRange since until e)); simpl.
      * rewrite andb_true_r. destruct (timestamp e =? t); by rewrite IH.
      * by rewrite andb_false_r.
    + intros Hnone. unfold storedSends. by rewrite Hnone.
Qed.

End TrackerProperties.

(** ** Marketing: contacts, configuration, shared buckets and listings *)

Section MarketingProperties.

Import Marketing.

Implicit Types (st : Store).

Lemma getFrequencyKey_collision (p q r : string) :
  getFrequencyKey (p +:+ "__" +:+ q) r = getFrequencyKey p (q +:+ "__" +:+ r).
Proof.
  unfold getFrequencyKey.
  assert (∀ a b c : string, (a +:+ b) +:+ c = a +:+ (b +:+ c)) as Hassoc.
  { intros a b c. induction a as [|ch a IH]; [done|].
    change (String ch ((a +:+ b) +:+ c) = String ch (a +:+ (b +:+ c))). by rewrite IH. }
  by rewrite !Hassoc.
Qed.

(** Updating a contact keeps what the update does not give: without a
    status the recorded status stays (unknown for a new contact), so an
    opt-out survives every later update of the source or the note; the
    eligibility of the contact afterwards follows the stored status, and
    no other contact is affected. *)
Theorem marketing_contact_update_keeps_status
  (st : Store) (wa : string) (inStatus : option MarketingOptInStatus)
  (inSource inNote : option string) (now : Z) :
  let result := upsertMarketingContact st wa inStatus inSource inNote now in
  let recorded := contacts st !! wa in
  contacts (snd result) !! wa = Some (fst result)
  ∧ status (fst result) = default (default unknown (status <$> recorded)) inStatus
  ∧ source (fst result) = match inSource with Some x => Some x | None => recorded ≫= source end
  ∧ note (fst result) = match inNote with Some x => Some x | None => recorded ≫= note end
  ∧ el_allowed (evaluateMarketingEligibility (snd result) wa)
    = match status (fst result) with
      | opted_in => true
      | opted_out => false
      | unknown => negb (requireOptIn (config st))
      end
  ∧ (inStatus = None →
     el_allowed (evaluateMarketingEligibility (snd result) wa)
     = el_allowed (evaluateMarketingEligibility st wa))
  ∧ (∀ other, other ≠ wa →
       evaluateMarketingEligibility (snd result) other = evaluateMarketingEligibility st other).
Proof.
  simpl. split; [apply lookup_insert_eq|].
  split; [by destruct inStatus, (contacts st !! wa)|].
  split; [by destruct inSource|]. split; [by destruct inNote|].
  split; [|split].
  - unfold evaluateMarketingEligibility, upsertMarketingContact. simpl.
    rewrite lookup_insert_eq. simpl.
    by destruct (nullish inStatus (status <$> contacts st !! wa)) as [[]|].
  - intros ->. unfold evaluateMarketingEligibility, upsertMarketingContact. simpl.
    rewrite lookup_insert_eq. simpl.
    destruct (contacts st !! wa) as [c|]; simpl; [by destruct (status c)|done].
  - intros other Hne. unfold evaluateMarketingEligibility, upsertMarketingContact. simpl.
    by rewrite lookup_insert_ne.
Qed.

(** Whatever integer patches [PUT /config] applies, the frequency window
    stays positive and the cap stays at least one send; the registries
    are not touched, and a pair whose bucket is empty is always allowed. *)
Theorem marketing_config_stays_positive (st : Store) (patches : list ConfigPatch) :
  0 < frequencyWindowMs (config st) →
  1 ≤ maxSendsPerWindow (config st) →
  let st' := foldl applyConfigPatch st patches in
  0 < frequencyWindowMs (config st')
  ∧ 1 ≤ maxSendsPerWindow (config st')
  ∧ contacts st' = contacts st
  ∧ sends st' = sends st
  ∧ frequencyBuckets st' = frequencyBuckets st
  ∧ ∀ pid recipient now,
      bucket st (getFrequencyKey pid recipient) = [] →
      allowed (evaluateMarketingFrequency st' pid recipient now) = true.
Proof.
  simpl. revert st. induction patches as [|patch patches IH]; intros st Hw Hm.
  - simpl. repeat split; try done.
    intros pid recipient now Hb. unfold evaluateMarketingFrequency. rewrite Hb. simpl.
    apply Z.ltb_lt. lia.
  - simpl foldl.
    assert (0 < frequencyWindowMs (config (applyConfigPatch st patch))
            ∧ 1 ≤ maxSendsPerWindow (config (applyConfigPatch st patch))) as [Hw' Hm'].
    { unfold applyConfigPatch, updateMarketingConfig. simpl. split.
      - destruct (patch_frequencyWindowMs patch) as [w|]; [|done].
        unfold clampPositive. destruct (Z.leb_spec w 0); lia.
      - destruct (patch_maxSendsPerWindow patch) as [m|]; [lia|done]. }
    destruct (IH _ Hw' Hm') as (H1 & H2 & H3 & H4 & H5 & H6).
    repeat split; done.
Qed.

Lemma marketing_config_stays_positive_scenario :
  let st' :=
    foldl applyConfigPatch initialStore
      [ {| patch_frequencyWindowMs := Some 0; patch_maxSendsPerWindow := Some (-5);
           patch_requireOptIn := Some false |};
        {| patch_frequencyWindowMs := Some 3600000; patch_maxSendsPerWindow := None;
           patch_requireOptIn := None |} ] in
  config st'
  = {| frequencyWindowMs := 3600000; maxSendsPerWindow := 1; requireOptIn := false |}
  ∧ 0 < frequencyWindowMs (config st')
  ∧ 1 ≤ maxSendsPerWindow (config st').
Proof.
  split; [done|].
  pose proof (marketing_config_stays_positive initialStore
                [ {| patch_frequencyWindowMs := Some 0; patch_maxSendsPerWindow := Some (-5);
                     patch_requireOptIn := Some false |};
                  {| patch_frequencyWindowMs := Some 3600000; patch_maxSendsPerWindow := None;
                     patch_requireOptIn := None |} ]) as H.
  destruct H as (H1 & H2 & _); [simpl; lia|simpl; lia|]. split; [exact H1|exact H2].
Defined.

(** Registration never checks the cap, and the count belongs to the key
    [phoneId__to], not to the pair: an unscheduled send raises by one the
    count that the next evaluation sees for every pair with the same key,
    such as (a__b, c) and (a, b__c), so that with a cap of one send that
    pair is refused. *)
Theorem unscheduled_send_counts_for_its_key
  (st : Store) (params : RegisterParams) (now : Z) (rnd : string) (pid recipient : string) :
  p_sendAt params = None →
  0 ≤ frequencyWindowMs (config st) →
  getFrequencyKey pid recipient = getFrequencyKey (p_phoneId params) (p_to params) →
  let st' := snd (registerMarketingSend st params now rnd) in
  sendsInWindow (evaluateMarketingFrequency st' pid recipient now)
  = S (sendsInWindow (evaluateMarketingFrequency st pid recipient now))
  ∧ (maxSendsPerWindow (config st) ≤ 1 →
     allowed (evaluateMarketingFrequency st' pid recipient now) = false).
Proof.
  intros Hat Hw Hkey. simpl.
  assert (sendsInWindow
            (evaluateMarketingFrequency (snd (registerMarketingSend st params now rnd))
               pid recipient now)
          = S (sendsInWindow (evaluateMarketingFrequency st pid recipient now))) as Hcount.
  { rewrite !evaluate_sendsInWindow, register_config, register_bucket.
    unfold paramsKey. rewrite <- Hkey. rewrite decide_True by done.
    rewrite Hat.
    set (f := notBefore (now - frequencyWindowMs (config st))).
    assert (∀ l : list MarketingSendRecord, List.filter f (List.filter f l) = List.filter f l)
      as Hidem.
    { intros l. induction l as [|x l IH]; [done|]. simpl.
      destruct (f x) eqn:Hx; simpl; [by rewrite Hx, IH|done]. }
    assert (f (fst (registerMarketingSend st params now rnd)) = true) as Hnew.
    { unfold f, notBefore, effectiveTime, registerMarketingSend. simpl. rewrite Hat.
      apply Z.leb_le. lia. }
    rewrite Hidem, List.filter_app, length_app. cbn [List.filter]. rewrite Hnew.
    simpl. lia. }
  split; [exact Hcount|].
  intros Hmax. unfold evaluateMarketingFrequency in *. simpl in *.
  rewrite Hcount. apply Z.ltb_ge. lia.
Qed.

Lemma unscheduled_send_counts_for_its_key_scenario :
  let st' :=
    snd (registerMarketingSend initialStore (sendParams "15550001__5511" "999" None)
           1000 "aaaaaa") in
  sendsInWindow (evaluateMarketingFrequency st' "15550001" "5511__999" 1000) = 1%nat
  ∧ allowed (evaluateMarketingFrequency st' "15550001" "5511__999" 1000) = false.
Proof.
  destruct (unscheduled_send_counts_for_its_key initialStore
              (sendParams "15550001__5511" "999" None) 1000 "aaaaaa"
              "15550001" "5511__999") as [H1 H2];
    [reflexivity|simpl; lia|reflexivity|].
  split; [exact H1|]. apply H2. simpl. lia.
Defined.

(** The conversion log keeps the latest 500 events in the order they
    were recorded, the one just recorded being the last, and the listing
    returns them newest first, events created at the same instant
    keeping their order; the send ledger is listed the same way. *)
Theorem marketing_listings_newest_first
  (st : Store) (conversions : list MarketingConversionEvent)
  (params : ConversionParams) (idClock : Z) (rnd : string) (now : Z) :
  let recorded := recordMarketingConversion conversions params idClock rnd now in
  snd recorded = drop (length conversions + 1 - 500) (conversions ++ [fst recorded])
  ∧ (length (snd recorded) ≤ 500)%nat
  ∧ last (snd recorded) = Some (fst recorded)
  ∧ conv_createdAt (fst recorded) = now
  ∧ StronglySorted (fun a b => conv_createdAt b ≤ conv_createdAt a)
      (listMarketingConversions (snd recorded))
  ∧ listMarketingConversions (snd recorded) ≡ₚ snd recorded
  ∧ (∀ t, List.filter (fun c => conv_createdAt c =? t) (listMarketingConversions (snd recorded))
          = List.filter (fun c => conv_createdAt c =? t) (snd recorded))
  ∧ StronglySorted (fun a b => sendTimestamp b ≤ sendTimestamp a) (listMarketingSends st)
  ∧ listMarketingSends st ≡ₚ sends st
  ∧ (∀ t, List.filter (fun r => sendTimestamp r =? t) (listMarketingSends st)
          = List.filter (fun r => sendTimestamp r =? t) (sends st)).
Proof.
  cbv zeta. unfold recordMarketingConversion. cbn [fst snd].
  set (ev := {| conv_id := "conv_" +:+ pretty idClock +:+ "_" +:+ rnd;
                conv_waId := cp_waId params; conv_sendId := cp_sendId params;
                conv_event := cp_event params; conv_value := cp_value params;
                conv_currency := cp_currency params; conv_metadata := cp_metadata params;
                conv_createdAt := now |}).
  assert (capRing 500 (conversions ++ [ev])
          = drop (length conversions + 1 - 500) (conversions ++ [ev])) as Hlog.
  { rewrite capRing_drop, length_app. done. }
  split; [exact Hlog|].
  split; [rewrite capRing_length; lia|].
  split.
  { rewrite Hlog.
    rewrite drop_app_le by lia. apply last_snoc. }
  split; [done|].
  split; [apply sortDescending_sorted|].
  split; [apply sortDescending_perm|].
  split; [intros t; apply sortDescending_stable|].
  split; [apply sortDescending_sorted|].
  split; [apply sortDescending_perm|].
  intros t. apply sortDescending_stable.
Qed.

End MarketingProperties.

(** ** Contact policy *)

Section PolicyProperties.

Import Policy.

(** A contact is refused exactly when its stored status is the string
    [blocked]: no record, [allowed], [unknown] and any other string are
    all allowed.  An update that gives no status, or the empty string,
    keeps the stored status (unknown for a new contact or for a stored
    status that is the empty string), label and note being kept when the
    update gives none, so a block survives updates of the label and the
    note; other contacts are not affected. *)
Theorem policy_refuses_only_blocked
  (contacts : Contacts) (wa : string) (inLabel inStatus inNote : option string) (now : Z) :
  let result := upsertContactPolicy contacts wa inLabel inStatus inNote now in
  allowed (evaluatePolicyForWaId contacts wa)
  = negb (bool_decide (status <$> contacts !! wa = Some "blocked"))
  ∧ snd result !! wa = Some (fst result)
  ∧ allowed (evaluatePolicyForWaId (snd result) wa)
    = negb (String.eqb (status (fst result)) "blocked")
  ∧ (truthy inStatus = true → Some (status (fst result)) = inStatus)
  ∧ (truthy inStatus = false →
     allowed (evaluatePolicyForWaId (snd result) wa)
     = allowed (evaluatePolicyForWaId contacts wa))
  ∧ (∀ other, other ≠ wa →
       evaluatePolicyForWaId (snd result) other = evaluatePolicyForWaId contacts other)
  ∧ (truthy inStatus = false →
     status (fst result)
     = match contacts !! wa with
       | Some stored =>
           if String.eqb (status stored) EmptyString then "unknown" else status stored
       | None => "unknown"
       end)
  ∧ (waId (fst result), updatedAt (fst result)) = (wa, now)
  ∧ label (fst result)
    = match inLabel with Some l => Some l | None => contacts !! wa ≫= label end
  ∧ note (fst result)
    = match inNote with Some n => Some n | None => contacts !! wa ≫= note end
  ∧ (∀ stored, contacts !! wa = Some stored → status stored = "blocked" →
       truthy inStatus = false →
       status (fst result) = "blocked"
       ∧ allowed (evaluatePolicyForWaId (snd result) wa) = false).
Proof.
  simpl.
  assert (truthy inStatus = false →
          status (fst (upsertContactPolicy contacts wa inLabel inStatus inNote now))
          = match contacts !! wa with
            | Some stored =>
                if String.eqb (status stored) EmptyString then "unknown" else status stored
            | None => "unknown"
            end) as Hkept.
  { intros Ht. simpl. unfold orElse. rewrite Ht.
    destruct (contacts !! wa) as [c|]; simpl; [|done].
    destruct (String.eqb_spec (status c) EmptyString) as [Heq|Hne]; simpl; [done|].
    by destruct (String.eqb_spec (status c) EmptyString). }
  assert (∀ (cs : Contacts) k,
            allowed (evaluatePolicyForWaId cs k)
            = match cs !! k with
              | Some c => negb (String.eqb (status c) "blocked")
              | None => true
              end) as Heval.
  { intros cs k. unfold evaluatePolicyForWaId.
    destruct (cs !! k) as [c|]; [|done].
    destruct (String.eqb (status c) "blocked"); [done|].
    by destruct (String.eqb (status c) "allowed"). }
  split.
  { rewrite Heval. destruct (contacts !! wa) as [c|]; simpl; [|done].
    destruct (String.eqb_spec (status c) "blocked") as [Heq|Hne]; simpl.
    - by rewrite bool_decide_eq_true_2 by (by rewrite Heq).
    - rewrite bool_decide_eq_false_2; [done|]. intros [=]. done. }
  split; [apply lookup_insert_eq|].
  split; [by rewrite Heval, lookup_insert_eq|].
  split.
  { intros Ht. unfold orElse. rewrite Ht. simpl. rewrite Ht. by destruct inStatus. }
  split.
  - intros Ht. rewrite !Heval, lookup_insert_eq. simpl. unfold orElse. rewrite Ht.
    destruct (contacts !! wa) as [c|]; simpl; [|done].
    destruct (String.eqb_spec (status c) EmptyString) as [Heq|Hne]; simpl.
    + by rewrite Heq.
    + destruct (String.eqb_spec (status c) EmptyString); done.
  - split.
    { intros other Hne. unfold evaluatePolicyForWaId. simpl. by rewrite lookup_insert_ne. }
    split; [exact Hkept|].
    split; [done|].
    split; [by destruct inLabel|].
    split; [by destruct inNote|].
    intros stored Hstored Hblocked Ht.
    assert (status (fst (upsertContactPolicy contacts wa inLabel inStatus inNote now))
            = "blocked") as Hstatus.
    { rewrite (Hkept Ht), Hstored, Hblocked. done. }
    split; [exact Hstatus|].
    rewrite Heval. simpl. rewrite lookup_insert_eq.
    simpl in Hstatus. by rewrite Hstatus.
Qed.

End PolicyProperties.

(** ** Phone numbers: verification, registration, profile and overrides *)

Section PhoneProperties.

Import WebhookRouting.

Implicit Types (phones : Phones) (wabas : Wabas) (p phone : PhoneNumberConfig).

Lemma storePhone_keyed key p phones :
  id p = key → phonesWellKeyed phones → phonesWellKeyed (storePhone key p phones).
Proof.
  intros Hid Hk. unfold storePhone.
  apply map_Forall_insert_2; [done|]. by apply map_Forall_insert_2.
Qed.

Lemma storePhone_other key p phones k :
  k ≠ key → k ≠ id p → storePhone key p phones !! k = phones !! k.
Proof. intros H1 H2. unfold storePhone. by rewrite !lookup_insert_ne. Qed.

(** Requesting a code puts the number in PENDING whatever its status
    was, a verified number included, and replaces any code requested
    before; presenting exactly the code issued verifies the number,
    any other code is refused and changes nothing.  Neither step touches
    the registration, the PIN or the routing of the number. *)
Theorem verification_code_flow
  (phones : Phones) (pid : string) (m : CodeMethod) (lang : string)
  (codeOverride : option string) (generated : string) (now : Z)
  (phone : PhoneNumberConfig) (attempt : string) :
  phones !! pid = Some phone →
  let issued := default generated codeOverride in
  let requested := requestPhoneVerificationCode phones pid m lang codeOverride generated now in
  let verified := verifyPhoneNumberCode (snd requested) pid attempt in
  fst requested
  = Some {| code := issued; method := m; language := lang; requestedAt := now |}
  ∧ (∃ pending,
       snd requested !! pid = Some pending
       ∧ verificationStatus pending = PENDING
       ∧ pendingVerificationCode pending = fst requested
       ∧ routingView pending = routingView phone
       ∧ (twoStepVerificationPin pending, registered pending, dataLocalizationRegion pending,
          registerRequests pending, deregisterRequests pending)
         = (twoStepVerificationPin phone, registered phone, dataLocalizationRegion phone,
            registerRequests phone, deregisterRequests phone))
  ∧ fst verified = bool_decide (attempt = issued)
  ∧ (attempt ≠ issued → snd verified = snd requested)
  ∧ (attempt = issued →
     ∃ done,
       snd verified !! pid = Some done
       ∧ verificationStatus done = VERIFIED
       ∧ pendingVerificationCode done = None
       ∧ routingView done = routingView phone
       ∧ (twoStepVerificationPin done, registered done, dataLocalizationRegion done,
          registerRequests done, deregisterRequests done)
         = (twoStepVerificationPin phone, registered phone, dataLocalizationRegion phone,
            registerRequests phone, deregisterRequests phone)).
Proof.
  intros Hp. simpl.
  unfold requestPhoneVerificationCode. rewrite Hp. cbn [fst snd].
  split; [by destruct codeOverride|].
  split.
  { eexists. split; [apply storePhone_lookup|]. by destruct codeOverride. }
  unfold verifyPhoneNumberCode. rewrite storePhone_lookup. cbn [pendingVerificationCode withVerification code].
  destruct (String.eqb_spec (default generated codeOverride) attempt) as [Heq|Hne].
  - assert (match codeOverride with Some c => c | None => generated end = attempt) as Heq'
      by (by destruct codeOverride).
    destruct (String.eqb_spec (match codeOverride with Some c => c | None => generated end)
                attempt) as [_|Hne']; [|done].
    cbn [negb fst snd]. split; [by rewrite bool_decide_eq_true_2|].
    split; [done|]. intros _.
    eexists. split; [apply storePhone_lookup|]. done.
  - assert (match codeOverride with Some c => c | None => generated end ≠ attempt) as Hne'
      by (by destruct codeOverride).
    destruct (String.eqb_spec (match codeOverride with Some c => c | None => generated end)
                attempt) as [Heq'|_]; [done|].
    cbn [negb fst snd]. split; [by rewrite bool_decide_eq_false_2|].
    split; [done|]. intros Heq. by subst attempt.
Qed.

Lemma verification_code_flow_scenario :
  let requested :=
    requestPhoneVerificationCode scenarioPhones "Q" SMS "en_US" None "654321" 10 in
  (code <$> fst requested) = Some "654321"
  ∧ fst (verifyPhoneNumberCode (snd requested) "Q" "000000") = false
  ∧ fst (verifyPhoneNumberCode (snd requested) "Q" "654321") = true.
Proof.
  assert (∃ q, scenarioPhones !! "Q" = Some q) as [q Hq] by (by vm_compute; eexists).
  pose proof (verification_code_flow scenarioPhones "Q" SMS "en_US" None "654321" 10 q
                "000000" Hq) as (H1 & _ & H2 & _).
  pose proof (verification_code_flow scenarioPhones "Q" SMS "en_US" None "654321" 10 q
                "654321" Hq) as (_ & _ & H3 & _).
  simpl in *. rewrite H1, H2, H3. done.
Defined.

(** No operation creates a number except [upsertPhoneNumber]: on an
    identifier that is not stored, every other operation reports failure
    and leaves the registry as it was, and the resolver treats the
    request as if it named no phone. *)
Theorem unknown_phone_is_never_created
  (cfg : Config.RuntimeConfig) (wabas : Wabas) (phones : Phones) (pid : string) :
  phones !! pid = None →
  (∀ m lang codeOverride generated now,
     requestPhoneVerificationCode phones pid m lang codeOverride generated now
     = (None, phones))
  ∧ (∀ given, verifyPhoneNumberCode phones pid given = (false, phones))
  ∧ (∀ pin, setTwoStepVerificationPin phones pid pin = (None, phones))
  ∧ (∀ flag, setIdentityKeyCheckForNumber phones pid flag = (false, phones))
  ∧ (∀ pin region now,
       registerPhoneNumber phones pid pin region now = (RegFail not_found None None, phones))
  ∧ (∀ now, deregisterPhoneNumber phones pid now = (RegFail not_found None None, phones))
  ∧ getConversationalAutomation phones pid = (None, phones)
  ∧ (∀ enable cmds prs,
       updateConversationalAutomation phones pid enable cmds prs = (None, phones))
  ∧ (∀ optWabaId,
       resolveWebhookTarget cfg wabas phones (Some pid) optWabaId
       = resolveWebhookTarget cfg wabas phones None optWabaId).
Proof.
  intros Hnone.
  unfold requestPhoneVerificationCode, verifyPhoneNumberCode, setTwoStepVerificationPin,
    setIdentityKeyCheckForNumber, registerPhoneNumber, deregisterPhoneNumber,
    getConversationalAutomation, updateConversationalAutomation.
  rewrite Hnone. repeat split.
  intros optWabaId. unfold resolveWebhookTarget, resolveViaPhone.
  destruct (whenTruthy (Some pid)) as [k|] eqn:Hk; [|done].
  unfold whenTruthy in Hk. destruct (truthy (Some pid)); [|done].
  injection Hk as <-. by rewrite Hnone.
Qed.

Lemma unknown_phone_is_never_created_scenario :
  registerPhoneNumber scenarioPhones "Z" "123456" None 1000
  = (RegFail not_found None None, scenarioPhones)
  ∧ verifyPhoneNumberCode scenarioPhones "Z" "123456" = (false, scenarioPhones)
  ∧ resolveWebhookTarget scenarioConfig scenarioWabas scenarioPhones (Some "Z") (Some "W")
    = resolveWebhookTarget scenarioConfig scenarioWabas scenarioPhones None (Some "W").
Proof.
  assert (scenarioPhones !! "Z" = None) as Hz by (by vm_compute).
  destruct (unknown_phone_is_never_created scenarioConfig scenarioWabas scenarioPhones "Z" Hz)
    as (_ & Hv & _ & _ & Hr & _ & _ & _ & Hres).
  split; [apply Hr|]. split; [apply Hv|apply Hres].
Defined.

(** Registration and deregistration change the registration alone.  A
    successful registration stores the PIN, sets [registered] and stores
    the region in upper case (none for an absent or empty region; the
    case mapping is stated for a region of ASCII characters); a
    successful deregistration clears [registered] and the region and
    keeps the PIN; a throttled call changes nothing but the pruned
    attempts of its own kind.  The verification status is neither
    consulted nor changed, so an unverified number can be registered, and
    the routing of the number is left alone. *)
Theorem registration_changes_registration_only
  (phones : Phones) (pid pin : string) (region : option string) (now : Z)
  (phone : PhoneNumberConfig) :
  phones !! pid = Some phone →
  let untouched (p : PhoneNumberConfig) :=
    (routingView p, verificationStatus p, pendingVerificationCode p,
     identityKeyCheckEnabled p, lastOnboardedTime p, conversationalAutomation p) in
  (∃ p',
     snd (registerPhoneNumber phones pid pin region now) !! pid = Some p'
     ∧ untouched p' = untouched phone
     ∧ deregisterRequests p' = deregisterRequests phone
     ∧ match fst (registerPhoneNumber phones pid pin region now) with
       | RegOk returned =>
           returned = p'
           ∧ registered p' = Some true
           ∧ twoStepVerificationPin p' = Some pin
           ∧ match region with
             | Some r =>
                 if String.eqb r EmptyString then dataLocalizationRegion p' = None
                 else isAscii r = true → dataLocalizationRegion p' = Some (toUpperCase r)
             | None => dataLocalizationRegion p' = None
             end
           ∧ registerRequests p'
             = Some (pruneWindow (ensureArray (registerRequests phone)) now ++ [now])
       | RegFail e _ _ =>
           e = rate_limited
           ∧ (registered p', twoStepVerificationPin p', dataLocalizationRegion p')
             = (registered phone, twoStepVerificationPin phone, dataLocalizationRegion phone)
           ∧ registerRequests p'
             = Some (pruneWindow (ensureArray (registerRequests phone)) now)
       end)
  ∧ (∃ p',
       snd (deregisterPhoneNumber phones pid now) !! pid = Some p'
       ∧ untouched p' = untouched phone
       ∧ registerRequests p' = registerRequests phone
       ∧ twoStepVerificationPin p' = twoStepVerificationPin phone
       ∧ match fst (deregisterPhoneNumber phones pid now) with
         | RegOk returned =>
             returned = p'
             ∧ registered p' = Some false
             ∧ dataLocalizationRegion p' = None
             ∧ deregisterRequests p'
               = Some (pruneWindow (ensureArray (deregisterRequests phone)) now ++ [now])
         | RegFail e _ _ =>
             e = rate_limited
             ∧ (registered p', dataLocalizationRegion p')
               = (registered phone, dataLocalizationRegion phone)
             ∧ deregisterRequests p'
               = Some (pruneWindow (ensureArray (deregisterRequests phone)) now)
         end).
Proof.
  intros Hp. cbv zeta. split.
  - unfold registerPhoneNumber. rewrite Hp.
    destruct (REQUEST_LIMIT <=? length (pruneWindow (ensureArray (registerRequests phone)) now))%nat;
      cbn [fst snd]; eexists; (split; [apply storePhone_lookup|]).
    + done.
    + repeat split. cbn. unfold whenTruthy, truthy.
      destruct region as [r|]; [|done]. by destruct (String.eqb r EmptyString).
  - unfold deregisterPhoneNumber. rewrite Hp.
    destruct (REQUEST_LIMIT <=? length (pruneWindow (ensureArray (deregisterRequests phone)) now))%nat;
      cbn [fst snd]; eexists; (split; [apply storePhone_lookup|]); done.
Qed.

Lemma registration_changes_registration_only_scenario :
  ∃ q',
    snd (registerPhoneNumber scenarioPhones "Q" "123456" (Some "br") 1000) !! "Q" = Some q'
    ∧ verificationStatus q' = UNVERIFIED
    ∧ registered q' = Some true
    ∧ dataLocalizationRegion q' = Some "BR".
Proof.
  assert (∃ q, scenarioPhones !! "Q" = Some q ∧ verificationStatus q = UNVERIFIED)
    as (q & Hq & Hst) by (vm_compute; eexists; split; reflexivity).
  destruct (registration_changes_registration_only scenarioPhones "Q" "123456" (Some "br")
              1000 q Hq) as [(q' & Hq' & Hsame & _ & Hres) _].
  exists q'. split; [exact Hq'|].
  assert (fst (registerPhoneNumber scenarioPhones "Q" "123456" (Some "br") 1000)
          = RegOk (withRegistration (withRegisterAttempts q [1000]) (Some "123456") true
                     (Some "BR"))) as Hok.
  { unfold registerPhoneNumber. rewrite Hq.
    assert (registerRequests q = Some []) as ->.
    { assert (registerRequests <$> scenarioPhones !! "Q" = Some (Some [])) as Hr
        by (by vm_compute).
      rewrite Hq in Hr. by injection Hr. }
    reflexivity. }
  rewrite Hok in Hres. destruct Hres as (_ & Hreg & _ & Hregion & _).
  split; [|split; [exact Hreg|exact (Hregion eq_refl)]].
  injection Hsame as _ Hv _ _ _ _. congruence.
Defined.

(** [upsertPhoneNumber] is the profile editor: on a stored number it
    changes the display number and the profile fields the input gives and
    nothing of the lifecycle (verification, pending code, PIN,
    registration, throttle attempts); on a new identifier it creates the
    number unverified, unregistered, with quality NA and mode SANDBOX.
    The result is what a later lookup returns, and every number stays
    stored under its own identifier. *)
Theorem upsertPhoneNumber_keeps_lifecycle
  (phones : Phones) (input : UpsertPhoneInput) (now : Z) :
  let result := upsertPhoneNumber phones input now in
  getPhoneNumber (snd result) (in_id input) = Some (fst result)
  ∧ displayPhoneNumber (fst result) = in_displayPhoneNumber input
  ∧ match phones !! in_id input with
    | Some phone =>
        id (fst result) = id phone
        ∧ lifecycleView (fst result) = lifecycleView phone
        ∧ (identityKeyCheckEnabled (fst result), lastOnboardedTime (fst result),
           conversationalAutomation (fst result))
          = (identityKeyCheckEnabled phone, lastOnboardedTime phone,
             conversationalAutomation phone)
        ∧ phone_wabaId (fst result)
          = match in_wabaId input with Some w => Some w | None => phone_wabaId phone end
        ∧ qualityRating (fst result)
          = match in_qualityRating input with Some q => Some q | None => qualityRating phone end
    | None =>
        id (fst result) = in_id input
        ∧ lifecycleView (fst result)
          = (UNVERIFIED, None, None, Some false, None, Some [], Some [])
        ∧ (identityKeyCheckEnabled (fst result), lastOnboardedTime (fst result),
           conversationalAutomation (fst result))
          = (Some false, Some now, Some defaultAutomation)
        ∧ phone_wabaId (fst result) = in_wabaId input
        ∧ qualityRating (fst result) = Some (default NA (in_qualityRating input))
        ∧ accountMode (fst result) = Some (default SANDBOX (in_accountMode input))
    end
  ∧ (phonesWellKeyed phones →
     phonesWellKeyed (snd result)
     ∧ ∀ other, other ≠ in_id input → snd result !! other = phones !! other).
Proof.
  cbv zeta. unfold upsertPhoneNumber, getPhoneNumber. cbn [fst snd].
  split; [apply storePhone_lookup|]. split; [done|]. split.
  - destruct (phones !! in_id input) as [phone|] eqn:Hp; cbn.
    + by destruct (in_wabaId input), (in_qualityRating input).
    + by destruct (in_wabaId input), (in_qualityRating input), (in_accountMode input).
  - intros Hk.
    assert (id (match phones !! in_id input with
                | Some p => p
                | None => freshPhone input now
                end) = in_id input) as Hid.
    { destruct (phones !! in_id input) as [phone|] eqn:Hp; [exact (Hk _ _ Hp)|done]. }
    split.
    + apply storePhone_keyed; [exact Hid|done].
    + intros other Hne. apply storePhone_other; [done|]. cbn [id]. by rewrite Hid.
Qed.

Lemma upsertPhoneNumber_keeps_lifecycle_scenario :
  let registered :=
    snd (registerPhoneNumber scenarioPhones "Q" "123456" (Some "br") 1000) in
  let renamed :=
    upsertPhoneNumber registered
      {| in_id := "Q"; in_displayPhoneNumber := "+55 11 95555-0002";
         in_wabaId := Some "W"; in_webhookConfiguration := None;
         in_verifiedName := Some "Shop"; in_qualityRating := None;
         in_accountMode := None |} 2000 in
  phonesWellKeyed (snd renamed)
  ∧ (displayPhoneNumber (fst renamed), phone_wabaId (fst renamed),
     twoStepVerificationPin (fst renamed), WebhookRouting.registered (fst renamed),
     dataLocalizationRegion (fst renamed))
    = ("+55 11 95555-0002", Some "W", Some "123456", Some true, Some "BR").
Proof.
  cbv zeta. split; [|by vm_compute].
  apply (upsertPhoneNumber_keeps_lifecycle
           (snd (registerPhoneNumber scenarioPhones "Q" "123456" (Some "br") 1000))).
  apply (bool_decide_unpack _). vm_compute. exact I.
Defined.

Lemma resolve_phone_override cfg wabas phones pid optWabaId p u :
  truthy (Some pid) = true →
  phones !! pid = Some p →
  phoneOverrideUri p = Some u →
  resolveWebhookTarget cfg wabas phones (Some pid) optWabaId
  = Some {| url := u; source := source_phone; target_phoneId := Some (id p);
            target_wabaId := whenTruthy (phone_wabaId p); appSecret := None |}.
Proof.
  intros Ht Hp Hu. unfold resolveWebhookTarget, resolveViaPhone.
  unfold whenTruthy at 1. by rewrite Ht, Hp, Hu.
Qed.

Lemma resolve_without_phone_override cfg wabas phones pid optWabaId p :
  phones !! pid = Some p →
  phoneOverrideUri p = None →
  source <$> resolveWebhookTarget cfg wabas phones (Some pid) optWabaId ≠ Some source_phone.
Proof.
  intros Hp Hu. unfold resolveWebhookTarget.
  assert (source <$> resolveViaWaba wabas optWabaId ≠ Some source_phone) as Hw.
  { unfold resolveViaWaba. destruct (whenTruthy optWabaId) as [w|]; [|done].
    by destruct (wabaOverride wabas w) as [[? ?]|]. }
  assert (source <$> resolveViaApp cfg ≠ Some source_phone) as Ha.
  { unfold resolveViaApp. by destruct (whenTruthy (Config.targetWebhookUrl cfg)). }
  destruct (resolveViaPhone wabas phones (Some pid)) as [r|] eqn:Hr.
  - unfold resolveViaPhone in Hr.
    destruct (whenTruthy (Some pid)) as [k|] eqn:Hk; [|done].
    unfold whenTruthy in Hk. destruct (truthy (Some pid)); [|done].
    injection Hk as <-. rewrite Hp, Hu in Hr.
    destruct (whenTruthy (phone_wabaId p)) as [w|]; [|done].
    destruct (wabaOverride wabas w) as [[? ?]|]; [|done]. by injection Hr as <-.
  - by destruct (resolveViaWaba wabas optWabaId).
Qed.

(** An override takes effect in the resolver as soon as it is stored and
    the empty string clears it: after [upsertWaba] with a callback, a
    request naming only that WABA resolves to it with source waba; after
    [upsertWaba] with the empty string the request falls through to the
    global default; an update that gives no callback leaves the
    resolution as it was.  The same holds for the override of a phone
    number set through [upsertPhoneNumber]. *)
Theorem overrides_take_effect_and_clear
  (cfg : Config.RuntimeConfig) (wabas : Wabas) (phones : Phones)
  (wid pid : string) (token : option string) (input : UpsertPhoneInput) (now : Z) :
  wid ≠ EmptyString →
  in_id input = pid →
  pid ≠ EmptyString →
  (∀ uri,
     let wabas' := snd (upsertWaba wabas wid uri token) in
     let resolved := resolveWebhookTarget cfg wabas' phones None (Some wid) in
     match uri with
     | Some u =>
         if String.eqb u EmptyString
         then resolved = resolveViaApp cfg
         else (url <$> resolved) = Some u
              ∧ (source <$> resolved) = Some source_waba
              ∧ (appSecret <$> resolved) = Some None
     | None => resolved = resolveWebhookTarget cfg wabas phones None (Some wid)
     end)
  ∧ (∀ u legacyToken optWabaId,
       in_webhookConfiguration input
       = Some {| pw_overrideCallbackUri := Some u; pw_verifyToken := legacyToken |} →
       let phones' := snd (upsertPhoneNumber phones input now) in
       let resolved := resolveWebhookTarget cfg wabas phones' (Some pid) optWabaId in
       if String.eqb u EmptyString
       then (source <$> resolved) ≠ Some source_phone
       else (url <$> resolved) = Some u
            ∧ (source <$> resolved) = Some source_phone
            ∧ (appSecret <$> resolved) = Some None).
Proof.
  intros Hwid Hin Hpid. split.
  - intros uri. cbv zeta.
    assert (truthy (Some wid) = true) as Htw.
    { simpl. by destruct (String.eqb_spec wid EmptyString). }
    unfold resolveWebhookTarget. cbn [resolveViaPhone whenTruthy truthy].
    unfold resolveViaWaba, whenTruthy. rewrite Htw.
    unfold wabaOverride, upsertWaba. cbn [snd].
    assert (∀ (w : WabaOverrideConfig) (m : Wabas),
              (<[wabaId w := w]> (<[wid := w]> m)) !! wid = Some w) as Hlook.
    { intros w m. destruct (decide (wabaId w = wid)) as [->|Hne].
      - apply lookup_insert_eq.
      - rewrite lookup_insert_ne by done. apply lookup_insert_eq. }
    rewrite Hlook. cbn [overrideCallbackUri wabaId patchField].
    destruct uri as [u|]; cbn [patchField].
    + unfold whenTruthy. cbn [truthy].
      destruct (String.eqb_spec u EmptyString) as [->|Hne]; cbn [negb truthy].
      * done.
      * cbn [truthy]. destruct (String.eqb_spec u EmptyString); [done|]. done.
    + destruct (wabas !! wid) as [w|] eqn:Hw; cbn.
      * by destruct (whenTruthy (overrideCallbackUri w)).
      * done.
  - intros u legacyToken optWabaId Hcfg. cbv zeta.
    assert (truthy (Some pid) = true) as Htp.
    { simpl. by destruct (String.eqb_spec pid EmptyString). }
    assert (snd (upsertPhoneNumber phones input now) !! pid
            = Some (fst (upsertPhoneNumber phones input now))) as Hlook.
    { unfold upsertPhoneNumber. cbn [fst snd]. rewrite Hin. apply storePhone_lookup. }
    assert (phoneOverrideUri (fst (upsertPhoneNumber phones input now))
            = whenTruthy (Some u)) as Huri.
    { unfold upsertPhoneNumber, phoneOverrideUri. cbn [fst webhookConfiguration].
      by rewrite Hcfg. }
    unfold whenTruthy in Huri. cbn [truthy] in Huri.
    destruct (String.eqb_spec u EmptyString) as [->|Hne]; cbn [negb] in Huri.
    + by apply resolve_without_phone_override with (p := fst (upsertPhoneNumber phones input now)).
    + by rewrite (resolve_phone_override cfg wabas _ pid optWabaId _ u Htp Hlook Huri).
Qed.

Lemma overrides_take_effect_and_clear_scenario :
  (url <$> resolveWebhookTarget scenarioConfig
             (snd (upsertWaba scenarioWabas "W" (Some "https://w2") None))
             scenarioPhones None (Some "W")) = Some "https://w2"
  ∧ (url <$> resolveWebhookTarget scenarioConfig
               (snd (upsertWaba scenarioWabas "W" (Some EmptyString) None))
               scenarioPhones None (Some "W")) = Some "https://g".
Proof.
  destruct (overrides_take_effect_and_clear scenarioConfig scenarioWabas scenarioPhones
              "W" "Q" None
              {| in_id := "Q"; in_displayPhoneNumber := "+55 11 90000-0002";
                 in_wabaId := None; in_webhookConfiguration := None;
                 in_verifiedName := None; in_qualityRating := None;
                 in_accountMode := None |} 5) as [Hw _]; [done|done|done|].
  split.
  - by destruct (Hw (Some "https://w2")) as (H & _).
  - pose proof (Hw (Some EmptyString)) as H. cbn [String.eqb] in H. rewrite H. done.
Defined.

(** The conversational automation of a stored number is patched field
    by field: what the update does not give stays as it was, the defaults
    (welcome message off, no commands, no prompts) standing in for a
    number that has none; the value returned is what a later read
    returns, and that read changes nothing. *)
Theorem conversational_automation_patch
  (phones : Phones) (pid : string) (phone : PhoneNumberConfig)
  (enable : option bool) (cmds : option (list ConversationalCommand))
  (prs : option (list string)) :
  phones !! pid = Some phone →
  let current := default defaultAutomation (conversationalAutomation phone) in
  let result := updateConversationalAutomation phones pid enable cmds prs in
  fst (getConversationalAutomation phones pid) = Some current
  ∧ fst result
    = Some {| enable_welcome_message :=
                match enable with Some b => Some b | None => enable_welcome_message current end;
              commands := match cmds with Some c => Some c | None => commands current end;
              prompts := match prs with Some x => Some x | None => prompts current end |}
  ∧ getConversationalAutomation (snd result) pid = (fst result, snd result)
  ∧ ∃ p',
      snd result !! pid = Some p'
      ∧ routingView p' = routingView phone
      ∧ lifecycleView p' = lifecycleView phone.
Proof.
  intros Hp. cbv zeta.
  unfold updateConversationalAutomation, getConversationalAutomation. rewrite Hp.
  destruct (conversationalAutomation phone) as [a|] eqn:Ha; cbn [fst snd default].
  - split; [done|]. split; [done|]. split.
    + by rewrite storePhone_lookup.
    + eexists. split; [apply storePhone_lookup|done].
  - split; [done|]. split; [done|]. split.
    + by rewrite storePhone_lookup.
    + eexists. split; [apply storePhone_lookup|done].
Qed.

Lemma conversational_automation_patch_scenario :
  fst (updateConversationalAutomation scenarioPhones "Q" (Some true) None (Some ["Hi"]))
  = Some {| enable_welcome_message := Some true; commands := Some [];
            prompts := Some ["Hi"] |}.
Proof.
  assert (∃ q, scenarioPhones !! "Q" = Some q
               ∧ conversationalAutomation q = Some defaultAutomation)
    as (q & Hq & Ha) by (vm_compute; eexists; split; reflexivity).
  destruct (conversational_automation_patch scenarioPhones "Q" q (Some true) None
              (Some ["Hi"]) Hq) as (_ & H & _).
  rewrite H, Ha. done.
Defined.

Lemma toUpperCase_allowed_region upper :
  existsb (String.eqb upper) Graph.allowedDataLocalizationRegions = true →
  whenTruthy (Some upper) = Some upper
  ∧ toUpperCase upper = upper.
Proof.
  intros Hin. apply existsb_exists in Hin as (x & Hx & Heq).
  apply String.eqb_eq in Heq. rewrite Heq.
  simpl in Hx. by repeat (destruct Hx as [<-|Hx]; [done|]).
Qed.

(** [POST /:id/register] never answers that the phone is not found: a
    number that is not stored is created on the fly, unverified and with
    its identifier as display number, and then registered.  A request
    answered with 400 changes nothing; a request answered with 200 was
    well formed (product whatsapp, a PIN of six digits, a region whose
    upper case is in the allowed list if any) and leaves the number
    registered with that PIN and the region in upper case; the first
    registration of an unknown number with a well-formed request always
    succeeds.  [upperCase] stands for [String.prototype.toUpperCase]. *)
Theorem register_route_creates_unknown_numbers
  (upperCase : string → string)
  (phones : Phones) (pid : string) (messaging_product pin region : Graph.Field)
  (onboardClock now : Z) :
  let response :=
    Graph.postRegister upperCase phones pid messaging_product pin region onboardClock now in
  fst response ≠ Graph.Register404
  ∧ (∀ e, fst response = Graph.Register400 e → snd response = phones)
  ∧ (∀ r, fst response = Graph.Register200 r →
       pid ≠ EmptyString
       ∧ messaging_product = Graph.Str "whatsapp"
       ∧ (∃ digits, pin = Graph.Str digits ∧ Graph.isSixDigits digits = true
                    ∧ ∃ p',
                        snd response !! pid = Some p'
                        ∧ registered p' = Some true
                        ∧ twoStepVerificationPin p' = Some digits
                        ∧ dataLocalizationRegion p' = r
                        ∧ (phones !! pid = None →
                           displayPhoneNumber p' = pid
                           ∧ verificationStatus p' = UNVERIFIED))
       ∧ match r with
         | Some x => x ∈ Graph.allowedDataLocalizationRegions
                     ∧ ∃ given, region = Graph.Str given ∧ x = upperCase given
         | None => region = Graph.Absent
         end)
  ∧ (phones !! pid = None → pid ≠ EmptyString →
     messaging_product = Graph.Str "whatsapp" →
     (∃ digits, pin = Graph.Str digits ∧ Graph.isSixDigits digits = true) →
     match region with
     | Graph.Absent => fst response = Graph.Register200 None
     | Graph.NotAString _ =>
         fst response = Graph.Register400 "data_localization_region_must_be_string"
     | Graph.Str given =>
         fst response
         = if bool_decide (upperCase given ∈ Graph.allowedDataLocalizationRegions)
           then Graph.Register200 (Some (upperCase given))
           else Graph.Register400 "unsupported_data_localization_region"
     end).
Proof.
  cbv zeta.
  set (created :=
         match getPhoneNumber phones pid with
         | Some _ => phones
         | None =>
             snd (upsertPhoneNumber phones
                    {| in_id := pid; in_displayPhoneNumber := pid; in_wabaId := None;
                       in_webhookConfiguration := None; in_verifiedName := None;
                       in_qualityRating := None; in_accountMode := None |} onboardClock)
         end).
  assert (∃ p0, created !! pid = Some p0
                ∧ (phones !! pid = None →
                   displayPhoneNumber p0 = pid ∧ verificationStatus p0 = UNVERIFIED
                   ∧ registerRequests p0 = Some [])) as (p0 & Hp0 & Hfresh).
  { unfold created, getPhoneNumber.
    destruct (phones !! pid) as [p|] eqn:Hp.
    - exists p. by split.
    - eexists. split; [unfold upsertPhoneNumber; cbn [snd in_id]; apply storePhone_lookup|].
      intros _. by rewrite Hp. }
  assert (∀ (digits : string) (normalized : option string),
            (∀ x, normalized = Some x →
                  whenTruthy (Some x) = Some x ∧ toUpperCase x = x) →
            let out :=
              match registerPhoneNumber created pid digits normalized now with
              | (RegOk _, phones2) => (Graph.Register200 normalized, phones2)
              | (RegFail not_found _ _, phones2) => (Graph.Register404, phones2)
              | (RegFail rate_limited retry attempts, phones2) =>
                  (Graph.Register429 retry attempts, phones2)
              end in
            fst out ≠ Graph.Register404
            ∧ (∀ e, fst out ≠ Graph.Register400 e)
            ∧ (∀ r, fst out = Graph.Register200 r →
                 r = normalized
                 ∧ ∃ p', snd out !! pid = Some p'
                         ∧ registered p' = Some true
                         ∧ twoStepVerificationPin p' = Some digits
                         ∧ dataLocalizationRegion p' = r
                         ∧ (phones !! pid = None →
                            displayPhoneNumber p' = pid ∧ verificationStatus p' = UNVERIFIED))
            ∧ (phones !! pid = None → fst out = Graph.Register200 normalized)) as Hproceed.
  { intros digits normalized Hnorm. cbv zeta.
    unfold registerPhoneNumber. rewrite Hp0.
    destruct (REQUEST_LIMIT <=? length (pruneWindow (ensureArray (registerRequests p0)) now))%nat
      eqn:Hlimit; cbn [fst snd].
    - split; [done|]. split; [done|]. split; [done|].
      intros Hnone. destruct (Hfresh Hnone) as (_ & _ & Hreq).
      rewrite Hreq in Hlimit. done.
    - split; [done|]. split; [done|]. split; [|done].
      intros r [= <-]. split; [done|].
      eexists. split; [apply storePhone_lookup|].
      split; [done|]. split; [done|]. split.
      + cbn [dataLocalizationRegion withRegistration].
        destruct normalized as [x|]; [|done].
        destruct (Hnorm x eq_refl) as [Hw Hu]. rewrite Hw. cbn. by rewrite Hu.
      + intros Hnone. destruct (Hfresh Hnone) as (Hd & Hv & _). done. }
  unfold Graph.postRegister. fold created.
  destruct (String.eqb_spec pid EmptyString) as [Hpid|Hpid].
  { by repeat split. }
  destruct messaging_product as [|truthiness|mp]; cbn [negb].
  1,2: by repeat split.
  destruct (String.eqb_spec mp "whatsapp") as [->|Hmp]; cbn [negb].
  2:{ repeat split; try done. intros _ _ [= ->]. done. }
  destruct pin as [|truthiness|digits].
  1,2: repeat split; try done; by intros _ _ _ (? & ? & _).
  destruct (Graph.isSixDigits digits) eqn:Hsix; cbn [negb].
  2:{ repeat split; try done. intros _ _ _ (? & [= <-] & Hd). congruence. }
  destruct region as [|truthiness|given].
  - destruct (Hproceed digits None) as (H404 & H400 & H200 & Hfirst); [done|].
    cbv zeta in *.
    split; [exact H404|]. split; [intros e He; by destruct (H400 e)|].
    split.
    + intros r Hr. destruct (H200 r Hr) as (-> & p' & Hp').
      split; [done|]. split; [done|]. split; [|done].
      exists digits. split; [done|]. split; [done|]. by exists p'.
    + intros Hnone _ _ _. by apply Hfirst.
  - repeat split; try done.
  - assert (bool_decide (upperCase given ∈ Graph.allowedDataLocalizationRegions)
            = existsb (String.eqb (upperCase given)) Graph.allowedDataLocalizationRegions)
      as Hlookup.
    { destruct (existsb (String.eqb (upperCase given)) Graph.allowedDataLocalizationRegions)
        eqn:Hex.
      - apply bool_decide_eq_true_2.
        apply existsb_exists in Hex as (x & Hx & Heq).
        apply String.eqb_eq in Heq. rewrite Heq. by apply list_elem_of_In.
      - apply bool_decide_eq_false_2. intros Hin.
        assert (existsb (String.eqb (upperCase given)) Graph.allowedDataLocalizationRegions
                = true) as Hyes; [|congruence].
        apply existsb_exists. exists (upperCase given).
        split; [by apply list_elem_of_In|apply String.eqb_refl]. }
    rewrite Hlookup.
    destruct (existsb (String.eqb (upperCase given)) Graph.allowedDataLocalizationRegions)
      eqn:Hallowed; cbn [negb].
    2:{ repeat split; try done. }
    destruct (toUpperCase_allowed_region (upperCase given) Hallowed) as [Hwt Hidem].
    destruct (Hproceed digits (Some (upperCase given))) as (H404 & H400 & H200 & Hfirst).
    { intros x [= <-]. by split. }
    cbv zeta in *.
    split; [exact H404|]. split; [intros e He; by destruct (H400 e)|].
    split.
    + intros r Hr. destruct (H200 r Hr) as (-> & p' & Hp').
      split; [done|]. split; [done|]. split.
      * exists digits. split; [done|]. split; [done|]. by exists p'.
      * split; [|by exists given].
        apply existsb_exists in Hallowed as (x & Hx & Heq).
        apply String.eqb_eq in Heq. rewrite Heq. by apply list_elem_of_In.
    + intros Hnone _ _ _. by apply Hfirst.
Qed.

(** An unknown number is registered by its first well-formed request:
    without a region, and with the region [br], stored as [BR]; the
    region [xx] is refused and creates nothing. *)
Lemma register_route_creates_unknown_numbers_scenario :
  let post (region : Graph.Field) :=
    Graph.postRegister toUpperCase ∅ "15550009" (Graph.Str "whatsapp") (Graph.Str "123456")
      region 1 2 in
  fst (post Graph.Absent) = Graph.Register200 None
  ∧ fst (post (Graph.Str "br")) = Graph.Register200 (Some "BR")
  ∧ (dataLocalizationRegion <$> snd (post (Graph.Str "br")) !! "15550009") = Some (Some "BR")
  ∧ post (Graph.Str "xx") = (Graph.Register400 "unsupported_data_localization_region", ∅).
Proof.
  intros post.
  assert (∃ digits, Graph.Str "123456" = Graph.Str digits ∧ Graph.isSixDigits digits = true)
    as Hpin by (by exists "123456").
  destruct (register_route_creates_unknown_numbers toUpperCase ∅ "15550009"
              (Graph.Str "whatsapp") (Graph.Str "123456") Graph.Absent 1 2)
    as (_ & _ & _ & Habsent).
  destruct (register_route_creates_unknown_numbers toUpperCase ∅ "15550009"
              (Graph.Str "whatsapp") (Graph.Str "123456") (Graph.Str "br") 1 2)
    as (_ & _ & H200 & Hbr).
  destruct (register_route_creates_unknown_numbers toUpperCase ∅ "15550009"
              (Graph.Str "whatsapp") (Graph.Str "123456") (Graph.Str "xx") 1 2)
    as (_ & H400 & _ & Hxx).
  specialize (Habsent (lookup_empty _) ltac:(done) eq_refl Hpin).
  specialize (Hbr (lookup_empty _) ltac:(done) eq_refl Hpin).
  specialize (Hxx (lookup_empty _) ltac:(done) eq_refl Hpin).
  cbv zeta in *.
  split; [exact Habsent|]. split; [exact Hbr|]. split.
  - destruct (H200 _ Hbr) as (_ & _ & (digits & _ & _ & p' & Hp' & _ & _ & Hregion & _) & _).
    subst post. cbv beta. rewrite Hp'. simpl. by rewrite Hregion.
  - subst post. cbv beta. apply injective_projections; [exact Hxx|].
    exact (H400 _ Hxx).
Defined.

End PhoneProperties.

(** ** Event bus: subscriptions *)

Section SubscriptionProperties.

Import EventStore.

Implicit Types (bus : Bus) (s : Subscriber) (d : Deliveries).

Lemma deliveredTo_app sid d1 d2 :
  deliveredTo sid (d1 ++ d2) = deliveredTo sid d1 ++ deliveredTo sid d2.
Proof. unfold deliveredTo. by rewrite List.filter_app, map_app. Qed.

Lemma deliveredTo_absent sid e subs :
  Forall (fun s => sub_id s ≠ sid) subs →
  deliveredTo sid (map (fun s => (sub_id s, e)) subs) = [].
Proof.
  induction 1 as [|s subs Hs _ IH]; [done|].
  unfold deliveredTo in *. simpl. destruct (Nat.eqb_spec (sub_id s) sid); [done|exact IH].
Qed.

Lemma deliveredTo_once sid e subs s :
  Forall (fun s' => sub_id s' ≠ sid) subs → sub_id s = sid →
  deliveredTo sid (map (fun s' => (sub_id s', e)) (subs ++ [s])) = [e].
Proof.
  intros Hsubs Hs. rewrite map_app, deliveredTo_app, deliveredTo_absent by done.
  unfold deliveredTo. simpl. by rewrite Hs, Nat.eqb_refl.
Qed.

Lemma subscribe_fresh bus s :
  Forall (fun s' => sub_id s' ≠ sub_id s) (subscribers bus) →
  subscribe bus s = {| events := events bus; subscribers := subscribers bus ++ [s] |}.
Proof.
  intros Hfresh. unfold subscribe.
  assert (existsb (fun s' => Nat.eqb (sub_id s') (sub_id s)) (subscribers bus) = false) as ->;
    [|done].
  induction Hfresh as [|s' subs Hs' _ IH]; [done|].
  simpl. rewrite IH. by destruct (Nat.eqb_spec (sub_id s') (sub_id s)).
Qed.

Lemma unsubscribe_removes subs s :
  Forall (fun s' => sub_id s' ≠ sub_id s) subs →
  List.filter (fun s' => negb (Nat.eqb (sub_id s') (sub_id s))) (subs ++ [s]) = subs.
Proof.
  intros Hfresh. rewrite List.filter_app. simpl. rewrite Nat.eqb_refl. simpl.
  rewrite app_nil_r.
  induction Hfresh as [|s' subs Hs' _ IH]; [done|].
  simpl. destruct (Nat.eqb_spec (sub_id s') (sub_id s)); [done|]. simpl. by rewrite IH.
Qed.

(** A stream client is sent the log as it stands when it connects and
    then every record published while it is connected, once each and in
    order, whatever the other subscribers do; after it disconnects the
    bus has the subscribers it had before, so nothing further reaches
    the client.  Subscribing a callback that is already subscribed
    changes nothing. *)
Theorem stream_receives_what_is_published
  (bus : Bus) (s : Subscriber) (published later : list Publication) (d : Deliveries) :
  Forall (fun s' => sub_id s' ≠ sub_id s) (subscribers bus) →
  ∃ bus' d',
    streamSession bus s published d = (Normal (events bus, bus'), d')
    ∧ deliveredTo (sub_id s) d' = deliveredTo (sub_id s) d ++ map enrich published
    ∧ subscribers bus' = subscribers bus
    ∧ (∀ other, other ≠ sub_id s →
         deliveredTo other d' = deliveredTo other (snd (publishAll published bus d)))
    ∧ deliveredTo (sub_id s) (snd (publishAll later bus' d')) = deliveredTo (sub_id s) d'
    ∧ subscribe (subscribe bus s) s = subscribe bus s.
Proof.
  intros Hfresh.
  unfold streamSession. rewrite (subscribe_fresh _ _ Hfresh).
  unfold bind, ret, listEvents. rewrite publishAll_result. cbn [subscribers events].
  eexists _, _. split; [reflexivity|].
  split; [|split; [|split; [|split]]].
  - rewrite deliveredTo_app. f_equal.
    induction published as [|p ps IH]; [done|].
    simpl. rewrite deliveredTo_app, IH, deliveredTo_once by done. done.
  - unfold unsubscribe. cbn [subscribers]. by apply unsubscribe_removes.
  - intros other Hother. rewrite publishAll_result. cbn [snd].
    rewrite !deliveredTo_app. f_equal.
    induction published as [|p ps IH]; [done|].
    simpl. rewrite !deliveredTo_app, IH. f_equal.
    rewrite map_app, deliveredTo_app. simpl.
    unfold deliveredTo at 2. simpl.
    destruct (Nat.eqb_spec (sub_id s) other) as [Heq|_]; [by destruct Hother|].
    by rewrite app_nil_r.
  - rewrite publishAll_result. cbn [snd subscribers unsubscribe].
    rewrite (unsubscribe_removes _ _ Hfresh), deliveredTo_app.
    assert (deliveredTo (sub_id s)
              (concat (map (fun p => map (fun s' => (sub_id s', enrich p)) (subscribers bus))
                         later)) = []) as ->; [|by rewrite app_nil_r].
    induction later as [|p ps IH]; [done|].
    simpl. by rewrite deliveredTo_app, IH, deliveredTo_absent.
  - unfold subscribe. cbn [subscribers].
    rewrite existsb_app. simpl. rewrite Nat.eqb_refl. simpl. by rewrite orb_true_r.
Qed.

Lemma stream_receives_what_is_published_scenario :
  ∃ bus' d',
    streamSession {| events := []; subscribers := scenarioSubscribers |}
      {| sub_id := 7; throwsOn := fun _ => false |}
      [scenarioPublication 1; scenarioPublication 2] []
    = (Normal ([], bus'), d')
    ∧ deliveredTo 7 d' = [enrich (scenarioPublication 1); enrich (scenarioPublication 2)]
    ∧ subscribers bus' = scenarioSubscribers.
Proof.
  destruct (stream_receives_what_is_published
              {| events := []; subscribers := scenarioSubscribers |}
              {| sub_id := 7; throwsOn := fun _ => false |}
              [scenarioPublication 1; scenarioPublication 2] [] [])
    as (bus' & d' & H1 & H2 & H3 & _).
  { repeat constructor; simpl; lia. }
  exists bus', d'. split; [exact H1|]. split; [exact H2|exact H3].
Defined.

End SubscriptionProperties.

(** ** Templates: updates, status history and deletion *)

Section TemplateUpdateFacts.

Import Templates.

Implicit Types (templates : Store) (tpl : MessageTemplate).

Lemma ensureTemplateShape_history templates tpl now :
  statusHistory tpl ≠ [] →
  statusHistory (fst (ensureTemplateShape templates tpl now)) = statusHistory tpl
  ∧ status (fst (ensureTemplateShape templates tpl now)) = status tpl
  ∧ id (fst (ensureTemplateShape templates tpl now)) = id tpl
  ∧ rejectionReason (fst (ensureTemplateShape templates tpl now)) = rejectionReason tpl
  ∧ rejectionNote (fst (ensureTemplateShape templates tpl now)) = rejectionNote tpl.
Proof.
  intros Hne. unfold ensureTemplateShape. cbn [fst statusHistory status id rejectionReason
                                                rejectionNote].
  by destruct (statusHistory tpl).
Qed.

Lemma historyCurrent_nonempty tpl : historyCurrent tpl → statusHistory tpl ≠ [].
Proof. unfold historyCurrent. by destruct (statusHistory tpl). Qed.

Lemma ensureTemplateShape_current templates tpl now :
  historyCurrent tpl → historyCurrent (fst (ensureTemplateShape templates tpl now)).
Proof.
  intros Hc. unfold historyCurrent.
  destruct (ensureTemplateShape_history templates tpl now (historyCurrent_nonempty _ Hc))
    as (-> & -> & _). exact Hc.
Qed.

Lemma patchStatus_current patch historyClock tpl :
  historyCurrent tpl →
  audit_status <$> last (snd (patchStatus patch historyClock tpl))
  = Some (fst (fst (fst (patchStatus patch historyClock tpl)))).
Proof.
  intros Hc. unfold patchStatus. destruct (patch_status patch) as [st|]; cbn [fst snd].
  - by rewrite last_snoc.
  - exact Hc.
Qed.

Lemma updateTemplate_result templates tid patch shapeClock historyClock now existing :
  templates !! tid = Some existing →
  ∃ updated,
    updateTemplate templates tid patch shapeClock historyClock now
    = (Some updated, <[tid := updated]> (<[id updated := updated]> templates))
    ∧ id updated = id existing
    ∧ updatedAt updated = now
    ∧ status updated
      = fst (fst (fst (patchStatus patch historyClock
                         (fst (ensureTemplateShape templates existing shapeClock)))))
    ∧ statusHistory updated
      = snd (patchStatus patch historyClock
               (fst (ensureTemplateShape templates existing shapeClock)))
    ∧ rejectionReason updated
      = patchNullable (patch_rejectionReason patch)
          (snd (fst (fst (patchStatus patch historyClock
                            (fst (ensureTemplateShape templates existing shapeClock))))))
    ∧ components updated
      = default (components (fst (ensureTemplateShape templates existing shapeClock)))
          (patch_components patch)
    ∧ bodyText updated
      = overrideText
          (nullish (patch_bodyText patch)
             (bodyText (fst (ensureTemplateShape templates existing shapeClock))))
          (d_bodyText (match patch_components patch with
                       | Some cs => deriveTextFromComponents (Some cs)
                       | None => noText
                       end)).
Proof.
  intros He. unfold updateTemplate. rewrite He.
  destruct (ensureTemplateShape templates existing shapeClock) as [shaped store1] eqn:Hs.
  assert (id shaped = id existing) as Hid.
  { unfold ensureTemplateShape in Hs. by injection Hs as <- _. }
  cbn [fst].
  destruct (patchStatus patch historyClock shaped) as [[[st reason] note] history].
  eexists. split; [reflexivity|]. by repeat split.
Qed.

Lemma applyTemplateCall_current templates c :
  map_Forall (fun _ tpl => historyCurrent tpl) templates →
  map_Forall (fun _ tpl => historyCurrent tpl) (applyTemplateCall templates c).
Proof.
  intros Hall.
  assert (∀ tid patch shapeClock historyClock now,
            map_Forall (fun _ tpl => historyCurrent tpl)
              (snd (updateTemplate templates tid patch shapeClock historyClock now)))
    as Hupdate.
  { intros tid patch shapeClock historyClock now.
    destruct (templates !! tid) as [existing|] eqn:He.
    - destruct (updateTemplate_result templates tid patch shapeClock historyClock now
                  existing He) as (updated & -> & _ & _ & Hst & Hh & _).
      assert (historyCurrent updated) as Hc.
      { unfold historyCurrent. rewrite Hst, Hh. apply patchStatus_current.
        apply ensureTemplateShape_current. exact (Hall _ _ He). }
      cbn [snd]. apply map_Forall_insert_2; [done|]. by apply map_Forall_insert_2.
    - unfold updateTemplate. by rewrite He. }
  destruct c as [input idClock rnd now|tid now|tid patch c1 c2 now
                |tid st optReason optNote c1 c2 now|tid]; simpl.
  - unfold createTemplate.
    destruct (negb (truthy _)); [done|].
    apply map_Forall_insert_2; [|done]. unfold historyCurrent. done.
  - unfold getTemplateById. destruct (templates !! tid) as [tpl|] eqn:Ht; [|done].
    pose proof (ensureTemplateShape_current templates tpl now (Hall _ _ Ht)) as Hc.
    unfold ensureTemplateShape in *. cbn [fst snd] in *.
    apply map_Forall_insert_2; [done|]. by apply map_Forall_insert_2.
  - apply Hupdate.
  - apply Hupdate.
  - by apply map_Forall_delete.
Qed.

End TemplateUpdateFacts.

Section TemplateUpdateProperties.

Import Templates.

(** The status history is an audit trail: over any sequence of creations,
    reads, updates, status changes and deletions, the last entry of the
    history of every stored template records the status the template has. *)
Theorem template_history_records_status (templates : Store) (calls : list TemplateCall) :
  map_Forall (fun _ tpl => historyCurrent tpl) templates →
  map_Forall (fun _ tpl => historyCurrent tpl) (foldl applyTemplateCall templates calls).
Proof.
  revert templates. induction calls as [|c calls IH]; intros templates Hall; [done|].
  simpl. apply IH. by apply applyTemplateCall_current.
Qed.

Lemma template_history_records_status_scenario :
  let calls :=
    [ CallCreate (createInput (Some "Your order shipped") None None None) 1000 "a1b2c3" 1000;
      CallUpdateStatus "tpl_1000_a1b2c3" REJECTED None (Some "wording") 2000 2000 2000;
      CallUpdate "tpl_1000_a1b2c3"
        {| patch_name := None; patch_languageCode := None; patch_category := None;
           patch_bodyText := Some "Your order is on its way";
           patch_headerText := Undefined; patch_footerText := Undefined;
           patch_wabaId := Undefined; patch_status := Some APPROVED;
           patch_components := None; patch_rejectionReason := Null;
           patch_rejectionNote := Null; patch_statusNote := Undefined |}
        3000 3000 3000 ] in
  (map audit_status <$> (statusHistory <$> foldl applyTemplateCall ∅ calls !! "tpl_1000_a1b2c3"))
  = Some [PENDING; REJECTED; APPROVED]
  ∧ map_Forall (fun _ tpl => historyCurrent tpl) (foldl applyTemplateCall ∅ calls).
Proof.
  cbv zeta. split; [by vm_compute|].
  apply (template_history_records_status ∅). apply map_Forall_empty.
Defined.

(** An update of a stored template keeps its identifier, stamps
    [updatedAt] and is what the store then holds.  A status in the patch
    becomes the status and appends exactly one history entry carrying it
    and the clock of the change, with a rejection reason whenever the
    status is REJECTED (POLICY when none is known); without a status the
    history is untouched.  Components in the patch replace the stored
    ones and their texts win: the body text becomes the text of their
    first BODY component with a non-empty text, even when the patch
    carries another [bodyText]; only when they carry none does the
    patched or stored text stay. *)
Theorem updateTemplate_status_and_components
  (templates : Store) (tid : string) (patch : TemplatePatch)
  (shapeClock historyClock now : Z) (existing : MessageTemplate) :
  templates !! tid = Some existing →
  statusHistory existing ≠ [] →
  ∃ updated store',
    updateTemplate templates tid patch shapeClock historyClock now = (Some updated, store')
    ∧ store' !! tid = Some updated
    ∧ id updated = id existing
    ∧ updatedAt updated = now
    ∧ match patch_status patch with
      | Some st =>
          status updated = st
          ∧ ∃ entry,
              statusHistory updated = statusHistory existing ++ [entry]
              ∧ audit_status entry = st
              ∧ audit_updatedAt entry = historyClock
              ∧ (st = REJECTED →
                 audit_reason entry
                 = Some (default (default POLICY (rejectionReason existing))
                           (givenValue (patch_rejectionReason patch)))
                 ∧ (patch_rejectionReason patch ≠ Null →
                    rejectionReason updated = audit_reason entry))
      | None =>
          status updated = status existing
          ∧ statusHistory updated = statusHistory existing
      end
    ∧ match patch_components patch with
      | Some cs =>
          components updated = cs
          ∧ match firstText BODY cs with
            | Some text => bodyText updated = Some text
            | None =>
                bodyText updated
                = match patch_bodyText patch with
                  | Some b => Some b
                  | None => bodyText (fst (ensureTemplateShape templates existing shapeClock))
                  end
            end
      | None =>
          bodyText updated
          = match patch_bodyText patch with
            | Some b => Some b
            | None => bodyText (fst (ensureTemplateShape templates existing shapeClock))
            end
      end.
Proof.
  intros He Hne.
  destruct (updateTemplate_result templates tid patch shapeClock historyClock now existing He)
    as (updated & Hupd & Hid & Hat & Hst & Hh & Hrr & Hcs & Hbody).
  destruct (ensureTemplateShape_history templates existing shapeClock Hne)
    as (Hsh & Hss & _ & Hsr & Hsn).
  exists updated, (<[tid := updated]> (<[id updated := updated]> templates)).
  split; [exact Hupd|]. split; [apply lookup_insert_eq|].
  split; [exact Hid|]. split; [exact Hat|]. split.
  - rewrite Hst, Hh, Hrr. unfold patchStatus. rewrite Hsh, Hss, Hsr.
    destruct (patch_status patch) as [st|]; cbn [fst snd]; [|done].
    split; [done|]. eexists. split; [reflexivity|].
    cbn [audit_status audit_updatedAt audit_reason normalizeTemplateStatus].
    split; [done|]. split; [done|]. intros ->.
    destruct (patch_rejectionReason patch) as [| |r]; cbn;
      destruct (rejectionReason existing); cbn; by split.
  - rewrite Hcs, Hbody. destruct (patch_components patch) as [cs|].
    + cbn [default]. split; [done|]. rewrite derive_firstText. cbn [d_bodyText].
      unfold overrideText.
      destruct (firstText BODY cs) as [text|] eqn:Hft.
      * by rewrite (firstText_truthy _ _ _ Hft).
      * cbn [truthy]. by destruct (patch_bodyText patch).
    + cbn. by destruct (patch_bodyText patch).
Qed.

Lemma updateTemplate_status_and_components_scenario :
  let created :=
    foldl applyTemplateCall ∅
      [ CallCreate (createInput (Some "Your order shipped") None None None)
          1000 "a1b2c3" 1000 ] in
  let patch :=
    {| patch_name := None; patch_languageCode := None; patch_category := None;
       patch_bodyText := Some "ignored";
       patch_headerText := Undefined; patch_footerText := Undefined;
       patch_wabaId := Undefined; patch_status := Some REJECTED;
       patch_components := Some [bodyOnly (Some "Your parcel is on its way")];
       patch_rejectionReason := Undefined;
       patch_rejectionNote := Undefined; patch_statusNote := Undefined |} in
  ∃ updated store',
    updateTemplate created "tpl_1000_a1b2c3" patch 2000 2000 2000 = (Some updated, store')
    ∧ bodyText updated = Some "Your parcel is on its way"
    ∧ status updated = REJECTED
    ∧ rejectionReason updated = Some POLICY.
Proof.
  cbv zeta.
  set (created := foldl applyTemplateCall ∅
                    [ CallCreate (createInput (Some "Your order shipped") None None None)
                        1000 "a1b2c3" 1000 ]).
  assert (∃ existing, created !! "tpl_1000_a1b2c3" = Some existing
                      ∧ statusHistory existing ≠ []
                      ∧ rejectionReason existing = None)
    as (existing & He & Hne & Hnone)
    by (vm_compute; eexists; split; [reflexivity|split; [discriminate|reflexivity]]).
  destruct (updateTemplate_status_and_components created "tpl_1000_a1b2c3"
              {| patch_name := None; patch_languageCode := None; patch_category := None;
                 patch_bodyText := Some "ignored";
                 patch_headerText := Undefined; patch_footerText := Undefined;
                 patch_wabaId := Undefined; patch_status := Some REJECTED;
                 patch_components := Some [bodyOnly (Some "Your parcel is on its way")];
                 patch_rejectionReason := Undefined;
                 patch_rejectionNote := Undefined; patch_statusNote := Undefined |}
              2000 2000 2000 existing He Hne)
    as (updated & store' & Hupd & _ & _ & _ & Hstatus & Hcomps).
  exists updated, store'. split; [exact Hupd|].
  cbn [patch_status patch_components patch_rejectionReason] in Hstatus, Hcomps.
  destruct Hcomps as [_ Hbody]. destruct Hstatus as (Hst & entry & _ & _ & _ & Hreason).
  destruct (Hreason eq_refl) as [Hentry Hrr].
  split; [exact Hbody|]. split; [exact Hst|].
  rewrite (Hrr ltac:(discriminate)), Hentry, Hnone. done.
Defined.

(** Deleting reports whether the template existed and removes it alone;
    on an identifier that is not stored, reads, updates, status changes
    and deletions all report failure and leave the store as it was, so a
    deleted template is never brought back by them. *)
Theorem deleted_template_is_gone (templates : Store) (tid : string) :
  let removed := deleteTemplate templates tid in
  fst removed = bool_decide (is_Some (templates !! tid))
  ∧ snd removed !! tid = None
  ∧ (∀ other, other ≠ tid → snd removed !! other = templates !! other)
  ∧ (templates !! tid = None → snd removed = templates)
  ∧ (∀ now, getTemplateById (snd removed) tid now = (None, snd removed))
  ∧ (∀ patch shapeClock historyClock now,
       updateTemplate (snd removed) tid patch shapeClock historyClock now
       = (None, snd removed))
  ∧ (∀ st optReason optNote shapeClock historyClock now,
       updateTemplateStatus (snd removed) tid st optReason optNote shapeClock historyClock now
       = (None, snd removed))
  ∧ deleteTemplate (snd removed) tid = (false, snd removed).
Proof.
  cbv zeta. unfold deleteTemplate. cbn [fst snd].
  assert (delete tid templates !! tid = None) as Hgone by apply lookup_delete_eq.
  split; [done|]. split; [exact Hgone|].
  split; [intros other Hne; by apply lookup_delete_ne|].
  split; [intros Hnone; by apply delete_id|].
  split; [intros now; unfold getTemplateById; by rewrite Hgone|].
  split; [intros; unfold updateTemplate; by rewrite Hgone|].
  split; [intros; unfold updateTemplateStatus, updateTemplate; by rewrite Hgone|].
  rewrite Hgone. by rewrite delete_id.
Qed.

End TemplateUpdateProperties.

(** ** Runtime configuration, its events and the signature of forwards *)

Section ConfigProperties.

Import WebhookRouting.

Lemma keepUnlessTruthy_nonempty given current :
  current ≠ EmptyString → Config.keepUnlessTruthy given current ≠ EmptyString.
Proof.
  intros Hc. unfold Config.keepUnlessTruthy, whenTruthy.
  destruct given as [v|]; cbn [truthy]; [|done].
  destruct (String.eqb_spec v EmptyString); cbn [negb]; done.
Qed.

(** Over any sequence of patches the three JWT strings of the [auth]
    block stay non-empty, an empty or absent value leaving the stored
    one.  The global tier of the resolver follows [targetWebhookUrl]: a
    patch with [null] or the empty string switches it off, so that a
    request that meets no override resolves to nothing, and a patch with
    a callback makes that request resolve to it, with source app and the
    configured app secret. *)
Theorem updateConfig_keeps_auth_and_sets_target
  (st : Config.RuntimeState) (patches : list Config.Patch) (patch : Config.Patch) :
  Config.jwtSecret (Config.auth st) ≠ EmptyString →
  Config.jwtIssuer (Config.auth st) ≠ EmptyString →
  Config.jwtAudience (Config.auth st) ≠ EmptyString →
  let st' := foldl Config.updateConfig st patches in
  let st'' := Config.updateConfig st' patch in
  (Config.jwtSecret (Config.auth st') ≠ EmptyString
   ∧ Config.jwtIssuer (Config.auth st') ≠ EmptyString
   ∧ Config.jwtAudience (Config.auth st') ≠ EmptyString)
  ∧ match Config.patch_targetWebhookUrl patch with
    | Undefined =>
        (url <$> resolveWebhookTarget (Config.settings st'') ∅ ∅ None None)
        = (url <$> resolveWebhookTarget (Config.settings st') ∅ ∅ None None)
    | Null => resolveWebhookTarget (Config.settings st'') ∅ ∅ None None = None
    | Given u =>
        resolveWebhookTarget (Config.settings st'') ∅ ∅ None None
        = if String.eqb u EmptyString then None
          else Some {| url := u; source := source_app; target_phoneId := None;
                       target_wabaId := None;
                       appSecret :=
                         whenTruthy
                           (patchNullable (Config.patch_webhookAppSecret patch)
                              (Config.webhookAppSecret (Config.settings st'))) |}
    end.
Proof.
  intros H1 H2 H3. cbv zeta. split.
  - revert st H1 H2 H3. induction patches as [|q patches IH]; intros st H1 H2 H3; [done|].
    simpl foldl.
    apply IH; unfold Config.updateConfig; cbn [Config.auth];
      destruct (Config.patch_auth q);
      cbn [Config.jwtSecret Config.jwtIssuer Config.jwtAudience];
      try done; by apply keepUnlessTruthy_nonempty.
  - unfold resolveWebhookTarget. cbn [resolveViaPhone resolveViaWaba whenTruthy truthy].
    unfold resolveViaApp, Config.updateConfig. cbn [Config.settings Config.targetWebhookUrl
                                                     Config.webhookAppSecret].
    destruct (Config.patch_targetWebhookUrl patch) as [| |u]; cbn [patchNullable].
    + by destruct (whenTruthy _).
    + done.
    + unfold whenTruthy at 1. cbn [truthy].
      by destruct (String.eqb u EmptyString).
Qed.

Lemma updateConfig_keeps_auth_and_sets_target_scenario :
  let st' :=
    foldl Config.updateConfig (Config.initialState (Some "env-secret"))
      [ {| Config.patch_verifyToken := None; Config.patch_targetWebhookUrl := Undefined;
           Config.patch_webhookAppSecret := Undefined;
           Config.patch_auth :=
             Some {| Config.auth_mode := Some Config.mode_jwt;
                     Config.auth_jwtSecret := Some EmptyString;
                     Config.auth_jwtIssuer := None; Config.auth_jwtAudience := None |} |} ] in
  (Config.mode (Config.auth st'), Config.jwtSecret (Config.auth st'))
  = (Config.mode_jwt, "sandbox-secret")
  ∧ Config.jwtSecret (Config.auth st') ≠ EmptyString.
Proof.
  cbv zeta. split; [done|].
  apply (updateConfig_keeps_auth_and_sets_target (Config.initialState (Some "env-secret")) _
           {| Config.patch_verifyToken := None; Config.patch_targetWebhookUrl := Null;
              Config.patch_webhookAppSecret := Undefined; Config.patch_auth := None |});
    done.
Defined.

(** The events of the configuration route hold the configuration object
    itself, as payload and as [meta.before] alike: whenever the log is
    read, after any number of further updates, both show the
    configuration of that moment, so no event shows the configuration
    before its change or differs from another. *)
Theorem config_events_show_current_configuration
  (st : Config.RuntimeState) (patches later : list Config.Patch) :
  let logged := foldl ConfigRouter.putConfig (st, []) patches in
  let final := foldl ConfigRouter.putConfig logged later in
  fst logged = foldl Config.updateConfig st patches
  ∧ fst final = foldl Config.updateConfig st (patches ++ later)
  ∧ length (snd logged) = length patches
  ∧ snd logged `prefix_of` snd final
  ∧ Forall (fun e =>
              ConfigRouter.shown (fst final) (ConfigRouter.payload e) = inr (fst final)
              ∧ (ConfigRouter.shown (fst final) <$> ConfigRouter.meta_before e)
                = Some (inr (fst final)))
      (snd final).
Proof.
  cbv zeta.
  assert (∀ ps run,
            fst (foldl ConfigRouter.putConfig run ps) = foldl Config.updateConfig (fst run) ps
            ∧ (∃ added,
                 snd (foldl ConfigRouter.putConfig run ps) = snd run ++ added
                 ∧ length added = length ps
                 ∧ Forall (fun e => ConfigRouter.payload e = ConfigRouter.ConfigObject
                                    ∧ ConfigRouter.meta_before e
                                      = Some ConfigRouter.ConfigObject) added)) as Hrun.
  { induction ps as [|q ps IH]; intros run.
    - split; [done|]. exists []. by rewrite app_nil_r.
    - simpl foldl. destruct (IH (ConfigRouter.putConfig run q)) as (-> & added & -> & Hl & Ha).
      split; [done|]. eexists (_ :: added). cbn [snd ConfigRouter.putConfig].
      rewrite <- app_assoc. split; [reflexivity|]. split; [simpl; lia|].
      constructor; [done|exact Ha]. }
  destruct (Hrun patches (st, [])) as (H1 & added1 & H2 & H3 & H4).
  destruct (Hrun later (foldl ConfigRouter.putConfig (st, []) patches))
    as (H5 & added2 & H6 & H7 & H8).
  cbn [fst snd] in *.
  split; [exact H1|]. split; [by rewrite H5, H1, foldl_app|].
  split; [by rewrite H2|]. split; [rewrite H6; by eexists|].
  rewrite H6, H2. cbn [app]. apply Forall_app. split.
  - eapply Forall_impl; [exact H4|]. intros e [-> ->]. done.
  - eapply Forall_impl; [exact H8|]. intros e [-> ->]. done.
Qed.

Section Signature.

Variable hmacSha256Hex : string → string → string.

(** A simulated message is posted exactly when the resolver finds a
    target, and to the callback it found.  The signature does not depend
    on the tier that answered: a callback of a phone or of a WABA, for
    which the resolver reports no app secret, is signed like the global
    one, with the secret of the request if it has one, else the
    configured app secret, else the one of the environment; without any
    the request carries no signature header. *)
Theorem simulated_message_signature
  (cfg : Config.RuntimeConfig) (wabas : Wabas) (phones : Phones) (envSecret : option string)
  (from body phoneNumberId wabaId webhookAppSecret : option string) (payload : string) :
  truthy from = true →
  truthy body = true →
  let secret := orElse (orElse webhookAppSecret (Config.webhookAppSecret cfg)) envSecret in
  Simulate.postMessage hmacSha256Hex cfg wabas phones envSecret
    from body phoneNumberId wabaId webhookAppSecret payload
  = match resolveWebhookTarget cfg wabas phones
            (Some (default "000000000000000" phoneNumberId)) wabaId with
    | Some target =>
        Simulate.Posted (url target)
          ([("Content-Type", "application/json")]
           ++ (if truthy secret
               then [("X-Hub-Signature-256",
                      "sha256=" +:+ hmacSha256Hex (default EmptyString secret) payload)]
               else []))
          payload
    | None =>
        Simulate.Refused 400
          "Target webhook URL is not configured. Set it at runtime via the configuration API or UI."
    end.
Proof.
  intros Hfrom Hbody. cbv zeta. unfold Simulate.postMessage. rewrite Hfrom, Hbody.
  cbn [negb orb].
  assert (∀ a b, resolveWebhookTarget cfg wabas phones (whenTruthy a) (whenTruthy b)
                 = resolveWebhookTarget cfg wabas phones a b) as Hidem.
  { intros a b. unfold resolveWebhookTarget, resolveViaPhone, resolveViaWaba.
    assert (∀ o, whenTruthy (whenTruthy o) = whenTruthy o) as Hw; [|by rewrite !Hw].
    intros o. unfold whenTruthy. destruct (truthy o) eqn:Ho; [by rewrite Ho|done]. }
  rewrite Hidem.
  destruct (resolveWebhookTarget cfg wabas phones
              (Some (default "000000000000000" phoneNumberId)) wabaId) as [target|] eqn:Hres.
  - f_equal.
    assert (appSecret target = None
            ∨ appSecret target = whenTruthy (Config.webhookAppSecret cfg)) as Hsecret.
    { unfold resolveWebhookTarget in Hres.
      destruct (resolveViaPhone wabas phones _) as [r|] eqn:Hr.
      - injection Hres as <-. left. unfold resolveViaPhone in Hr.
        destruct (whenTruthy _) as [k|]; [|done]. destruct (phones !! k) as [ph|]; [|done].
        destruct (phoneOverrideUri ph); [by injection Hr as <-|].
        destruct (whenTruthy (phone_wabaId ph)) as [w|]; [|done].
        destruct (wabaOverride wabas w) as [[? ?]|]; [|done]. by injection Hr as <-.
      - destruct (resolveViaWaba wabas wabaId) as [r|] eqn:Hw.
        + injection Hres as <-. left. unfold resolveViaWaba in Hw.
          destruct (whenTruthy wabaId) as [w|]; [|done].
          destruct (wabaOverride wabas w) as [[? ?]|]; [|done]. by injection Hw as <-.
        + right. unfold resolveViaApp in Hres.
          destruct (whenTruthy (Config.targetWebhookUrl cfg)); [|done].
          by injection Hres as <-. }
    unfold Simulate.forwardHeaders, Simulate.signingSecret. f_equal.
    cbn [mbind option_bind].
    assert (orElse
              (orElse (orElse (orElse (orElse webhookAppSecret (appSecret target)) None) None)
                 (Config.webhookAppSecret cfg)) envSecret
            = orElse (orElse webhookAppSecret (Config.webhookAppSecret cfg)) envSecret) as ->.
    { unfold orElse, whenTruthy in *.
      destruct (truthy webhookAppSecret) eqn:Hw; [by rewrite ?Hw|].
      destruct Hsecret as [->| ->]; cbn [truthy]; [done|].
      destruct (truthy (Config.webhookAppSecret cfg)) eqn:Hc; rewrite ?Hc; cbn [truthy];
        by rewrite ?Hc. }
    unfold whenTruthy.
    destruct (truthy (orElse (orElse webhookAppSecret (Config.webhookAppSecret cfg)) envSecret))
      eqn:Ht; [|done].
    by destruct (orElse (orElse webhookAppSecret (Config.webhookAppSecret cfg)) envSecret).
  - unfold resolveWebhookTarget in Hres.
    destruct (resolveViaPhone wabas phones _); [done|].
    destruct (resolveViaWaba wabas wabaId); [done|].
    unfold resolveViaApp in Hres.
    by destruct (whenTruthy (Config.targetWebhookUrl cfg)).
Qed.

End Signature.

(** With string concatenation standing in for the HMAC. *)
Lemma simulated_message_signature_scenario :
  Simulate.postMessage (fun key body => key +:+ body) scenarioConfig scenarioWabas scenarioPhones None
    (Some "5511999") (Some "hello") (Some "P") None None "{}"
  = Simulate.Posted "https://p"
      [ ("Content-Type", "application/json");
        ("X-Hub-Signature-256", "sha256=app-secret{}") ]
      "{}".
Proof.
  rewrite (simulated_message_signature (fun key body => key +:+ body) scenarioConfig scenarioWabas scenarioPhones None
             (Some "5511999") (Some "hello") (Some "P") None None "{}" eq_refl eq_refl).
  by vm_compute.
Defined.

End ConfigProperties.

(** ** Paging through templates *)

Section PagingProperties.

Import Templates.

Implicit Types (templates : list MessageTemplate).

Lemma findIndex_lookup templates i tpl :
  NoDup (map id templates) →
  templates !! i = Some tpl →
  Graph.findIndex (id tpl) templates = Some i.
Proof.
  revert i. induction templates as [|t templates IH]; intros i Hnd Hi; [done|].
  apply NoDup_cons in Hnd as [Hnotin Hnd]. simpl.
  destruct i as [|i]; simpl in Hi.
  - injection Hi as ->. by rewrite String.eqb_refl.
  - destruct (String.eqb_spec (id t) (id tpl)) as [Heq|Hne].
    + destruct Hnotin. rewrite Heq. apply list_elem_of_fmap. exists tpl. split; [done|].
      by eapply list_elem_of_lookup_2.
    + by rewrite (IH i Hnd Hi).
Qed.

Lemma paginate_after_only templates limit after :
  (1 ≤ limit)%nat →
  let start :=
    match whenTruthy after with
    | Some cursor =>
        match Graph.findIndex cursor templates with
        | Some index => (index + 1)%nat
        | None => 0%nat
        end
    | None => 0%nat
    end in
  Graph.slice (Graph.paginateTemplates templates limit after None)
  = take limit (drop start templates)
  ∧ Graph.cursor_after (Graph.paginateTemplates templates limit after None)
    = if (start + limit <? length templates)%nat
      then id <$> templates !! (start + limit)%nat
      else None.
Proof.
  intros Hl. cbv zeta. unfold Graph.paginateTemplates. cbn [whenTruthy truthy Graph.slice
                                                           Graph.cursor_after].
  set (start := match whenTruthy after with
                | Some cursor =>
                    match Graph.findIndex cursor templates with
                    | Some index => (index + 1)%nat
                    | None => 0%nat
                    end
                | None => 0%nat
                end).
  assert (Graph.sliceOf start (Nat.min (length templates) (start + limit)) templates
          = take limit (drop start templates)) as Hslice.
  { unfold Graph.sliceOf.
    destruct (Nat.le_gt_cases (start + limit) (length templates)) as [Hle|Hgt].
    - rewrite Nat.min_r by lia. f_equal. lia.
    - rewrite Nat.min_l by lia.
      rewrite !take_ge; [done| |]; rewrite length_drop; lia. }
  rewrite Hslice. split; [done|].
  rewrite length_take, length_drop.
  destruct (Nat.ltb_spec (start + limit) (length templates)) as [Hlt|Hge].
  - rewrite Nat.min_l by lia.
    destruct (Z.leb_spec 0 (Z.of_nat start + Z.of_nat limit - 1)) as [_|?]; [|lia].
    destruct (Z.ltb_spec (Z.of_nat start + Z.of_nat limit - 1 + 1)
                (Z.of_nat (length templates))) as [_|?]; [|lia].
    cbn [andb]. do 2 f_equal. lia.
  - rewrite Nat.min_r by lia.
    destruct (Z.ltb_spec (Z.of_nat start + Z.of_nat (length templates - start) - 1 + 1)
                (Z.of_nat (length templates))) as [?|_]; [lia|].
    by rewrite andb_false_r.
Qed.

(** A page holds at most [limit] templates, taken in order from where
    it starts.  The [after] cursor it returns names the template that
    follows the page, and a request with that cursor starts after the
    template it names: following the cursors, the template named by each
    cursor is on no page. *)
Theorem after_cursor_skips_a_template
  (templates : list MessageTemplate) (limit : nat) :
  NoDup (map id templates) →
  Forall (fun tpl => id tpl ≠ EmptyString) templates →
  (1 ≤ limit)%nat →
  let first := Graph.paginateTemplates templates limit None None in
  Graph.slice first = take limit templates
  ∧ Graph.total first = length templates
  ∧ match Graph.cursor_after first with
    | None => (length templates ≤ limit)%nat
    | Some cursor =>
        ∃ skipped,
          templates !! limit = Some skipped
          ∧ id skipped = cursor
          ∧ Graph.slice (Graph.paginateTemplates templates limit (Some cursor) None)
            = take limit (drop (limit + 1) templates)
          ∧ (skipped ∉ Graph.slice first)
          ∧ (skipped ∉ Graph.slice (Graph.paginateTemplates templates limit (Some cursor) None))
    end.
Proof.
  intros Hnd Hids Hl. cbv zeta.
  destruct (paginate_after_only templates limit None Hl) as [Hs Hc].
  cbn [whenTruthy truthy] in Hs, Hc. rewrite drop_0 in Hs. rewrite Hs, Hc.
  split; [done|]. split; [done|].
  cbn [Nat.add].
  destruct (Nat.ltb_spec limit (length templates)) as [Hlt|Hge]; [|done].
  destruct (templates !! limit) as [skipped|] eqn:Hsk.
  2:{ apply lookup_ge_None in Hsk. lia. }
  cbn [fmap option_fmap option_map].
  exists skipped. split; [done|]. split; [done|].
  destruct (paginate_after_only templates limit (Some (id skipped)) Hl) as [Hs2 _].
  assert (whenTruthy (Some (id skipped)) = Some (id skipped)) as Hw.
  { unfold whenTruthy. cbn [truthy].
    rewrite Forall_forall in Hids.
    destruct (String.eqb_spec (id skipped) EmptyString) as [Heq|_]; [|done].
    destruct (Hids skipped); [by eapply list_elem_of_lookup_2|done]. }
  rewrite Hw, (findIndex_lookup templates limit skipped Hnd Hsk) in Hs2.
  rewrite Hs2. split; [done|].
  assert (∀ i j, templates !! i = Some skipped → templates !! j = Some skipped → i = j)
    as Hinj.
  { intros i j Hi Hj.
    pose proof (findIndex_lookup templates i skipped Hnd Hi) as H1.
    pose proof (findIndex_lookup templates j skipped Hnd Hj) as H2. congruence. }
  split.
  - intros Hin. apply list_elem_of_lookup_1 in Hin as [i Hi].
    apply lookup_take_Some in Hi as [Hi Hlt'].
    specialize (Hinj _ _ Hi Hsk). lia.
  - intros Hin. apply list_elem_of_lookup_1 in Hin as [i Hi].
    apply lookup_take_Some in Hi as [Hi Hlt'].
    rewrite lookup_drop in Hi.
    specialize (Hinj _ _ Hi Hsk). lia.
Qed.

Lemma after_cursor_skips_a_template_scenario :
  let first := Graph.paginateTemplates Graph.pagingScenario 1 None None in
  map id (Graph.slice first) = ["tpl_3_a1b2c3"]
  ∧ Graph.cursor_after first = Some "tpl_2_a1b2c3"
  ∧ map id (Graph.slice (Graph.paginateTemplates Graph.pagingScenario 1
                           (Some "tpl_2_a1b2c3") None)) = ["tpl_1_a1b2c3"].
Proof.
  cbv zeta.
  assert (NoDup (map id Graph.pagingScenario)) as Hnd
    by (apply (bool_decide_unpack _); vm_compute; exact I).
  assert (Forall (fun tpl => id tpl ≠ EmptyString) Graph.pagingScenario) as Hids
    by (repeat constructor; discriminate).
  destruct (after_cursor_skips_a_template Graph.pagingScenario 1 Hnd Hids ltac:(lia))
    as (Hslice & _ & Hnext).
  assert (Graph.cursor_after (Graph.paginateTemplates Graph.pagingScenario 1 None None)
          = Some "tpl_2_a1b2c3") as Hcursor by (by vm_compute).
  rewrite Hcursor in Hnext. destruct Hnext as (skipped & _ & _ & Hnextslice & _).
  rewrite Hslice, Hcursor, Hnextslice. by vm_compute.
Defined.

End PagingProperties.

(** ** The marketing route *)

Section MarketingRouteProperties.

Import Graph.

(** What the handler does once the request is well formed. *)
Lemma postMarketingMessage_checked world pid request storedTemplate clocks
      phone recipient template templateName :
  pid ≠ EmptyString →
  w_phones world !! pid = Some phone →
  productRefused (mr_messaging_product request) = false →
  mr_to request = Str recipient →
  recipient ≠ EmptyString →
  mr_template request = Some template →
  tr_name template = Str templateName →
  postMarketingMessage world pid request storedTemplate clocks
  = if negb (Policy.allowed (Policy.evaluatePolicyForWaId (w_policy world) recipient))
    then (Marketing403 "contact_blocked_by_policy", world)
    else if negb (Marketing.el_allowed
                    (Marketing.evaluateMarketingEligibility (w_marketing world) recipient))
    then (Marketing403 "marketing_opt_in_required", world)
    else if negb (Marketing.allowed
                    (Marketing.evaluateMarketingFrequency (w_marketing world) pid recipient
                       (frequencyClock clocks)))
    then (Marketing429 131051, world)
    else
      let evaluated :=
        MessagingLimits.evaluateMessagingLimit (w_tracker world) pid recipient
          (limitClock clocks) in
      let world1 :=
        {| w_phones := w_phones world; w_policy := w_policy world;
           w_marketing := w_marketing world; w_tracker := snd evaluated |} in
      if negb (MessagingLimits.allowed (fst evaluated)) then (Marketing429 131048, world1)
      else
        match resolveCategory storedTemplate with
        | inl error => (Marketing400 error, world1)
        | inr category =>
            let ledger :=
              Marketing.registerMarketingSend (w_marketing world)
                {| Marketing.p_phoneId := pid; Marketing.p_to := recipient;
                   Marketing.p_templateName := Some templateName;
                   Marketing.p_languageCode := whenTruthy (tr_languageCode template);
                   Marketing.p_category := Some category;
                   Marketing.p_sendAt :=
                     (fun send_at =>
                        if send_at <? 10000000000 then send_at * 1000 else send_at)
                     <$> mr_send_at request |}
                (ledgerClock clocks) (ledgerRnd clocks) in
            let sent :=
              MessagingLimits.registerSend (snd evaluated) pid recipient category
                (sendClock clocks) in
            (Marketing200 (fst ledger) (fst sent),
             {| w_phones := w_phones world; w_policy := w_policy world;
                w_marketing := snd ledger; w_tracker := snd sent |})
        end.
Proof.
  intros Hpid Hphone Hproduct Hto Hrecipient Htemplate Hname.
  unfold postMarketingMessage, WebhookRouting.getPhoneNumber.
  destruct (String.eqb_spec pid EmptyString) as [?|_]; [done|].
  rewrite Hphone, Hproduct, Hto.
  destruct (String.eqb_spec recipient EmptyString) as [?|_]; [done|].
  rewrite Htemplate, Hname. cbv zeta.
  destruct (negb (Policy.allowed _)); [done|].
  destruct (negb (Marketing.el_allowed _)); [done|].
  destruct (negb (Marketing.allowed _)); [done|].
  destruct (MessagingLimits.evaluateMessagingLimit (w_tracker world) pid recipient
              (limitClock clocks)) as [evaluation tracker1].
  cbn [fst snd].
  destruct (negb (MessagingLimits.allowed evaluation)); [done|].
  destruct (resolveCategory storedTemplate) as [error|category]; [done|].
  destruct (Marketing.registerMarketingSend _ _ _ _) as [record marketing1].
  destruct (MessagingLimits.registerSend tracker1 pid recipient category (sendClock clocks))
    as [registered tracker2].
  done.
Qed.

(** A request that is not well formed is refused before any store is read. *)
Lemma postMarketingMessage_malformed world pid request storedTemplate clocks :
  (pid = EmptyString
   ∨ w_phones world !! pid = None
   ∨ productRefused (mr_messaging_product request) = true
   ∨ (∀ recipient, mr_to request = Str recipient → recipient = EmptyString)
   ∨ mr_template request = None
   ∨ (∃ template, mr_template request = Some template
                  ∧ ∀ templateName, tr_name template ≠ Str templateName)) →
  snd (postMarketingMessage world pid request storedTemplate clocks) = world
  ∧ ∀ record registered,
      fst (postMarketingMessage world pid request storedTemplate clocks)
      ≠ Marketing200 record registered.
Proof.
  unfold postMarketingMessage, WebhookRouting.getPhoneNumber.
  destruct (String.eqb_spec pid EmptyString) as [?|Hpid]; [done|].
  destruct (w_phones world !! pid) as [phone|] eqn:Hphone; [|done].
  destruct (productRefused (mr_messaging_product request))
    eqn:Hproduct; [done|].
  destruct (mr_to request) as [| |recipient]; [done|done|].
  destruct (String.eqb_spec recipient EmptyString) as [?|Hrecipient]; [done|].
  destruct (mr_template request) as [template|]; [|done].
  destruct (tr_name template) as [| |templateName] eqn:Hn; [done|done|].
  intros [?|[?|[?|[Hto|[?|(t & [= <-] & Hname)]]]]]; try done.
  - destruct Hrecipient. exact (Hto recipient eq_refl).
  - by destruct (Hname templateName).
Qed.

Lemma marketing_request_shape world pid request :
  (∃ phone recipient template templateName,
     pid ≠ EmptyString
     ∧ w_phones world !! pid = Some phone
     ∧ productRefused (mr_messaging_product request) = false
     ∧ mr_to request = Str recipient
     ∧ recipient ≠ EmptyString
     ∧ mr_template request = Some template
     ∧ tr_name template = Str templateName)
  ∨ (pid = EmptyString
     ∨ w_phones world !! pid = None
     ∨ productRefused (mr_messaging_product request) = true
     ∨ (∀ recipient, mr_to request = Str recipient → recipient = EmptyString)
     ∨ mr_template request = None
     ∨ (∃ template, mr_template request = Some template
                    ∧ ∀ templateName, tr_name template ≠ Str templateName)).
Proof.
  destruct (decide (pid = EmptyString)) as [?|Hpid]; [right; by left|].
  destruct (w_phones world !! pid) as [phone|] eqn:Hphone; [|right; right; by left].
  destruct (productRefused (mr_messaging_product request))
    eqn:Hproduct; [right; right; right; by left|].
  destruct (mr_to request) as [| |recipient] eqn:Hto;
    [right; right; right; right; by left..|].
  destruct (decide (recipient = EmptyString)) as [->|Hrecipient].
  { right; right; right; right; left. by intros ? [= <-]. }
  destruct (mr_template request) as [template|] eqn:Htemplate;
    [|right; right; right; right; right; by left].
  destruct (tr_name template) as [| |templateName] eqn:Hname.
  1,2: right; right; right; right; right; right; exists template; split; [done|];
       intros ?; by rewrite Hname.
  left. by exists phone, recipient, template, templateName.
Qed.

Lemma capRespected_no_bucket (st : Marketing.Store) now :
  Marketing.frequencyBuckets st = ∅ →
  0 ≤ Marketing.maxSendsPerWindow (Marketing.config st) →
  Marketing.capRespected st now.
Proof.
  intros Hb Hmax key. unfold Marketing.countedAt, Marketing.bucket.
  rewrite Hb, lookup_empty. simpl. lia.
Qed.

Lemma serveMarketing_invariant world c t0 :
  MessagingLimits.storeWellKeyed (w_tracker world) →
  MessagingLimits.storeRespectsLimits (w_tracker world) →
  Marketing.capRespected (w_marketing world) t0 →
  t0 ≤ frequencyClock (call_clocks c) →
  MessagingLimits.storeWellKeyed (w_tracker (serveMarketing world c))
  ∧ MessagingLimits.storeRespectsLimits (w_tracker (serveMarketing world c))
  ∧ Marketing.capRespected (w_marketing (serveMarketing world c))
      (frequencyClock (call_clocks c))
  ∧ Marketing.config (w_marketing (serveMarketing world c))
    = Marketing.config (w_marketing world).
Proof.
  intros Hk Hr Hcap Ht0. unfold serveMarketing.
  destruct c as [pid request storedTemplate clocks]. cbn [call_phoneId call_request
    call_storedTemplate call_clocks] in *.
  pose proof (capRespected_later _ _ _ Ht0 Hcap) as Hcap'.
  destruct (marketing_request_shape world pid request)
    as [(phone & recipient & template & templateName & H1 & H2 & H3 & H4 & H5 & H6 & H7)
       |Hbad].
  2:{ destruct (postMarketingMessage_malformed world pid request storedTemplate clocks Hbad)
        as [-> _]. done. }
  rewrite (postMarketingMessage_checked world pid request storedTemplate clocks
             phone recipient template templateName H1 H2 H3 H4 H5 H6 H7).
  destruct (negb (Policy.allowed _)); [done|].
  destruct (negb (Marketing.el_allowed _)); [done|].
  destruct (Marketing.allowed
              (Marketing.evaluateMarketingFrequency (w_marketing world) pid recipient
                 (frequencyClock clocks))) eqn:Hfreq; cbn [negb]; [|done].
  cbv zeta.
  pose proof (sendMessage_invariant (w_tracker world) pid recipient MARKETING
                (limitClock clocks) (sendClock clocks) Hk Hr) as Hsend.
  pose proof (evaluate_keyed (w_tracker world) pid recipient (limitClock clocks) Hk) as Hk1.
  pose proof (evaluate_respects (w_tracker world) pid recipient (limitClock clocks) Hr) as Hr1.
  destruct (MessagingLimits.allowed
              (fst (MessagingLimits.evaluateMessagingLimit (w_tracker world) pid recipient
                      (limitClock clocks)))) eqn:Hlimit; cbn [negb]; [|done].
  destruct (resolveCategory storedTemplate) as [error|category]; [done|].
  cbn [snd w_tracker w_marketing]. split; [|split; [|split]].
  - pose proof (sendMessage_invariant (w_tracker world) pid recipient category
                  (limitClock clocks) (sendClock clocks) Hk Hr) as [Hs _].
    unfold sendMessage in Hs.
    destruct (MessagingLimits.evaluateMessagingLimit (w_tracker world) pid recipient
                (limitClock clocks)) as [evaluation tracker1].
    cbn [fst snd] in *. rewrite Hlimit in Hs. cbn [negb] in Hs.
    by destruct (MessagingLimits.registerSend tracker1 pid recipient category
                   (sendClock clocks)).
  - pose proof (sendMessage_invariant (w_tracker world) pid recipient category
                  (limitClock clocks) (sendClock clocks) Hk Hr) as [_ Hs].
    unfold sendMessage in Hs.
    destruct (MessagingLimits.evaluateMessagingLimit (w_tracker world) pid recipient
                (limitClock clocks)) as [evaluation tracker1].
    cbn [fst snd] in *. rewrite Hlimit in Hs. cbn [negb] in Hs.
    by destruct (MessagingLimits.registerSend tracker1 pid recipient category
                   (sendClock clocks)).
  - set (params := {| Marketing.p_phoneId := pid; Marketing.p_to := recipient;
                      Marketing.p_templateName := Some templateName;
                      Marketing.p_languageCode := whenTruthy (tr_languageCode template);
                      Marketing.p_category := Some category;
                      Marketing.p_sendAt :=
                        (fun send_at =>
                           if send_at <? 10000000000 then send_at * 1000 else send_at)
                        <$> mr_send_at request |}).
    assert (Marketing.runFrequencyOps
              [ Marketing.FreqEvaluate pid recipient (frequencyClock clocks);
                Marketing.FreqRegister params (ledgerClock clocks) (ledgerRnd clocks) ]
              (w_marketing world, [])
            = Some (snd (Marketing.registerMarketingSend (w_marketing world) params
                           (ledgerClock clocks) (ledgerRnd clocks)),
                    List.filter
                      (fun k => negb (String.eqb (Marketing.paramsKey params) k))
                      [Marketing.getFrequencyKey pid recipient])) as Hrun.
    { cbn [Marketing.runFrequencyOps Marketing.stepFrequencyOp]. rewrite Hfreq.
      cbn [existsb]. unfold Marketing.paramsKey at 1. cbn [Marketing.p_phoneId Marketing.p_to params].
      by rewrite String.eqb_refl. }
    assert (Marketing.clockOrdered t0
              [ Marketing.FreqEvaluate pid recipient (frequencyClock clocks);
                Marketing.FreqRegister params (ledgerClock clocks) (ledgerRnd clocks) ]
            = true) as Hclock.
    { cbn [Marketing.clockOrdered]. rewrite andb_true_r. by apply Z.leb_le. }
    pose proof (runFrequencyOps_invariant _ (w_marketing world, []) _ t0 Hclock
                  (conj Hcap (Forall_nil_2 _)) Hrun) as [Hinv _].
    exact Hinv.
  - apply register_config.
Qed.

(** A marketing send is accepted only after the four checks all allowed
    it, in this order: the contact policy, the marketing opt-in, the
    frequency cap of the pair and the messaging limit of the number, and
    only for a template that is approved when one is stored.  Accepting
    adds one record to the send ledger and one event to the tracker, of
    the category of the stored template (MARKETING without one); any
    refusal leaves phones, policy and the marketing store as they were
    and changes the tracker at most by the pruning of the evaluation.  A
    contact blocked by policy is refused as such whatever its opt-in, and
    a [messaging_product] that is truthy without being the string
    [whatsapp], a number for one, is refused as such before any check. *)
Theorem marketing_route_checks_then_registers
  (world : World) (pid : string) (request : MarketingRequest)
  (storedTemplate : option Templates.MessageTemplate) (clocks : Clocks) :
  let result := postMarketingMessage world pid request storedTemplate clocks in
  let refused :=
    w_marketing (snd result) = w_marketing world
    ∧ (w_tracker (snd result) = w_tracker world
       ∨ ∃ recipient,
           mr_to request = Str recipient
           ∧ w_tracker (snd result)
             = snd (MessagingLimits.evaluateMessagingLimit (w_tracker world) pid recipient
                      (limitClock clocks))) in
  (∀ phone,
     pid ≠ EmptyString →
     w_phones world !! pid = Some phone →
     fieldTruthy (mr_messaging_product request) = true →
     mr_messaging_product request ≠ Str "whatsapp" →
     result = (Marketing400 "messaging_product_whatsapp_only", world))
  ∧ w_phones (snd result) = w_phones world
  ∧ w_policy (snd result) = w_policy world
  ∧ match fst result with
    | Marketing200 record registered =>
        ∃ recipient,
          mr_to request = Str recipient
          ∧ Policy.allowed (Policy.evaluatePolicyForWaId (w_policy world) recipient) = true
          ∧ Marketing.el_allowed
              (Marketing.evaluateMarketingEligibility (w_marketing world) recipient) = true
          ∧ Marketing.allowed
              (Marketing.evaluateMarketingFrequency (w_marketing world) pid recipient
                 (frequencyClock clocks)) = true
          ∧ MessagingLimits.allowed
              (fst (MessagingLimits.evaluateMessagingLimit (w_tracker world) pid recipient
                      (limitClock clocks))) = true
          ∧ (∀ stored, storedTemplate = Some stored →
               Templates.status stored = Templates.APPROVED)
          ∧ Marketing.category record
            = match storedTemplate with
              | Some stored => Templates.category stored
              | None => MARKETING
              end
          ∧ (Marketing.phoneId record, Marketing.to record) = (pid, recipient)
          ∧ Marketing.sends (w_marketing (snd result))
            = capRing 500 (Marketing.sends (w_marketing world) ++ [record])
          ∧ MessagingLimits.storedSends (w_tracker (snd result)) pid
            = MessagingLimits.storedSends
                (snd (MessagingLimits.evaluateMessagingLimit (w_tracker world) pid recipient
                        (limitClock clocks))) pid
              ++ [MessagingLimits.event registered]
          ∧ MessagingLimits.event registered
            = {| MessagingLimits.to := recipient;
                 MessagingLimits.category := Marketing.category record;
                 MessagingLimits.timestamp := sendClock clocks;
                 MessagingLimits.costUsd :=
                   MessagingLimits.CATEGORY_COST (Marketing.category record) |}
    | _ => refused
    end
  ∧ (∀ recipient template templateName phone,
       pid ≠ EmptyString →
       w_phones world !! pid = Some phone →
       fieldTruthy (mr_messaging_product request) = false
       ∨ mr_messaging_product request = Str "whatsapp" →
       mr_to request = Str recipient →
       recipient ≠ EmptyString →
       mr_template request = Some template →
       tr_name template = Str templateName →
       Policy.allowed (Policy.evaluatePolicyForWaId (w_policy world) recipient) = false →
       result = (Marketing403 "contact_blocked_by_policy", world)).
Proof.
  cbv zeta. split.
  { intros phone Hpid Hphone Htruthy Hother.
    unfold postMarketingMessage, WebhookRouting.getPhoneNumber.
    destruct (String.eqb_spec pid EmptyString) as [?|_]; [done|].
    rewrite Hphone.
    assert (productRefused (mr_messaging_product request) = true) as ->; [|done].
    unfold productRefused. rewrite Htruthy.
    destruct (mr_messaging_product request) as [| |mp]; [done..|].
    destruct (String.eqb_spec mp "whatsapp") as [->|_]; [by destruct Hother|done]. }
  destruct (marketing_request_shape world pid request)
    as [(phone & recipient & template & templateName & H1 & H2 & H3 & H4 & H5 & H6 & H7)
       |Hbad].
  2:{ destruct (postMarketingMessage_malformed world pid request storedTemplate clocks Hbad)
        as [Hw Hnot].
      rewrite Hw. split; [done|]. split; [done|]. split.
      - destruct (fst (postMarketingMessage world pid request storedTemplate clocks))
          as [| | | |record registered] eqn:Hf; try (split; [done|by left]).
        by destruct (Hnot record registered).
      - intros recipient template templateName phone G1 G2 G3 G4 G5 G6 G7 _.
        exfalso.
        destruct Hbad as [Hb|[Hb|[Hb|[Hb|[Hb|(t & Ht & Hn)]]]]].
        + done.
        + congruence.
        + unfold productRefused in Hb. destruct G3 as [G3|G3]; rewrite G3 in Hb; done.
        + destruct G5. by apply Hb.
        + congruence.
        + rewrite G6 in Ht. injection Ht as <-. by destruct (Hn templateName). }
  rewrite (postMarketingMessage_checked world pid request storedTemplate clocks
             phone recipient template templateName H1 H2 H3 H4 H5 H6 H7).
  destruct (Policy.allowed (Policy.evaluatePolicyForWaId (w_policy world) recipient))
    eqn:Hpolicy; cbn [negb].
  2:{ split; [done|]. split; [done|]. split; [split; [done|by left]|].
      intros r t n ph _ _ _ Hr _ _ _ _. done. }
  assert (∀ (r : MarketingResponse * World),
            (∀ recipient0 template0 templateName0 phone0,
               pid ≠ EmptyString →
               w_phones world !! pid = Some phone0 →
               fieldTruthy (mr_messaging_product request) = false
               ∨ mr_messaging_product request = Str "whatsapp" →
               mr_to request = Str recipient0 →
               recipient0 ≠ EmptyString →
               mr_template request = Some template0 →
               tr_name template0 = Str templateName0 →
               Policy.allowed (Policy.evaluatePolicyForWaId (w_policy world) recipient0)
               = false →
               r = (Marketing403 "contact_blocked_by_policy", world))) as Hlast.
  { intros r r0 t0 n0 ph0 _ _ _ Hr0 _ _ _ Hp0. rewrite H4 in Hr0. injection Hr0 as <-.
    congruence. }
  destruct (Marketing.el_allowed
              (Marketing.evaluateMarketingEligibility (w_marketing world) recipient))
    eqn:Heligible; cbn [negb].
  2:{ split; [done|]. split; [done|]. split; [split; [done|by left]|apply Hlast]. }
  destruct (Marketing.allowed
              (Marketing.evaluateMarketingFrequency (w_marketing world) pid recipient
                 (frequencyClock clocks))) eqn:Hfreq; cbn [negb].
  2:{ split; [done|]. split; [done|]. split; [split; [done|by left]|apply Hlast]. }
  cbv zeta.
  destruct (MessagingLimits.allowed
              (fst (MessagingLimits.evaluateMessagingLimit (w_tracker world) pid recipient
                      (limitClock clocks)))) eqn:Hlimit; cbn [negb].
  2:{ split; [done|]. split; [done|]. split; [|apply Hlast].
      split; [done|]. right. by exists recipient. }
  unfold resolveCategory.
  destruct storedTemplate as [stored|].
  - destruct (bool_decide (Templates.status stored = Templates.APPROVED)) eqn:Hstatus;
      cbn [negb].
    2:{ split; [done|]. split; [done|]. split; [|apply Hlast].
        split; [done|]. right. by exists recipient. }
    apply bool_decide_eq_true_1 in Hstatus.
    split; [done|]. split; [done|]. split; [|apply Hlast].
    cbn [fst snd w_marketing w_tracker].
    exists recipient. repeat split; try done.
    + by intros ? [= <-].
    + apply registerSend_storedSends.
    + unfold MessagingLimits.registerSend.
      by destruct (MessagingLimits.getOrCreateState pid _).
  - split; [done|]. split; [done|]. split; [|apply Hlast].
    cbn [fst snd w_marketing w_tracker].
    exists recipient. repeat split; try done.
    + apply registerSend_storedSends.
    + unfold MessagingLimits.registerSend.
      by destruct (MessagingLimits.getOrCreateState pid _).
Qed.

(** Served through the marketing route alone, with the clock of the
    frequency evaluation never running backwards and the configuration
    left alone, no bucket ever holds more sends than the cap that an
    evaluation would count, and no number exceeds its messaging limit:
    the route itself is the protocol the stores rely on. *)
Theorem marketing_route_keeps_caps (world : World) (calls : list MarketingCall) (t0 : Z) :
  MessagingLimits.storeWellKeyed (w_tracker world) →
  MessagingLimits.storeRespectsLimits (w_tracker world) →
  Marketing.capRespected (w_marketing world) t0 →
  frequencyClocksOrdered t0 calls = true →
  let world' := foldl serveMarketing world calls in
  MessagingLimits.storeRespectsLimits (w_tracker world')
  ∧ Marketing.config (w_marketing world') = Marketing.config (w_marketing world)
  ∧ ∀ pid recipient now,
      lastFrequencyClock t0 calls ≤ now →
      Z.of_nat (Marketing.sendsInWindow
                  (Marketing.evaluateMarketingFrequency (w_marketing world') pid recipient now))
      ≤ Marketing.maxSendsPerWindow (Marketing.config (w_marketing world)).
Proof.
  intros Hk Hr Hcap Hclocks. cbv zeta.
  assert (MessagingLimits.storeWellKeyed (w_tracker (foldl serveMarketing world calls))
          ∧ MessagingLimits.storeRespectsLimits (w_tracker (foldl serveMarketing world calls))
          ∧ Marketing.capRespected (w_marketing (foldl serveMarketing world calls))
              (lastFrequencyClock t0 calls)
          ∧ Marketing.config (w_marketing (foldl serveMarketing world calls))
            = Marketing.config (w_marketing world)) as (_ & H2 & H3 & H4).
  { revert world t0 Hk Hr Hcap Hclocks.
    induction calls as [|c calls IH]; intros world t0 Hk Hr Hcap Hclocks; [done|].
    cbn [frequencyClocksOrdered] in Hclocks. apply andb_true_iff in Hclocks as [Ht0 Hrest].
    apply Z.leb_le in Ht0.
    destruct (serveMarketing_invariant world c t0 Hk Hr Hcap Ht0) as (G1 & G2 & G3 & G4).
    destruct (IH _ _ G1 G2 G3 Hrest) as (I1 & I2 & I3 & I4).
    cbn [foldl]. unfold lastFrequencyClock. cbn [foldl].
    split; [done|]. split; [done|]. split; [exact I3|]. by rewrite I4. }
  split; [exact H2|]. split; [exact H4|].
  intros pid recipient now Hnow.
  rewrite evaluate_sendsInWindow, <- H4.
  exact (capRespected_later _ _ _ Hnow H3 (Marketing.getFrequencyKey pid recipient)).
Qed.

Lemma marketing_route_keeps_caps_scenario :
  let world' :=
    foldl serveMarketing marketingScenarioWorld
      [marketingScenarioCall 1000; marketingScenarioCall 2000] in
  length (Marketing.sends (w_marketing world')) = 1%nat
  ∧ MessagingLimits.storeRespectsLimits (w_tracker world')
  ∧ Z.of_nat (Marketing.sendsInWindow
                (Marketing.evaluateMarketingFrequency (w_marketing world') "Q" "5511999" 3000))
    ≤ 1.
Proof.
  cbv zeta. split; [by vm_compute|].
  destruct (marketing_route_keeps_caps marketingScenarioWorld
              [marketingScenarioCall 1000; marketingScenarioCall 2000] 0)
    as (H1 & _ & H3).
  - apply map_Forall_empty.
  - apply map_Forall_empty.
  - by apply capRespected_no_bucket.
  - reflexivity.
  - split; [exact H1|]. apply (H3 "Q" "5511999" 3000). by vm_compute.
Defined.

End MarketingRouteProperties.
